(** * GoUP lead pipeline: a shallow embedding and its checked properties

  The Python sources embedded here are
  [src/cache/deduplication.py], [src/scoring/lead_scorer.py],
  [src/collectors/shopify_verifier.py], [src/enrichment/linkedin.py],
  [src/enrichment/alternative_sources.py], [src/enrichment/email_finder.py],
  [src/models.py], [src/constants.py] and [src/pipeline.py].

  Python [str] values are modelled as lists of ASCII characters; the
  remote services (HTTP fetches, Hunter.io, the Apify actors, Gemini) are
  fields of an environment record that answers each call. *)

From Stdlib Require Import ZArith Ascii String.
From stdpp Require Import gmap strings list.

Open Scope Z_scope.

(** ** Python string primitives *)

(** The strings of the model are ASCII strings: on the characters below
    128 the functions of this module are those of Python's [str]; what
    Python does on other characters (case mappings that depend on the
    context, Unicode blanks) is outside the model, and a property that
    depends on it is stated for ASCII strings. *)

Module PyStr.

Abbreviation str := (list ascii).

(** An ASCII character. *)
Definition is_ascii (c : ascii) : bool := (nat_of_ascii c <? 128)%nat.

(** A string literal of the source. *)
Definition lit (s : string) : str := list_ascii_of_string s.

Definition ch (n : nat) : ascii := ascii_of_nat n.

(** [str.isspace] on one ASCII character: TAB, LF, VT, FF, CR, the four
    separators 0x1c..0x1f and the blank. *)
Definition is_space (c : ascii) : bool :=
  let n := nat_of_ascii c in
  ((9 <=? n)%nat && (n <=? 13)%nat) || ((28 <=? n)%nat && (n <=? 32)%nat).

Definition is_upper (c : ascii) : bool :=
  let n := nat_of_ascii c in (65 <=? n)%nat && (n <=? 90)%nat.

Definition is_lower (c : ascii) : bool :=
  let n := nat_of_ascii c in (97 <=? n)%nat && (n <=? 122)%nat.

Definition to_lower (c : ascii) : ascii :=
  if is_upper c then ascii_of_nat (nat_of_ascii c + 32) else c.

Definition to_upper (c : ascii) : ascii :=
  if is_lower c then ascii_of_nat (nat_of_ascii c - 32) else c.

(** [s.lower()] and [s.upper()] *)
Definition lower (s : str) : str := map to_lower s.
Definition upper (s : str) : str := map to_upper s.

(** [s.title()]: a letter is upper-cased when the previous character is
    not a letter, lower-cased otherwise. *)
Fixpoint title_go (prev_cased : bool) (s : str) : str :=
  match s with
  | [] => []
  | c :: s' =>
      let cased := is_upper c || is_lower c in
      (if cased then (if prev_cased then to_lower c else to_upper c) else c)
        :: title_go cased s'
  end.
Definition title (s : str) : str := title_go false s.

(** [s.lstrip()], [s.rstrip()], [s.strip()] *)
Fixpoint lstrip (s : str) : str :=
  match s with
  | [] => []
  | c :: s' => if is_space c then lstrip s' else s
  end.
Definition rstrip (s : str) : str := rev (lstrip (rev s)).
Definition strip (s : str) : str := rstrip (lstrip s).

(** [s.startswith(p)] and [s.endswith(p)] *)
Fixpoint startswith (p s : str) : bool :=
  match p, s with
  | [], _ => true
  | a :: p', b :: s' => Ascii.eqb a b && startswith p' s'
  | _ :: _, [] => false
  end.
Definition endswith (p s : str) : bool := startswith (rev p) (rev s).

(** [sub in s] *)
Fixpoint contains (sub s : str) : bool :=
  startswith sub s ||
  match s with
  | [] => false
  | _ :: s' => contains sub s'
  end.

(** [s.replace(old, new)] with an empty [new], for a non-empty [old]: the occurrences are found
    left to right and do not overlap.  [skip] counts the characters of the
    occurrence being deleted that are still ahead. *)
Fixpoint replace_go (old : str) (skip : nat) (s : str) : str :=
  match s with
  | [] => []
  | c :: s' =>
      match skip with
      | S k => replace_go old k s'
      | O => if startswith old s
             then replace_go old (length old - 1) s'
             else c :: replace_go old 0 s'
      end
  end.
Definition remove_all (old s : str) : str := replace_go old 0 s.

(** [s.split(sep)] for a non-empty [sep]; the result is never empty. *)
Fixpoint split_go (sep : str) (skip : nat) (s : str) : list str :=
  match s with
  | [] => [[]]
  | c :: s' =>
      match skip with
      | S k => split_go sep k s'
      | O => if startswith sep s
             then [] :: split_go sep (length sep - 1) s'
             else match split_go sep 0 s' with
                  | p :: ps => (c :: p) :: ps
                  | [] => [[c]]
                  end
      end
  end.
Definition split (sep s : str) : list str := split_go sep 0 s.

(** [s.split(sep)[0]] and [s.split(sep)[-1]] *)
Definition split_first (sep s : str) : str := hd [] (split sep s).
Definition split_last (sep s : str) : str := List.last (split sep s) [].

(** Truth value of a [str] and of an [Optional[str]]. *)
Definition nonempty (s : str) : bool :=
  match s with [] => false | _ => true end.
Definition truthy (o : option str) : bool :=
  match o with Some s => nonempty s | None => false end.

Definition str_eqb (a b : str) : bool := bool_decide (a = b).

(** [sep.join(xs)] *)
Fixpoint join (sep : str) (xs : list str) : str :=
  match xs with
  | [] => []
  | [x] => x
  | x :: xs' => x ++ sep ++ join sep xs'
  end.

(** [x in xs] for a list of strings. *)
Definition mem (x : str) (xs : list str) : bool := existsb (str_eqb x) xs.

End PyStr.
Import PyStr.

(** ** [src/cache/deduplication.py] *)

Module DeduplicationCache.

(** One value of the [_cache] dict. *)
Record entry := { lead_id : str; processed_at : str }.

(** [normalize_url] *)
Definition normalize_url (url : str) : str :=
  let url := strip (lower url) in
  let url := remove_all (lit "http://") (remove_all (lit "https://") url) in
  let url := remove_all (lit "www.") url in
  let domain := split_first (lit "/") url in
  let domain := split_first (lit "?") domain in
  let domain := split_first (lit "#") domain in
  strip domain.

(** [is_processed], [get_lead_id], [mark_processed] on the dict. *)
Definition is_processed (cache : gmap str entry) (url : str) : bool :=
  bool_decide (is_Some (cache !! normalize_url url)).

Definition get_lead_id (cache : gmap str entry) (url : str) : option str :=
  lead_id <$> cache !! normalize_url url.

Definition mark_processed (cache : gmap str entry) (url id now : str)
  : gmap str entry :=
  <[normalize_url url := {| lead_id := id; processed_at := now |}]> cache.

(** [remove] on the dict: [del self._cache[domain]] when the domain is a
    key. *)
Definition remove (cache : gmap str entry) (url : str) : gmap str entry :=
  if is_processed cache url then delete (normalize_url url) cache else cache.

(** [get_stats()["total_domains"]] *)
Definition total_domains (cache : gmap str entry) : nat := size cache.

End DeduplicationCache.

(** ** [src/models.py] *)

Inductive Platform := SHOPIFY | CUSTOM | UNKNOWN.
Inductive Segment := EPHARMACY | SUNGLASSES | EYEWEAR.
Inductive LeadStatus := NEW | CONTACTED | RESPONDED | QUALIFIED | DISQUALIFIED.

Definition is_shopify_platform (p : Platform) : bool :=
  match p with SHOPIFY => true | _ => false end.

Module Company.
Record t := {
  name : str;
  website : str;
  shopify_url : option str;
  primary_domain : option str;
  platform : Platform;
  industry : option str;
  segment : option Segment;
  country : option str;
  employee_count : option Z;
  linkedin_url : option str;
  description : option str;
  founded_year : option Z }.

(** Attribute assignments [company.field = v]. *)
Definition set_name (v : str) (c : t) : t :=
  {| name := v; website := website c; shopify_url := shopify_url c;
     primary_domain := primary_domain c; platform := platform c;
     industry := industry c; segment := segment c; country := country c;
     employee_count := employee_count c; linkedin_url := linkedin_url c;
     description := description c; founded_year := founded_year c |}.
Definition set_primary_domain (v : option str) (c : t) : t :=
  {| name := name c; website := website c; shopify_url := shopify_url c;
     primary_domain := v; platform := platform c;
     industry := industry c; segment := segment c; country := country c;
     employee_count := employee_count c; linkedin_url := linkedin_url c;
     description := description c; founded_year := founded_year c |}.
Definition set_industry (v : option str) (c : t) : t :=
  {| name := name c; website := website c; shopify_url := shopify_url c;
     primary_domain := primary_domain c; platform := platform c;
     industry := v; segment := segment c; country := country c;
     employee_count := employee_count c; linkedin_url := linkedin_url c;
     description := description c; founded_year := founded_year c |}.
Definition set_country (v : option str) (c : t) : t :=
  {| name := name c; website := website c; shopify_url := shopify_url c;
     primary_domain := primary_domain c; platform := platform c;
     industry := industry c; segment := segment c; country := v;
     employee_count := employee_count c; linkedin_url := linkedin_url c;
     description := description c; founded_year := founded_year c |}.
Definition set_employee_count (v : option Z) (c : t) : t :=
  {| name := name c; website := website c; shopify_url := shopify_url c;
     primary_domain := primary_domain c; platform := platform c;
     industry := industry c; segment := segment c; country := country c;
     employee_count := v; linkedin_url := linkedin_url c;
     description := description c; founded_year := founded_year c |}.
Definition set_linkedin_url (v : option str) (c : t) : t :=
  {| name := name c; website := website c; shopify_url := shopify_url c;
     primary_domain := primary_domain c; platform := platform c;
     industry := industry c; segment := segment c; country := country c;
     employee_count := employee_count c; linkedin_url := v;
     description := description c; founded_year := founded_year c |}.
Definition set_description (v : option str) (c : t) : t :=
  {| name := name c; website := website c; shopify_url := shopify_url c;
     primary_domain := primary_domain c; platform := platform c;
     industry := industry c; segment := segment c; country := country c;
     employee_count := employee_count c; linkedin_url := linkedin_url c;
     description := v; founded_year := founded_year c |}.
Definition set_founded_year (v : option Z) (c : t) : t :=
  {| name := name c; website := website c; shopify_url := shopify_url c;
     primary_domain := primary_domain c; platform := platform c;
     industry := industry c; segment := segment c; country := country c;
     employee_count := employee_count c; linkedin_url := linkedin_url c;
     description := description c; founded_year := v |}.
End Company.

Module DecisionMaker.
Record t := {
  name : str;
  title : option str;
  linkedin_url : option str;
  email : option str;
  email_verified : bool;
  phone : option str;
  location : option str }.

Definition set_email (v : option str) (d : t) : t :=
  {| name := name d; title := title d; linkedin_url := linkedin_url d;
     email := v; email_verified := email_verified d; phone := phone d;
     location := location d |}.
Definition set_email_verified (v : bool) (d : t) : t :=
  {| name := name d; title := title d; linkedin_url := linkedin_url d;
     email := email d; email_verified := v; phone := phone d;
     location := location d |}.
End DecisionMaker.

(** A value of the [scoring_breakdown] dict: a weight, or the flag [True]
    stored under ["excluded"]. *)
Inductive bval := BInt (z : Z) | BBool (b : bool).

Module Qualification.
Record t := {
  score : Z;
  qualified : bool;
  fit_notes : option str;
  scoring_breakdown : list (str * bval) }.

(** [Qualification()] *)
Definition default : t :=
  {| score := 0; qualified := false; fit_notes := None; scoring_breakdown := [] |}.
End Qualification.

Module OutreachCopy.
Record t := {
  linkedin_connection_request : option str;
  linkedin_followup : option str;
  email_subject : option str;
  email_body : option str;
  research_summary : option str }.
End OutreachCopy.

Module Lead.
Record t := {
  lead_id : str;
  company : Company.t;
  decision_maker : option DecisionMaker.t;
  qualification : Qualification.t;
  outreach : option OutreachCopy.t;
  status : LeadStatus;
  source : option str;
  created_at : str;
  updated_at : str;
  notes : option str }.

Definition set_company (v : Company.t) (l : t) : t :=
  {| lead_id := lead_id l; company := v; decision_maker := decision_maker l;
     qualification := qualification l; outreach := outreach l;
     status := status l; source := source l; created_at := created_at l;
     updated_at := updated_at l; notes := notes l |}.
Definition set_decision_maker (v : option DecisionMaker.t) (l : t) : t :=
  {| lead_id := lead_id l; company := company l; decision_maker := v;
     qualification := qualification l; outreach := outreach l;
     status := status l; source := source l; created_at := created_at l;
     updated_at := updated_at l; notes := notes l |}.
Definition set_qualification (v : Qualification.t) (l : t) : t :=
  {| lead_id := lead_id l; company := company l;
     decision_maker := decision_maker l;
     qualification := v; outreach := outreach l;
     status := status l; source := source l; created_at := created_at l;
     updated_at := updated_at l; notes := notes l |}.
Definition set_outreach (v : option OutreachCopy.t) (l : t) : t :=
  {| lead_id := lead_id l; company := company l;
     decision_maker := decision_maker l;
     qualification := qualification l; outreach := v;
     status := status l; source := source l; created_at := created_at l;
     updated_at := updated_at l; notes := notes l |}.
End Lead.

(** ** [src/constants.py] *)

Module Constants.

Definition TARGET_COUNTRIES : list str :=
  map lit ["US"; "USA"; "UK"; "GB"; "IE"; "DE"; "AT"; "CH"; "FR"; "NL"; "BE";
           "ES"; "IT"; "PT"; "FI"; "SE"; "DK"; "NO"; "CA"; "AU"]%string.

Definition COMPANY_SIZE_MIN : Z := 10.
Definition COMPANY_SIZE_SWEET_SPOT_MIN : Z := 20.
Definition COMPANY_SIZE_SWEET_SPOT_MAX : Z := 50.
Definition COMPANY_SIZE_MAX : Z := 200.

Definition EXCLUSION_LIST : list str :=
  map lit ["glassesusa"; "eyebuydirect"; "zenni optical"; "zenni";
           "sunglass hut"; "lenscrafters"; "warby parker"; "specsavers";
           "fielmann"; "apollo optik"]%string.

Definition SCORING_WEIGHTS : list (str * Z) :=
  [ (lit "platform_shopify", 20);
    (lit "company_size_sweet_spot", 15);
    (lit "company_size_good", 10);
    (lit "target_geography", 15);
    (lit "ecommerce_presence", 10);
    (lit "no_rx_eyewear", 15);
    (lit "decision_maker_found", 10);
    (lit "email_verified", 5) ].

Definition QUALIFICATION_THRESHOLD : Z := 50.

End Constants.

(** ** Python dicts with string keys, in insertion order *)

Module PyDict.

(** [d.get(k)] *)
Fixpoint get {V} (k : str) (d : list (str * V)) : option V :=
  match d with
  | [] => None
  | (k', v) :: d' => if str_eqb k k' then Some v else get k d'
  end.

(** [k in d] *)
Definition has_key {V} (k : str) (d : list (str * V)) : bool :=
  match get k d with Some _ => true | None => false end.

(** [d[k] = v]: the value is replaced in place when the key is present and
    appended otherwise. *)
Fixpoint set {V} (k : str) (v : V) (d : list (str * V)) : list (str * V) :=
  match d with
  | [] => [(k, v)]
  | (k', v') :: d' => if str_eqb k k' then (k', v) :: d' else (k', v') :: set k v d'
  end.

End PyDict.

(** ** [src/scoring/lead_scorer.py] *)

Module LeadScorer.
Import Constants.

Record t := { threshold : Z; exclusion_list : list str }.

(** [__init__]: an omitted or empty [exclusion_list] argument selects
    [EXCLUSION_LIST]; the entries are lower-cased. *)
Definition configured_exclusions (exclusion_list : option (list str)) : list str :=
  match exclusion_list with
  | Some (e :: es) => e :: es
  | _ => EXCLUSION_LIST
  end.

Definition init (qualification_threshold : Z) (exclusion_list : option (list str)) : t :=
  {| threshold := qualification_threshold;
     exclusion_list := map lower (configured_exclusions exclusion_list) |}.

(** [LeadScorer()] *)
Definition new : t := init QUALIFICATION_THRESHOLD None.

(** [SCORING_WEIGHTS[key]]; every key the scorer uses is in the table. *)
Definition weight (key : str) : Z := default 0 (PyDict.get key SCORING_WEIGHTS).

(** [_is_excluded] *)
Definition _is_excluded (self : t) (company_name : str) : bool :=
  let name_lower := lower company_name in
  existsb (fun excluded => contains excluded name_lower) (exclusion_list self).

(** [_sells_prescription_eyewear] *)
Definition _sells_prescription_eyewear (company : Company.t) : bool :=
  match Company.description company with
  | Some (c :: d) =>
      let rx_terms := map lit ["prescription"; "rx lenses"; "optical lenses";
                               "vision care"]%string in
      let desc_lower := lower (c :: d) in
      existsb (fun term => contains term desc_lower) rx_terms
  | _ => false
  end.

(** [_generate_fit_notes] *)
Definition _generate_fit_notes (breakdown : list (str * bval)) (total_score : Z)
    (qualified : bool) : str :=
  let has k := PyDict.has_key (lit k) breakdown in
  let strengths :=
    (if has "platform_shopify"%string then [lit "Shopify platform"] else []) ++
    (if has "company_size_sweet_spot"%string then [lit "ideal company size"] else []) ++
    (if has "target_geography"%string then [lit "target geography"] else []) ++
    (if has "decision_maker_found"%string then [lit "decision maker identified"] else []) in
  let notes1 :=
    match strengths with
    | [] => []
    | _ => [lit "Strengths: " ++ join (lit ", ") strengths]
    end in
  let gaps :=
    (if has "platform_shopify"%string then [] else [lit "not on Shopify"]) ++
    (if has "decision_maker_found"%string then [] else [lit "no decision maker found"]) ++
    (if has "email_verified"%string then [] else [lit "email not verified"]) in
  let notes2 :=
    match gaps with
    | [] => notes1
    | _ => if negb qualified
           then notes1 ++ [lit "Gaps: " ++ join (lit ", ") gaps]
           else notes1
    end in
  match notes2 with
  | [] => lit "Scoring complete"
  | _ => join (lit ". ") notes2
  end.

(** The two statements executed for an awarded criterion:
    [breakdown[key] = SCORING_WEIGHTS[key]; total_score += SCORING_WEIGHTS[key]]. *)
Definition award (key : string) (acc : list (str * bval) * Z) : list (str * bval) * Z :=
  (PyDict.set (lit key) (BInt (weight (lit key))) acc.1, acc.2 + weight (lit key)).

(** [score]; the returned lead is the argument with its qualification
    replaced. *)
Definition score (self : t) (lead : Lead.t) : Lead.t :=
  let company := Lead.company lead in
  let dm := Lead.decision_maker lead in
  let acc : list (str * bval) * Z := ([], 0) in
  if _is_excluded self (Company.name company) then
    Lead.set_qualification
      {| Qualification.score := 0;
         Qualification.qualified := false;
         Qualification.fit_notes := Some (lit "Excluded: Company is in exclusion list");
         Qualification.scoring_breakdown := [(lit "excluded", BBool true)] |} lead
  else
  (* 1. Platform is Shopify *)
  let acc :=
    if is_shopify_platform (Company.platform company)
    then award "platform_shopify" acc else acc in
  (* 2. Company size scoring *)
  let acc :=
    match Company.employee_count company with
    | Some n =>
        if negb (n =? 0) then
          if (COMPANY_SIZE_SWEET_SPOT_MIN <=? n) && (n <=? COMPANY_SIZE_SWEET_SPOT_MAX)
          then award "company_size_sweet_spot" acc
          else if (COMPANY_SIZE_MIN <=? n) && (n <=? COMPANY_SIZE_MAX)
          then award "company_size_good" acc
          else acc
        else acc
    | None => acc
    end in
  (* 3. Target geography *)
  let acc :=
    match Company.country company with
    | Some (c :: cs) =>
        if mem (upper (c :: cs)) TARGET_COUNTRIES
        then award "target_geography" acc else acc
    | _ => acc
    end in
  (* 4. E-commerce presence *)
  let acc :=
    if truthy (Company.shopify_url company)
       || is_shopify_platform (Company.platform company)
    then award "ecommerce_presence" acc else acc in
  (* 5. No current RX eyewear *)
  let acc :=
    if negb (_sells_prescription_eyewear company)
    then award "no_rx_eyewear" acc else acc in
  (* 6. Decision maker found *)
  let acc :=
    match dm with
    | Some d => if nonempty (DecisionMaker.name d)
                then award "decision_maker_found" acc else acc
    | None => acc
    end in
  (* 7. Email verified *)
  let acc :=
    match dm with
    | Some d => if DecisionMaker.email_verified d
                then award "email_verified" acc else acc
    | None => acc
    end in
  let breakdown := acc.1 in
  let total_score := acc.2 in
  let qualified := threshold self <=? total_score in
  let fit_notes := _generate_fit_notes breakdown total_score qualified in
  Lead.set_qualification
    {| Qualification.score := total_score;
       Qualification.qualified := qualified;
       Qualification.fit_notes := Some fit_notes;
       Qualification.scoring_breakdown := breakdown |} lead.

(** [score_batch] *)
Definition score_batch (self : t) (leads : list Lead.t) : list Lead.t :=
  map (score self) leads.

(** [filter_qualified] *)
Definition filter_qualified (leads : list Lead.t) : list Lead.t :=
  List.filter (fun lead => Qualification.qualified (Lead.qualification lead)) leads.

End LeadScorer.

(** ** Effects: exceptions, the call log and the cache dict *)

(** The exceptions the modelled code can meet; [exn_message] is [str(e)]. *)
Inductive exn :=
| RequestError (msg : str)
| ValueError (msg : str)
| TypeError (msg : str)
| ValidationError (msg : str)
| OSError (msg : str)
| OtherError (msg : str).

Definition exn_message (e : exn) : str :=
  match e with
  | RequestError m | ValueError m | TypeError m | ValidationError m
  | OSError m | OtherError m => m
  end.

(** One entry per request sent to a remote service and per write of the
    cache file that is attempted. *)
Inductive Call :=
| HttpGet (url : str)
| ValidateEyewearStore (url : str)
| HunterDomainSearch (domain : str) (limit : Z)
| HunterEmailFinder (domain first_name last_name : str)
| HunterEmailVerifier (email : str)
| LinkedInFindCompany (name website : str) (primary_domain : option str)
| LinkedInFindEmployees (company_url : str) (max_results : Z)
| GenerateOutreach (lead_id : str)
| SaveCache.

(** The mutable state of a pipeline object: [dedup_cache._cache] and the
    log of calls made so far. *)
Record state := {
  cache : gmap str DeduplicationCache.entry;
  calls : list Call }.

Inductive res (A : Type) :=
| Ok (a : A)
| Raise (e : exn).
Arguments Ok {A} a.
Arguments Raise {A} e.

Definition M (A : Type) : Type := state → res A * state.

Definition ret {A} (a : A) : M A := λ s, (Ok a, s).

Definition bind {A B} (m : M A) (k : A → M B) : M B :=
  λ s, match m s with
       | (Ok a, s') => k a s'
       | (Raise e, s') => (Raise e, s')
       end.

Definition raise {A} (e : exn) : M A := λ s, (Raise e, s).

(** [try: body except Exception as e: handler e] *)
Definition try_except {A} (body : M A) (handler : exn → M A) : M A :=
  λ s, match body s with
       | (Ok a, s') => (Ok a, s')
       | (Raise e, s') => handler e s'
       end.

Definition call (c : Call) : M unit :=
  λ s, (Ok (), {| cache := cache s; calls := calls s ++ [c] |}).

Definition get_cache : M (gmap str DeduplicationCache.entry) :=
  λ s, (Ok (cache s), s).

Definition put_cache (c : gmap str DeduplicationCache.entry) : M unit :=
  λ s, (Ok (), {| cache := c; calls := calls s |}).

Notation "x <-- m ; k" := (bind m (λ x, k))
  (at level 20, m at level 100, k at level 200, only parsing).
Notation "' p <-- m ; k" := (bind m (λ x, match x with p => k end))
  (at level 20, p pattern, m at level 100, k at level 200, only parsing).

(** ** The environment: library functions and remote services *)

(** A parsed JSON document. *)
#[warnings="-register-all"]
Inductive Json :=
| JNull
| JBool (b : bool)
| JNum (z : Z)
| JStr (s : str)
| JArr (items : list Json)
| JObj (fields : list (str * Json)).

Record HttpResponse := {
  status_code : Z;
  text : str;
  (** [response.json()]; [None] when the body does not parse *)
  json : option Json }.

Inductive Fetch :=
| FetchError (e : exn)
| Response (r : HttpResponse).

Module StoreInfo.
Record t := {
  name : option str;
  email : option str;
  phone : option str;
  address : option str;
  description : option str;
  social_links : list (str * str);
  real_domain : option str;
  country : option str }.

Definition empty : t :=
  {| name := None; email := None; phone := None; address := None;
     description := None; social_links := []; real_domain := None;
     country := None |}.
End StoreInfo.

(** The result dict of [ProductValidator.validate_eyewear_store]. *)
Record Validation := {
  is_eyewear_store : bool;
  rejection_reason : option str }.

(** A JSON scalar that may be a string or a number, as the LinkedIn actor
    returns for employee counts and founding years; [VOther] is any other
    truthy value, with its [str()]. *)
Inductive JVal := VStr (s : str) | VInt (z : Z) | VOther (repr : str).

Definition jval_truthy (v : option JVal) : bool :=
  match v with
  | Some (VStr s) => nonempty s
  | Some (VInt z) => negb (z =? 0)
  | Some (VOther _) => true
  | None => false
  end.

(** The value stored under ["mainAddress"]: absent, a dict (of which only
    ["addressCountry"] is read) or something else. *)
Inductive MainAddress :=
| AddrMissing
| AddrDict (addressCountry : option str)
| AddrOther.

(** The dataset item returned for a LinkedIn company; one field per key the
    code reads. *)
Module LinkedInData.
Record t := {
  linkedInUrl : option str;
  numberOfEmployees : option JVal;
  employeeCount : option JVal;
  employee_count : option JVal;
  Industry : option str;
  industry : option str;
  description : option str;
  Founded : option JVal;
  foundedYear : option JVal;
  mainAddress : MainAddress;
  Headquarters : option str;
  website : option str;
  companyUrl : option str }.
End LinkedInData.

(** A dataset item of the LinkedIn employees actor.  [name = None] is a
    missing key, [Some None] a JSON null. *)
Module Employee.
Record t := {
  name : option (option str);
  title : option str;
  linkedInUrl : option str;
  location : option str }.
End Employee.

(** One element of ["emails"] in a Hunter.io domain-search answer. *)
Module HunterEmail.
Record t := {
  value : option str;
  first_name : option str;
  last_name : option str;
  position : option str;
  confidence : option Z }.
End HunterEmail.

(** The ["data"] object of a Hunter.io domain-search answer. *)
Module HunterDomain.
Record t := {
  organization : option str;
  country : option str;
  industry : option str;
  emails : list HunterEmail.t }.
End HunterDomain.

(** The fields of the storefront page that [extract_store_info] reads with
    regular expressions. *)
Module StorePage.
Record t := {
  name : option str;
  description : option str;
  email : option str;
  phone : option str;
  social_links : list (str * str);
  real_domain : option str }.
End StorePage.

Module Env.
Record t := {
  (* library functions *)
  (** [urlparse(url).netloc]; [None] when [urlparse] raises *)
  urlparse_netloc : str → option str;
  (** [urljoin(base, path)]; [None] when it raises *)
  urljoin : str → str → option str;
  (** [int(s)]; [None] when it raises [ValueError] *)
  py_int : str → option Z;
  (** [str(z)] *)
  py_str_of_int : Z → str;
  (* the web *)
  http_get : str → Fetch;
  (* regular-expression and markup extraction from a page text *)
  schema_country_of_html : str → option str;
  re_shopify_currency : str → option str;
  re_currency_meta : str → option str;
  parse_store_page : str → StorePage.t;
  parse_contact_page : str → option str * option str;
  person_of_html : str → option DecisionMaker.t;
  team_of_html : str → list DecisionMaker.t;
  (* services *)
  validate_eyewear_store : str → Validation;
  hunter_domain_search : str → Z → res HunterDomain.t;
  hunter_email_finder : str → str → str → res (option str);
  hunter_email_verifier : str → res (option str);
  linkedin_find_company : str → str → option str → option LinkedInData.t;
  linkedin_find_employees : str → Z → list Employee.t;
  generate_outreach : Lead.t → res OutreachCopy.t;
  (* the file system *)
  (** [self.cache_file.parent.mkdir(parents=True, exist_ok=True)]; [Raise]
      when it raises *)
  mkdir_cache_dir : res unit;
  (* randomness and time *)
  uuid4 : str;
  utcnow : str }.
End Env.

(** [self.client.get(url)]: the request is logged, then answered by the
    environment. *)
Definition client_get (env : Env.t) (url : str) : M HttpResponse :=
  _ <-- call (HttpGet url);
  match Env.http_get env url with
  | FetchError e => raise e
  | Response r => ret r
  end.

(** [urljoin(base, path)] *)
Definition py_urljoin (env : Env.t) (base path : str) : M str :=
  match Env.urljoin env base path with
  | Some u => ret u
  | None => raise (ValueError (lit "Invalid IPv6 URL"))
  end.

(** [url if url.startswith(("http://", "https://")) else f"https://{url}"] *)
Definition ensure_scheme (url : str) : str :=
  if startswith (lit "http://") url || startswith (lit "https://") url
  then url else lit "https://" ++ url.

(** [DeduplicationCache._save_cache]: the directory is made before the
    [try], so an error of [mkdir] leaves the function and the file is not
    written; an [IOError] of the write itself is logged and swallowed. *)
Definition _save_cache (env : Env.t) : M unit :=
  match Env.mkdir_cache_dir env with
  | Ok _ => call SaveCache
  | Raise e => raise e
  end.

(** ** [src/collectors/shopify_verifier.py] *)

Module ShopifyVerifier.

Definition CURRENCY_COUNTRY_MAP : list (str * str) :=
  map (λ p : string * string, (lit p.1, lit p.2))
    [ ("USD", "US"); ("EUR", "DE"); ("GBP", "GB"); ("CAD", "CA"); ("AUD", "AU");
      ("CHF", "CH"); ("SEK", "SE"); ("NOK", "NO"); ("DKK", "DK"); ("PLN", "PL");
      ("CZK", "CZ"); ("HUF", "HU"); ("RON", "RO"); ("BGN", "BG"); ("HRK", "HR");
      ("ISK", "IS"); ("JPY", "JP"); ("NZD", "NZ"); ("SGD", "SG"); ("HKD", "HK");
      ("MXN", "MX"); ("BRL", "BR"); ("INR", "IN"); ("ZAR", "ZA") ]%string.

Definition TLD_COUNTRY_MAP : list (str * option str) :=
  (lit ".com", None) ::
  map (λ p : string * string, (lit p.1, Some (lit p.2)))
    [ (".co.uk", "GB"); (".uk", "GB"); (".de", "DE"); (".fr", "FR");
      (".es", "ES"); (".it", "IT"); (".nl", "NL"); (".be", "BE"); (".at", "AT");
      (".ch", "CH"); (".se", "SE"); (".no", "NO"); (".dk", "DK"); (".fi", "FI");
      (".pt", "PT"); (".ie", "IE"); (".pl", "PL"); (".cz", "CZ"); (".hu", "HU");
      (".ca", "CA"); (".au", "AU"); (".nz", "NZ"); (".jp", "JP"); (".sg", "SG");
      (".hk", "HK"); (".in", "IN"); (".br", "BR"); (".mx", "MX");
      (".za", "ZA") ]%string.

(** The double quote, which the indicator literals contain. *)
Definition dquote : str := [ch 34].

Definition SHOPIFY_INDICATORS : list str :=
  [ lit "cdn.shopify.com"; lit "shopify.com/s/"; lit "Shopify.theme";
    lit "shopify-section"; lit "name=" ++ dquote ++ lit "shopify-";
    lit "window.Shopify" ].

(** The result dict of [verify]. *)
Record Verification := {
  is_shopify : bool;
  platform : Platform;
  store_url : str;
  detection_method : option str;
  error : option str }.

(** ["products" in data] on a parsed body; numbers, booleans and null raise
    [TypeError]. *)
Definition products_in (data : Json) : res bool :=
  match data with
  | JObj fields => Ok (PyDict.has_key (lit "products") fields)
  | JArr items =>
      Ok (existsb (λ j, match j with
                        | JStr s => str_eqb s (lit "products")
                        | _ => false
                        end) items)
  | JStr s => Ok (contains (lit "products") s)
  | _ => Raise (TypeError (lit "argument is not iterable"))
  end.

(** The country of a currency code found by one of the two searches of
    [detect_country_from_currency]: the entry of the table, when the code
    was found and has one. *)
Definition country_of_currency (found : option str) : option str :=
  match found with
  | Some currency =>
      let country := PyDict.get currency CURRENCY_COUNTRY_MAP in
      if truthy country then country else None
  | None => None
  end.

Section WithEnv.
Context (env : Env.t).

(** [_check_products_json] *)
Definition _check_products_json (url : str) : M bool :=
  try_except
    (products_url <-- py_urljoin env url (lit "/products.json");
     response <-- client_get env products_url;
     if status_code response =? 200 then
       try_except
         (match json response with
          | Some data =>
              match products_in data with
              | Ok b => ret b
              | Raise e => raise e
              end
          | None => raise (ValueError (lit "Expecting value"))
          end)
         (λ _ : exn, ret false)
     else ret false)
    (λ _ : exn, ret false).

(** [_check_page_source] *)
Definition _check_page_source (url : str) : M (option str) :=
  try_except
    (response <-- client_get env url;
     if negb (status_code response =? 200) then ret None else
     let html := lower (text response) in
     match List.find (λ indicator, contains (lower indicator) html)
                     SHOPIFY_INDICATORS with
     | Some indicator => ret (Some (lit "source:" ++ indicator))
     | None =>
         if contains (lit "content=" ++ dquote ++ lit "shopify" ++ dquote) html
         then ret (Some (lit "meta:shopify"))
         else ret None
     end)
    (λ _ : exn, ret None).

(** [verify].  The two handlers of the source, for [httpx.RequestError] and
    for [Exception], run the same assignment and are one handler here. *)
Definition verify (url : str) : M Verification :=
  let result := {| is_shopify := false; platform := UNKNOWN; store_url := url;
                   detection_method := None; error := None |} in
  let url := ensure_scheme url in
  let result := {| is_shopify := is_shopify result; platform := platform result;
                   store_url := url;
                   detection_method := detection_method result;
                   error := error result |} in
  try_except
    (found <-- _check_products_json url;
     if found then
       ret {| is_shopify := true; platform := SHOPIFY; store_url := url;
              detection_method := Some (lit "products.json");
              error := error result |}
     else
       method <-- _check_page_source url;
       if truthy method then
         ret {| is_shopify := true; platform := SHOPIFY; store_url := url;
                detection_method := method; error := error result |}
       else
         ret {| is_shopify := is_shopify result; platform := CUSTOM;
                store_url := url;
                detection_method := detection_method result;
                error := error result |})
    (λ e : exn,
       ret {| is_shopify := is_shopify result; platform := platform result;
              store_url := url;
              detection_method := detection_method result;
              error := Some (exn_message e) |}).

(** [verify_batch] *)
Fixpoint verify_batch (urls : list str) : M (list Verification) :=
  match urls with
  | [] => ret []
  | url :: rest =>
      result <-- verify url;
      results <-- verify_batch rest;
      ret (result :: results)
  end.

(** [detect_country_from_currency] *)
Definition detect_country_from_currency (url : str) : M (option str) :=
  try_except
    (response <-- client_get env url;
     if negb (status_code response =? 200) then ret None else
     let html := text response in
     match country_of_currency (Env.re_shopify_currency env html) with
     | Some country => ret (Some country)
     | None => ret (country_of_currency (Env.re_currency_meta env html))
     end)
    (λ _ : exn, ret None).

(** [detect_country_from_schema]; the JSON-LD walk and the [addressCountry]
    search over the page text are [Env.schema_country_of_html]. *)
Definition detect_country_from_schema (url : str) : M (option str) :=
  try_except
    (response <-- client_get env url;
     if negb (status_code response =? 200) then ret None else
     ret (Env.schema_country_of_html env (text response)))
    (λ _ : exn, ret None).

(** [detect_country_from_tld]: the first entry of the table, in its order,
    whose suffix ends the host name and whose country is set. *)
Definition detect_country_from_tld (url : str) : option str :=
  let url := ensure_scheme url in
  match Env.urlparse_netloc env url with
  | Some netloc =>
      let domain := lower netloc in
      match List.find (λ e : str * option str,
                         endswith e.1 domain && truthy e.2) TLD_COUNTRY_MAP with
      | Some e => e.2
      | None => None
      end
  | None => None
  end.

(** [detect_country] *)
Definition detect_country (url : str) : M (option str) :=
  country <-- detect_country_from_schema url;
  if truthy country then ret country else
  country <-- detect_country_from_currency url;
  if truthy country then ret country else
  let country := detect_country_from_tld url in
  if truthy country then ret country else
  ret None.

(** [extract_store_info] *)
Definition extract_store_info (url : str) : M StoreInfo.t :=
  let info := StoreInfo.empty in
  let url := ensure_scheme url in
  try_except
    (response <-- client_get env url;
     if negb (status_code response =? 200) then ret info else
     let page := Env.parse_store_page env (text response) in
     contact <--
       try_except
         (contact_url <-- py_urljoin env url (lit "/pages/contact");
          contact_response <-- client_get env contact_url;
          if status_code contact_response =? 200
          then ret (Env.parse_contact_page env (text contact_response))
          else ret (None, None))
         (λ _ : exn, ret (None, None));
     let email :=
       if truthy (StorePage.email page) then StorePage.email page
       else match contact.1 with
            | Some e => Some e
            | None => StorePage.email page
            end in
     country <-- detect_country url;
     ret {| StoreInfo.name := StorePage.name page;
            StoreInfo.email := email;
            StoreInfo.phone := StorePage.phone page;
            StoreInfo.address := contact.2;
            StoreInfo.description := StorePage.description page;
            StoreInfo.social_links := StorePage.social_links page;
            StoreInfo.real_domain := StorePage.real_domain page;
            StoreInfo.country := country |})
    (λ _ : exn, ret info).

End WithEnv.
End ShopifyVerifier.

(** [a or b] on two [Optional[str]] values. *)
Definition py_or (a b : option str) : option str := if truthy a then a else b.

(** [_extract_domain], defined alike in [LinkedInFinder] (the second
    definition of the class, which replaces the first) and in
    [LeadGenerationPipeline]. *)
Definition _extract_domain (url : str) : str :=
  let url := lower url in
  let url := remove_all (lit "http://") (remove_all (lit "https://") url) in
  let url := remove_all (lit "www.") url in
  split_first (lit "/") url.

(** ** [src/enrichment/linkedin.py] *)

Module LinkedInFinder.
Import LinkedInData.

Definition invalid_domains : list str :=
  map lit [ "myshopify.com"; "linkedin.com"; "linktr.ee"; "linktree.com";
            "facebook.com"; "instagram.com"; "twitter.com"; "x.com";
            "youtube.com"; "tiktok.com"; "bit.ly"; "goo.gl" ]%string.

Definition jval_or (a b : option JVal) : option JVal :=
  if jval_truthy a then a else b.

(** [str(v)] *)
Definition jval_str (env : Env.t) (v : JVal) : str :=
  match v with
  | VStr s => s
  | VInt z => Env.py_str_of_int env z
  | VOther repr => repr
  end.

Section WithEnv.
Context (env : Env.t).

(** [find_company]: the lookup through the website, the search engine and
    the company actor is one call of the environment. *)
Definition find_company (company_name website : str) (primary_domain : option str)
  : M (option LinkedInData.t) :=
  _ <-- call (LinkedInFindCompany company_name website primary_domain);
  ret (Env.linkedin_find_company env company_name website primary_domain).

(** The employee-count assignment of [enrich_company]; [int()] of a string
    that is no number raises. *)
Definition assign_employee_count (d : LinkedInData.t) (company : Company.t)
  : res Company.t :=
  let employee_count :=
    jval_or (numberOfEmployees d) (jval_or (employeeCount d) (employee_count d)) in
  if jval_truthy employee_count then
    match employee_count with
    | Some (VInt z) => Ok (Company.set_employee_count (Some z) company)
    | Some (VStr s) =>
        match Env.py_int env s with
        | Some z => Ok (Company.set_employee_count (Some z) company)
        | None => Raise (ValueError (lit "invalid literal for int()"))
        end
    | _ => Ok (Company.set_employee_count None company)
    end
  else Ok company.

(** The founding-year assignment, inside its own [try]. *)
Definition assign_founded_year (d : LinkedInData.t) (company : Company.t)
  : Company.t :=
  let founded := jval_or (Founded d) (foundedYear d) in
  if jval_truthy founded then
    match founded with
    | Some v =>
        match Env.py_int env (take 4 (jval_str env v)) with
        | Some y => Company.set_founded_year (Some y) company
        | None => company
        end
    | None => company
    end
  else company.

(** Lines 292-310: the country, from [mainAddress] and then from the last
    part of [Headquarters], only when the company has none. *)
Definition assign_country (d : LinkedInData.t) (company : Company.t) : Company.t :=
  if negb (truthy (Company.country company)) then
    let company :=
      match mainAddress d with
      | AddrMissing => Company.set_country None company
      | AddrDict c => Company.set_country c company
      | AddrOther => company
      end in
    if negb (truthy (Company.country company)) then
      match Headquarters d with
      | Some hq_string =>
          if nonempty hq_string && contains (lit ", ") hq_string then
            let potential_country := strip (split_last (lit ", ") hq_string) in
            if (length potential_country =? 2)%nat
            then Company.set_country (Some (upper potential_country)) company
            else company
          else company
      | None => company
      end
    else company
  else company.

(** The primary-domain assignments that end [enrich_company]. *)
Definition assign_primary_domain (d : LinkedInData.t) (company : Company.t)
  : Company.t :=
  let linkedin_website := py_or (website d) (companyUrl d) in
  let company :=
    match linkedin_website with
    | Some w =>
        if nonempty w then
          let domain := _extract_domain w in
          if nonempty domain
             && negb (existsb (λ invalid, contains invalid domain) invalid_domains)
          then Company.set_primary_domain (Some domain) company
          else company
        else company
    | None => company
    end in
  if negb (truthy (Company.primary_domain company))
     && nonempty (Company.website company) then
    let original_domain := _extract_domain (Company.website company) in
    if nonempty original_domain
       && negb (contains (lit "myshopify.com") original_domain)
    then Company.set_primary_domain (Some original_domain) company
    else company
  else company.

(** [enrich_company].  The company object is updated in place, so when the
    function raises the caller still sees the assignments made before: the
    result is the company as left behind, with the exception if any. *)
Definition enrich_company (company : Company.t) : M (Company.t * option exn) :=
  linkedin_data <-- find_company (Company.name company) (Company.website company)
                                 (Company.primary_domain company);
  match linkedin_data with
  | None => ret (company, None)
  | Some d =>
      let company := Company.set_linkedin_url (linkedInUrl d) company in
      match assign_employee_count d company with
      | Raise e => ret (company, Some e)
      | Ok company =>
          let company := Company.set_industry (py_or (Industry d) (industry d)) company in
          let company :=
            Company.set_description
              (py_or (description d) (Company.description company)) company in
          let company := assign_founded_year d company in
          let company := assign_country d company in
          let company := assign_primary_domain d company in
          ret (company, None)
      end
  end.

(** [find_employees]; it returns [[]] when the actor fails. *)
Definition find_employees (company_linkedin_url : str) (max_results : Z)
  : M (list Employee.t) :=
  _ <-- call (LinkedInFindEmployees company_linkedin_url max_results);
  ret (Env.linkedin_find_employees env company_linkedin_url max_results).

(** [DecisionMaker(name=emp.get("name", "Unknown"), ...)]; a null name
    fails the validation of the model. *)
Definition dm_of_employee (emp : Employee.t) : res DecisionMaker.t :=
  match Employee.name emp with
  | Some None => Raise (ValidationError (lit "name: Input should be a valid string"))
  | n =>
      Ok {| DecisionMaker.name :=
              match n with Some (Some s) => s | _ => lit "Unknown" end;
            DecisionMaker.title := Employee.title emp;
            DecisionMaker.linkedin_url := Employee.linkedInUrl emp;
            DecisionMaker.email := None;
            DecisionMaker.email_verified := false;
            DecisionMaker.phone := None;
            DecisionMaker.location := Employee.location emp |}
  end.

(** The loop of [find_decision_makers]. *)
Fixpoint collect_decision_makers (employees : list Employee.t)
    (decision_makers : list DecisionMaker.t) : res (list DecisionMaker.t) :=
  match employees with
  | [] => Ok decision_makers
  | emp :: rest =>
      match dm_of_employee emp with
      | Ok dm => collect_decision_makers rest (decision_makers ++ [dm])
      | Raise e => Raise e
      end
  end.

(** [find_decision_makers] *)
Definition find_decision_makers (company : Company.t) (max_results : Z)
  : M (list DecisionMaker.t) :=
  match Company.linkedin_url company with
  | Some (c :: u) =>
      employees <-- find_employees (c :: u) max_results;
      match collect_decision_makers employees [] with
      | Ok dms => ret dms
      | Raise e => raise e
      end
  | _ => ret []
  end.

End WithEnv.
End LinkedInFinder.

(** ** [src/enrichment/alternative_sources.py] *)

Module AlternativeSourceFinder.

Definition TEAM_PAGE_PATHS : list str :=
  map lit [ "/pages/about"; "/pages/about-us"; "/pages/our-story"; "/pages/team";
            "/pages/our-team"; "/pages/meet-the-team"; "/about"; "/about-us";
            "/team"; "/our-story" ]%string.

(** The deduplication loop of [find_decision_makers_from_website]:
    [seen_names] is the set of lower-cased names met so far. *)
Fixpoint unique_by_name (seen_names : gset str) (decision_makers : list DecisionMaker.t)
  : list DecisionMaker.t :=
  match decision_makers with
  | [] => []
  | dm :: rest =>
      let name_lower := lower (DecisionMaker.name dm) in
      if bool_decide (name_lower ∈ seen_names)
      then unique_by_name seen_names rest
      else dm :: unique_by_name ({[name_lower]} ∪ seen_names) rest
  end.

Section WithEnv.
Context (env : Env.t).

(** [_find_from_schema]; reading the person out of the JSON-LD markup is
    [Env.person_of_html]. *)
Definition _find_from_schema (url : str) : M (option DecisionMaker.t) :=
  try_except
    (response <-- client_get env url;
     if negb (status_code response =? 200) then ret None else
     ret (Env.person_of_html env (text response)))
    (λ _ : exn, ret None).

(** [_scrape_team_page]; the pattern matching over the page text is
    [Env.team_of_html]. *)
Definition _scrape_team_page (url : str) : M (list DecisionMaker.t) :=
  try_except
    (response <-- client_get env url;
     if negb (status_code response =? 200) then ret [] else
     ret (Env.team_of_html env (text response)))
    (λ _ : exn, ret []).

(** The loop over [TEAM_PAGE_PATHS], left as soon as three candidates are
    collected. *)
Fixpoint scan_team_pages (url : str) (paths : list str)
    (decision_makers : list DecisionMaker.t) : M (list DecisionMaker.t) :=
  match paths with
  | [] => ret decision_makers
  | path :: rest =>
      page_url <-- py_urljoin env url path;
      dms <-- _scrape_team_page page_url;
      let decision_makers := decision_makers ++ dms in
      if (3 <=? length decision_makers)%nat then ret decision_makers
      else scan_team_pages url rest decision_makers
  end.

(** [find_decision_makers_from_website] *)
Definition find_decision_makers_from_website (url : str) : M (list DecisionMaker.t) :=
  let url := ensure_scheme url in
  dm <-- _find_from_schema url;
  let decision_makers := match dm with Some d => [d] | None => [] end in
  decision_makers <-- scan_team_pages url TEAM_PAGE_PATHS decision_makers;
  let unique_dms := unique_by_name ∅ decision_makers in
  ret (take 5 unique_dms).

End WithEnv.
End AlternativeSourceFinder.

(** ** [src/enrichment/email_finder.py] *)

(** One element of [result["decision_makers"]] of [domain_search]. *)
Module HunterContact.
Record t := {
  name : str;
  email : option str;
  title : option str;
  confidence : option Z }.
End HunterContact.

(** The result dict of [domain_search]. *)
Module HunterResult.
Record t := {
  company_name : option str;
  country : option str;
  industry : option str;
  emails : list HunterEmail.t;
  decision_makers : list HunterContact.t }.

Definition empty : t :=
  {| company_name := None; country := None; industry := None; emails := [];
     decision_makers := [] |}.
End HunterResult.

Module EmailFinder.

(** [s.split()]: the maximal runs of characters that are not blank. *)
Fixpoint words_go (cur : str) (s : str) : list str :=
  match s with
  | [] => if nonempty cur then [rev cur] else []
  | c :: s' =>
      if is_space c
      then (if nonempty cur then rev cur :: words_go [] s' else words_go [] s')
      else words_go (c :: cur) s'
  end.
Definition words (s : str) : list str := words_go [] s.

Definition executive_titles : list str :=
  map lit ["ceo"; "founder"; "owner"; "director"; "president"; "chief"; "head"]%string.

(** A value formatted in an f-string: [None] prints as the word. *)
Definition fmt (o : option str) : str :=
  match o with Some s => s | None => lit "None" end.

(** The contact built for one e-mail entry whose position names an
    executive. *)
Definition contact_of_email (email_data : HunterEmail.t) : option HunterContact.t :=
  let position := lower (match HunterEmail.position email_data with
                         | Some (c :: p) => c :: p
                         | _ => []
                         end) in
  if existsb (λ title, contains title position) executive_titles then
    Some {| HunterContact.name :=
              strip (fmt (HunterEmail.first_name email_data) ++ lit " "
                     ++ fmt (HunterEmail.last_name email_data));
            HunterContact.email := HunterEmail.value email_data;
            HunterContact.title := HunterEmail.position email_data;
            HunterContact.confidence := HunterEmail.confidence email_data |}
  else None.

Section WithEnv.
Context (env : Env.t).

(** [domain_search]; a failed request leaves the initial result. *)
Definition domain_search (domain : str) (limit : Z) : M HunterResult.t :=
  _ <-- call (HunterDomainSearch domain limit);
  match Env.hunter_domain_search env domain limit with
  | Ok data =>
      ret {| HunterResult.company_name := HunterDomain.organization data;
             HunterResult.country := HunterDomain.country data;
             HunterResult.industry := HunterDomain.industry data;
             HunterResult.emails := HunterDomain.emails data;
             HunterResult.decision_makers :=
               omap contact_of_email (HunterDomain.emails data) |}
  | Raise _ => ret HunterResult.empty
  end.

(** [find_email(domain, full_name=full_name)]: the name is split into a
    first and a last name; without a first name no request is sent. *)
Definition find_email (domain full_name : str) : M (option str) :=
  let names : option (str * str) :=
    if nonempty full_name then
      match words (strip full_name) with
      | first :: second :: more => Some (first, join (lit " ") (second :: more))
      | [first] => Some (first, [])
      | [] => None
      end
    else None in
  match names with
  | Some (first_name, last_name) =>
      if nonempty first_name then
        _ <-- call (HunterEmailFinder domain first_name last_name);
        match Env.hunter_email_finder env domain first_name last_name with
        | Ok email => if truthy email then ret email else ret None
        | Raise _ => ret None
        end
      else ret None
  | None => ret None
  end.

(** [verify_email], reduced to the ["deliverable"] entry of its result. *)
Definition verify_email (email : str) : M bool :=
  _ <-- call (HunterEmailVerifier email);
  match Env.hunter_email_verifier env email with
  | Ok (Some status) => ret (str_eqb status (lit "valid"))
  | Ok None => ret false
  | Raise _ => ret false
  end.

(** [enrich_decision_maker] *)
Definition enrich_decision_maker (decision_maker : DecisionMaker.t) (domain : str)
  : M DecisionMaker.t :=
  if truthy (DecisionMaker.email decision_maker)
     && DecisionMaker.email_verified decision_maker
  then ret decision_maker
  else
    email_data <-- find_email domain (DecisionMaker.name decision_maker);
    match email_data with
    | Some email =>
        let decision_maker := DecisionMaker.set_email (Some email) decision_maker in
        deliverable <-- verify_email email;
        ret (DecisionMaker.set_email_verified deliverable decision_maker)
    | None => ret decision_maker
    end.

End WithEnv.
End EmailFinder.

(** ** [src/pipeline.py] *)

Module LeadGenerationPipeline.
Import ShopifyVerifier.

(** [_extract_company_name] *)
Definition _extract_company_name (url : str) : str :=
  let domain := _extract_domain url in
  title (split_first (lit ".") domain).

Definition is_myshopify (domain : str) : bool :=
  contains (lit "myshopify.com") domain.

(** Step 4: the company and the lead built from the verification and the
    store info. *)
Definition build_company (url : str) (segment : option Segment)
    (verification : Verification) (store_info : StoreInfo.t) : Company.t :=
  let original_domain := _extract_domain url in
  let primary_domain :=
    if truthy (StoreInfo.real_domain store_info) then StoreInfo.real_domain store_info
    else if negb (is_myshopify original_domain) then Some original_domain
    else None in
  let company_name :=
    match StoreInfo.name store_info with
    | Some (c :: n) => c :: n
    | _ => _extract_company_name url
    end in
  let company :=
    {| Company.name := company_name;
       Company.website := url;
       Company.shopify_url :=
         if is_shopify verification then Some (store_url verification) else None;
       Company.primary_domain := primary_domain;
       Company.platform := platform verification;
       Company.industry := None;
       Company.segment := segment;
       Company.country := StoreInfo.country store_info;
       Company.employee_count := None;
       Company.linkedin_url := None;
       Company.description := StoreInfo.description store_info;
       Company.founded_year := None |} in
  match PyDict.get (lit "linkedin") (StoreInfo.social_links store_info) with
  | Some (c :: l) => Company.set_linkedin_url (Some (c :: l)) company
  | _ => company
  end.

Definition new_lead (lead_id now : str) (company : Company.t) : Lead.t :=
  {| Lead.lead_id := lead_id;
     Lead.company := company;
     Lead.decision_maker := None;
     Lead.qualification := Qualification.default;
     Lead.outreach := None;
     Lead.status := NEW;
     Lead.source := Some (lit "manual");
     Lead.created_at := now;
     Lead.updated_at := now;
     Lead.notes := None |}.

(** [domain = company.primary_domain or self._extract_domain(url)] *)
Definition search_domain (url : str) (company : Company.t) : str :=
  match Company.primary_domain company with
  | Some (c :: d) => c :: d
  | _ => _extract_domain url
  end.

Definition domain_usable (domain : str) : bool :=
  nonempty domain && negb (is_myshopify domain).

(** Step 5, the assignments: name, country and industry are taken from the
    Hunter.io answer only where the company has none. *)
Definition fill_from_hunter (hunter_data : HunterResult.t) (company : Company.t)
  : Company.t :=
  let company :=
    match HunterResult.company_name hunter_data with
    | Some (c :: n) =>
        if negb (nonempty (Company.name company))
        then Company.set_name (c :: n) company else company
    | _ => company
    end in
  let company :=
    if truthy (HunterResult.country hunter_data)
       && negb (truthy (Company.country company))
    then Company.set_country (HunterResult.country hunter_data) company
    else company in
  if truthy (HunterResult.industry hunter_data)
     && negb (truthy (Company.industry company))
  then Company.set_industry (HunterResult.industry hunter_data) company
  else company.

(** The country fallback that follows step 6. *)
Definition aggregate_country (env : Env.t) (url : str) (company : Company.t)
  : Company.t :=
  if negb (truthy (Company.country company)) then
    let tld_country := detect_country_from_tld env url in
    if truthy tld_country then Company.set_country tld_country company
    else company
  else company.

(** Strategy 2, the record built from the first Hunter.io contact;
    [None > 80] raises [TypeError]. *)
Definition dm_of_hunter (dm_data : HunterContact.t) : res DecisionMaker.t :=
  match HunterContact.confidence dm_data with
  | Some confidence =>
      Ok {| DecisionMaker.name := HunterContact.name dm_data;
            DecisionMaker.title := HunterContact.title dm_data;
            DecisionMaker.linkedin_url := None;
            DecisionMaker.email := HunterContact.email dm_data;
            DecisionMaker.email_verified := 80 <? confidence;
            DecisionMaker.phone := None;
            DecisionMaker.location := None |}
  | None =>
      Raise (TypeError
               (lit "'>' not supported between instances of 'NoneType' and 'int'"))
  end.

(** Strategy 4, the placeholder record. *)
Definition store_contact (email : option str) : DecisionMaker.t :=
  {| DecisionMaker.name := lit "Store Contact";
     DecisionMaker.title := None;
     DecisionMaker.linkedin_url := None;
     DecisionMaker.email := email;
     DecisionMaker.email_verified := false;
     DecisionMaker.phone := None;
     DecisionMaker.location := None |}.

Definition no_decision_maker (lead : Lead.t) : bool :=
  match Lead.decision_maker lead with None => true | Some _ => false end.

Section WithEnv.
Context (env : Env.t).

(** Step 2 *)
Definition step2_validate (segment : option Segment) (skip_validation : bool)
    (verification : Verification) : M bool :=
  if negb skip_validation
     && match segment with Some EYEWEAR | Some SUNGLASSES => true | _ => false end
  then
    _ <-- call (ValidateEyewearStore (store_url verification));
    ret (is_eyewear_store (Env.validate_eyewear_store env (store_url verification)))
  else ret true.

(** Step 5 *)
Definition step5_hunter (domain : str) (lead : Lead.t)
  : M (Lead.t * option HunterResult.t) :=
  if domain_usable domain then
    try_except
      (hunter_data <-- EmailFinder.domain_search env domain 10;
       ret (Lead.set_company (fill_from_hunter hunter_data (Lead.company lead)) lead,
            Some hunter_data))
      (λ _ : exn, ret (lead, None))
  else ret (lead, None).

(** Step 6; an exception is logged and the company keeps what was assigned
    before it. *)
Definition step6_linkedin (lead : Lead.t) : M Lead.t :=
  r <-- LinkedInFinder.enrich_company env (Lead.company lead);
  ret (Lead.set_company r.1 lead).

(** Step 7, strategy 1 *)
Definition strategy1_linkedin (lead : Lead.t) : M Lead.t :=
  try_except
    (decision_makers <-- LinkedInFinder.find_decision_makers env (Lead.company lead) 3;
     match decision_makers with
     | dm :: _ => ret (Lead.set_decision_maker (Some dm) lead)
     | [] => ret lead
     end)
    (λ _ : exn, ret lead).

(** Step 7, strategy 2 *)
Definition strategy2_hunter (hunter_data : option HunterResult.t) (lead : Lead.t)
  : M Lead.t :=
  if no_decision_maker lead then
    match hunter_data with
    | Some h =>
        match HunterResult.decision_makers h with
        | dm_data :: _ =>
            match dm_of_hunter dm_data with
            | Ok dm => ret (Lead.set_decision_maker (Some dm) lead)
            | Raise e => raise e
            end
        | [] => ret lead
        end
    | None => ret lead
    end
  else ret lead.

(** Step 7, strategy 3 *)
Definition strategy3_website (verification : Verification) (lead : Lead.t) : M Lead.t :=
  if no_decision_maker lead then
    try_except
      (alt_dms <-- AlternativeSourceFinder.find_decision_makers_from_website env
                     (store_url verification);
       match alt_dms with
       | dm :: _ => ret (Lead.set_decision_maker (Some dm) lead)
       | [] => ret lead
       end)
      (λ _ : exn, ret lead)
  else ret lead.

(** Step 7, strategy 4 *)
Definition strategy4_store_email (store_info : StoreInfo.t) (lead : Lead.t) : Lead.t :=
  if no_decision_maker lead && truthy (StoreInfo.email store_info)
  then Lead.set_decision_maker (Some (store_contact (StoreInfo.email store_info))) lead
  else lead.

(** Step 7 *)
Definition step7_decision_makers (verification : Verification)
    (store_info : StoreInfo.t) (hunter_data : option HunterResult.t) (lead : Lead.t)
  : M Lead.t :=
  lead <-- strategy1_linkedin lead;
  lead <-- strategy2_hunter hunter_data lead;
  lead <-- strategy3_website verification lead;
  ret (strategy4_store_email store_info lead).

(** Step 8 *)
Definition step8_email (domain : str) (lead : Lead.t) : M Lead.t :=
  match Lead.decision_maker lead with
  | Some dm =>
      if truthy (DecisionMaker.email dm) && DecisionMaker.email_verified dm
      then ret lead
      else if domain_usable domain then
        try_except
          (dm <-- EmailFinder.enrich_decision_maker env dm domain;
           ret (Lead.set_decision_maker (Some dm) lead))
          (λ _ : exn, ret lead)
      else ret lead
  | None => ret lead
  end.

(** Step 10 *)
Definition step10_outreach (lead : Lead.t) : M Lead.t :=
  if is_shopify_platform (Company.platform (Lead.company lead)) then
    _ <-- call (GenerateOutreach (Lead.lead_id lead));
    match Env.generate_outreach env lead with
    | Ok copy => ret (Lead.set_outreach (Some copy) lead)
    | Raise _ => ret lead
    end
  else ret lead.

(** [self.dedup_cache.mark_processed(url, lead.lead_id)] *)
Definition mark_processed (url lead_id : str) : M unit :=
  cache <-- get_cache;
  _ <-- put_cache (DeduplicationCache.mark_processed cache url lead_id (Env.utcnow env));
  _save_cache env.

(** [process_url].  [company] and [lead.company] are one object in the
    source, so the lead alone is threaded through the steps. *)
Definition process_url (url : str) (segment : option Segment)
    (skip_validation force : bool) : M (option Lead.t) :=
  cache <-- get_cache;
  if negb force && DeduplicationCache.is_processed cache url then ret None else
  (* Step 1 *)
  verification <-- verify env url;
  if negb (is_shopify_platform (platform verification)) then ret None else
  (* Step 2 *)
  valid <-- step2_validate segment skip_validation verification;
  if negb valid then ret None else
  (* Step 3 *)
  store_info <-- extract_store_info env (store_url verification);
  (* Step 4 *)
  let lead_id := take 8 (Env.uuid4 env) in
  let company := build_company url segment verification store_info in
  let lead := new_lead lead_id (Env.utcnow env) company in
  (* Step 5 *)
  let domain := search_domain url company in
  '(lead, hunter_data) <-- step5_hunter domain lead;
  (* Step 6 *)
  lead <-- step6_linkedin lead;
  let lead := Lead.set_company (aggregate_country env url (Lead.company lead)) lead in
  (* Step 7 *)
  lead <-- step7_decision_makers verification store_info hunter_data lead;
  (* Step 8 *)
  lead <-- step8_email domain lead;
  (* Step 9 *)
  let lead := LeadScorer.score LeadScorer.new lead in
  (* Step 10 *)
  lead <-- step10_outreach lead;
  _ <-- mark_processed url (Lead.lead_id lead);
  ret (Some lead).

(** [process_urls]: a URL whose processing raises is logged and left
    out.  The identifier and the time drawn are those of the environment at
    every URL. *)
Fixpoint process_urls_from (leads : list Lead.t) (urls : list str) (force : bool)
  : M (list Lead.t) :=
  match urls with
  | [] => ret leads
  | url :: rest =>
      leads <--
        try_except
          (lead <-- process_url url None false force;
           match lead with
           | Some l => ret (leads ++ [l])
           | None => ret leads
           end)
          (λ _ : exn, ret leads);
      process_urls_from leads rest force
  end.

Definition process_urls (urls : list str) (force : bool) : M (list Lead.t) :=
  process_urls_from [] urls force.

End WithEnv.
End LeadGenerationPipeline.

(** ** [src/cache/deduplication.py], the methods of the cache object *)

Module CacheMethods.

(** [is_processed] *)
Definition is_processed (url : str) : M bool :=
  cache <-- get_cache;
  ret (DeduplicationCache.is_processed cache url).

(** [get_lead_id] *)
Definition get_lead_id (url : str) : M (option str) :=
  cache <-- get_cache;
  ret (DeduplicationCache.get_lead_id cache url).

(** [remove]: the file is written only when an entry was deleted. *)
Definition remove (env : Env.t) (url : str) : M unit :=
  cache <-- get_cache;
  if DeduplicationCache.is_processed cache url then
    _ <-- put_cache (delete (DeduplicationCache.normalize_url url) cache);
    _save_cache env
  else ret ().

(** [clear] *)
Definition clear (env : Env.t) : M unit :=
  _ <-- put_cache ∅;
  _save_cache env.

(** [get_stats()["total_domains"]] *)
Definition get_stats : M nat :=
  cache <-- get_cache;
  ret (DeduplicationCache.total_domains cache).

End CacheMethods.

(** * Notions used to state the properties *)

(** ** Shapes of strings *)

Module StrProps.

(** A string is in lower case when [lower] leaves each character alone. *)
Definition lowered (s : str) : Prop := Forall (λ c, to_lower c = c) s.

(** A string of ASCII characters. *)
Definition ascii_only (s : str) : Prop := Forall (λ c, is_ascii c = true) s.

(** A string with no blank at either end. *)
Definition trimmed (s : str) : Prop := lstrip s = s ∧ lstrip (rev s) = rev s.

(** The part of [s] before the first [c]. *)
Fixpoint before (c : ascii) (s : str) : str :=
  match s with
  | [] => []
  | a :: s' => if Ascii.eqb c a then [] else a :: before c s'
  end.

(** What every result of [normalize_url] has: lower case, no blank at
    either end, and none of the three delimiters. *)
Record normal (d : str) : Prop := {
  normal_lowered : lowered d;
  normal_trimmed : trimmed d;
  normal_slash : "/"%char ∉ d;
  normal_query : "?"%char ∉ d;
  normal_hash : "#"%char ∉ d }.

End StrProps.

(** ** The scoring criteria, as the specification lists them *)

Module ScorerSpec.
Import LeadScorer Constants.

Inductive criterion :=
| platform_shopify
| company_size_sweet_spot
| company_size_good
| target_geography
| ecommerce_presence
| no_rx_eyewear
| decision_maker_found
| email_verified.

Definition all_criteria : list criterion :=
  [ platform_shopify; company_size_sweet_spot; company_size_good;
    target_geography; ecommerce_presence; no_rx_eyewear; decision_maker_found;
    email_verified ].

(** The key of a criterion in [SCORING_WEIGHTS]. *)
Definition key (c : criterion) : string :=
  match c with
  | platform_shopify => "platform_shopify"
  | company_size_sweet_spot => "company_size_sweet_spot"
  | company_size_good => "company_size_good"
  | target_geography => "target_geography"
  | ecommerce_presence => "ecommerce_presence"
  | no_rx_eyewear => "no_rx_eyewear"
  | decision_maker_found => "decision_maker_found"
  | email_verified => "email_verified"
  end.

Definition in_range (lo hi : Z) (n : option Z) : bool :=
  match n with Some n => (lo <=? n) && (n <=? hi) | None => false end.

(** When a criterion is satisfied, in the words of the specification: the
    sweet spot is 20 to 50 employees, the acceptable size 10 to 200 outside
    the sweet spot. *)
Definition satisfied (lead : Lead.t) (c : criterion) : bool :=
  let company := Lead.company lead in
  match c with
  | platform_shopify => is_shopify_platform (Company.platform company)
  | company_size_sweet_spot => in_range 20 50 (Company.employee_count company)
  | company_size_good =>
      in_range 10 200 (Company.employee_count company)
      && negb (in_range 20 50 (Company.employee_count company))
  | target_geography =>
      match Company.country company with
      | Some code => mem (upper code) TARGET_COUNTRIES
      | None => false
      end
  | ecommerce_presence =>
      truthy (Company.shopify_url company)
      || is_shopify_platform (Company.platform company)
  | no_rx_eyewear => negb (_sells_prescription_eyewear company)
  | decision_maker_found =>
      match Lead.decision_maker lead with
      | Some dm => nonempty (DecisionMaker.name dm)
      | None => false
      end
  | email_verified =>
      match Lead.decision_maker lead with
      | Some dm => DecisionMaker.email_verified dm
      | None => false
      end
  end.

(** The criteria awarded to a lead: none for an excluded company, the
    satisfied ones otherwise. *)
Definition awarded (self : LeadScorer.t) (lead : Lead.t) : list criterion :=
  if _is_excluded self (Company.name (Lead.company lead)) then []
  else List.filter (satisfied lead) all_criteria.

Definition sum_weights (cs : list criterion) : Z :=
  foldr (λ c acc, weight (lit (key c)) + acc) 0 cs.

(** The sum of all the configured weights. *)
Definition total_weight : Z := foldr (λ kv acc, kv.2 + acc) 0 SCORING_WEIGHTS.

(** The accumulation of [score] over the truth values of the criteria. *)
Definition tally (f : criterion → bool) : list (str * bval) * Z :=
  foldl (λ acc c, if f c then award (key c) acc else acc) ([], 0) all_criteria.

(** The accumulation of [score] as the source runs it: the statements of
    [score] between the exclusion test and the threshold test. *)
Definition score_acc (lead : Lead.t) : list (str * bval) * Z :=
  let company := Lead.company lead in
  let dm := Lead.decision_maker lead in
  let acc : list (str * bval) * Z := ([], 0) in
  let acc :=
    if is_shopify_platform (Company.platform company)
    then award "platform_shopify" acc else acc in
  let acc :=
    match Company.employee_count company with
    | Some n =>
        if negb (n =? 0) then
          if (COMPANY_SIZE_SWEET_SPOT_MIN <=? n) && (n <=? COMPANY_SIZE_SWEET_SPOT_MAX)
          then award "company_size_sweet_spot" acc
          else if (COMPANY_SIZE_MIN <=? n) && (n <=? COMPANY_SIZE_MAX)
          then award "company_size_good" acc
          else acc
        else acc
    | None => acc
    end in
  let acc :=
    match Company.country company with
    | Some (c :: cs) =>
        if mem (upper (c :: cs)) TARGET_COUNTRIES
        then award "target_geography" acc else acc
    | _ => acc
    end in
  let acc :=
    if truthy (Company.shopify_url company)
       || is_shopify_platform (Company.platform company)
    then award "ecommerce_presence" acc else acc in
  let acc :=
    if negb (_sells_prescription_eyewear company)
    then award "no_rx_eyewear" acc else acc in
  let acc :=
    match dm with
    | Some d => if nonempty (DecisionMaker.name d)
                then award "decision_maker_found" acc else acc
    | None => acc
    end in
  match dm with
  | Some d => if DecisionMaker.email_verified d
              then award "email_verified" acc else acc
  | None => acc
  end.

End ScorerSpec.

(** ** Properties of computations *)

Module EffProps.

(** A computation that leaves the cache dict alone, whatever its outcome. *)
Definition keeps_cache {A} (m : M A) : Prop :=
  ∀ st r st', m st = (r, st') → cache st' = cache st.

(** A computation that always returns. *)
Definition returns {A} (m : M A) : Prop :=
  ∀ st, ∃ a st', m st = (Ok a, st').

(** What a computation guarantees of the value it returns. *)
Definition ensures {A} (m : M A) (Q : A → Prop) : Prop :=
  ∀ st a st', m st = (Ok a, st') → Q a.

(** [st] with one more call logged. *)
Definition logged (st : state) (c : Call) : state :=
  {| cache := cache st; calls := calls st ++ [c] |}.

End EffProps.

(** ** The sources of the country cascade, as values of the environment *)

Module CountrySources.
Import ShopifyVerifier LeadGenerationPipeline.

(** The first truthy value of a list of candidates. *)
Definition first_truthy (xs : list (option str)) : option str :=
  match List.find truthy xs with
  | Some x => x
  | None => None
  end.

(** The text of a page that answers with status 200. *)
Definition page_text (env : Env.t) (url : str) : option str :=
  match Env.http_get env url with
  | Response r => if status_code r =? 200 then Some (text r) else None
  | FetchError _ => None
  end.

(** Structured markup on the storefront page. *)
Definition schema_source (env : Env.t) (url : str) : option str :=
  match page_text env url with
  | Some html => Env.schema_country_of_html env html
  | None => None
  end.

(** The currency-configuration hint on the page. *)
Definition currency_source (env : Env.t) (url : str) : option str :=
  match page_text env url with
  | Some html =>
      match country_of_currency (Env.re_shopify_currency env html) with
      | Some country => Some country
      | None => country_of_currency (Env.re_currency_meta env html)
      end
  | None => None
  end.

(** The country the store page yields: nothing when the page is not
    fetched, else markup, currency and the suffix of the host in turn. *)
Definition store_country (env : Env.t) (url : str) : option str :=
  match page_text env url with
  | Some _ =>
      first_truthy [ schema_source env url; currency_source env url;
                     detect_country_from_tld env url ]
  | None => None
  end.

(** The country of the contact-verification domain search, which runs only
    for a usable domain. *)
Definition hunter_source (env : Env.t) (domain : str) : option str :=
  if domain_usable domain then
    match Env.hunter_domain_search env domain 10 with
    | Ok data => HunterDomain.country data
    | Raise _ => None
    end
  else None.

(** The registered address of the professional network: the main address,
    then the two-letter end of the headquarters line. *)
Definition linkedin_country (d : LinkedInData.t) : option str :=
  let main :=
    match LinkedInData.mainAddress d with
    | AddrDict c => c
    | _ => None
    end in
  if truthy main then main else
  match LinkedInData.Headquarters d with
  | Some hq =>
      if nonempty hq && contains (lit ", ") hq then
        let potential := strip (split_last (lit ", ") hq) in
        if (length potential =? 2)%nat then Some (upper potential) else None
      else None
  | None => None
  end.

(** Lines 292-310 of [enrich_company] as a function of the country alone. *)
Definition country_update (d : LinkedInData.t) (country : option str) : option str :=
  if truthy country then country else
  let country1 :=
    match LinkedInData.mainAddress d with
    | AddrMissing => None
    | AddrDict c => c
    | AddrOther => country
    end in
  if truthy country1 then country1 else
  match LinkedInData.Headquarters d with
  | Some hq =>
      if nonempty hq && contains (lit ", ") hq then
        let potential := strip (split_last (lit ", ") hq) in
        if (length potential =? 2)%nat then Some (upper potential) else country1
      else country1
  | None => country1
  end.

(** The LinkedIn record whose country lines are reached by
    [enrich_company]: the company found, unless the employee count stops
    the function before. *)
Definition country_lines_reached (env : Env.t) (company : Company.t)
  : option LinkedInData.t :=
  match Env.linkedin_find_company env (Company.name company)
          (Company.website company) (Company.primary_domain company) with
  | Some d =>
      match LinkedInFinder.assign_employee_count env d
              (Company.set_linkedin_url (LinkedInData.linkedInUrl d) company) with
      | Ok _ => Some d
      | Raise _ => None
      end
  | None => None
  end.

(** A run of [process_url] as far as step 6: the cache check lets the URL
    through, step 1 finds a Shopify store, step 2 accepts it, step 3 reads
    the store page.  [c0] is the company built in step 4, [c1] the company
    of the lead that step 5 returns for the lead built on [c0], [c2] the
    company of the lead that step 6 returns for that one; [s] is the state
    after step 6. *)
Inductive run_to_step6 (env : Env.t) (url : str) (segment : option Segment)
    (skip_validation force : bool) (st : state)
  : Company.t → Company.t → Company.t → state → Prop :=
| Run_to_step6 v s1 s2 info s3 l1 hunter_data s4 l2 s5 :
    negb force && DeduplicationCache.is_processed (cache st) url = false →
    verify env url st = (Ok v, s1) →
    is_shopify_platform (platform v) = true →
    step2_validate env segment skip_validation v s1 = (Ok true, s2) →
    extract_store_info env (store_url v) s2 = (Ok info, s3) →
    step5_hunter env (search_domain url (build_company url segment v info))
      (new_lead (take 8 (Env.uuid4 env)) (Env.utcnow env)
         (build_company url segment v info)) s3
    = (Ok (l1, hunter_data), s4) →
    step6_linkedin env l1 s4 = (Ok l2, s5) →
    run_to_step6 env url segment skip_validation force st
      (build_company url segment v info) (Lead.company l1) (Lead.company l2) s5.

End CountrySources.

(** ** The decision-maker cascade *)

Module CascadeSpec.

(** The name a candidate is compared by. *)
Definition normalized_name (dm : DecisionMaker.t) : str := lower (DecisionMaker.name dm).

(** The name given to the record built for an employee. *)
Definition employee_name (emp : Employee.t) : str :=
  match Employee.name emp with
  | Some (Some s) => s
  | _ => lit "Unknown"
  end.

(** The same lead up to the fields the later steps assign. *)
Definition same_company (lead lead' : Lead.t) : Prop :=
  Lead.company lead' = Lead.company lead ∧ Lead.lead_id lead' = Lead.lead_id lead.

End CascadeSpec.

(** ** Concrete worlds and inputs *)

Module Examples.

(** A [urlparse] for plain URLs: the host is what stands between the
    scheme and the first delimiter. *)
Definition simple_netloc (url : str) : option str :=
  let rest :=
    if startswith (lit "https://") url then drop 8 url
    else if startswith (lit "http://") url then drop 7 url
    else [] in
  Some (split_first (lit "#") (split_first (lit "?") (split_first (lit "/") rest))).

Definition page_ok (body : string) : Fetch :=
  Response {| status_code := 200; text := lit body; json := None |}.

Definition no_store_page : StorePage.t :=
  {| StorePage.name := None; StorePage.description := None;
     StorePage.email := None; StorePage.phone := None;
     StorePage.social_links := []; StorePage.real_domain := None |}.

(** A world in which no host answers and no service knows anything. *)
Definition env_down : Env.t :=
  {| Env.urlparse_netloc := simple_netloc;
     Env.urljoin := λ base path, Some (base ++ path);
     Env.py_int := λ _, None;
     Env.py_str_of_int := λ _, [];
     Env.http_get := λ _, FetchError (RequestError (lit "connection refused"));
     Env.schema_country_of_html := λ _, None;
     Env.re_shopify_currency := λ _, None;
     Env.re_currency_meta := λ _, None;
     Env.parse_store_page := λ _, no_store_page;
     Env.parse_contact_page := λ _, (None, None);
     Env.person_of_html := λ _, None;
     Env.team_of_html := λ _, [];
     Env.validate_eyewear_store := λ _,
       {| is_eyewear_store := true; rejection_reason := None |};
     Env.hunter_domain_search := λ _ _, Raise (OtherError (lit "401"));
     Env.hunter_email_finder := λ _ _ _, Ok None;
     Env.hunter_email_verifier := λ _, Ok None;
     Env.linkedin_find_company := λ _ _ _, None;
     Env.linkedin_find_employees := λ _ _, [];
     Env.generate_outreach := λ _, Raise (OtherError (lit "no key"));
     Env.mkdir_cache_dir := Ok ();
     Env.uuid4 := lit "0f8fad5b-d9cb-469f-a165-70867728950e";
     Env.utcnow := lit "2024-01-01T00:00:00" |}.

(** The LinkedIn record of a company registered in the United States. *)
Definition linkedin_us : LinkedInData.t :=
  {| LinkedInData.linkedInUrl := Some (lit "https://www.linkedin.com/company/shop");
     LinkedInData.numberOfEmployees := None;
     LinkedInData.employeeCount := None;
     LinkedInData.employee_count := None;
     LinkedInData.Industry := None; LinkedInData.industry := None;
     LinkedInData.description := None;
     LinkedInData.Founded := None; LinkedInData.foundedYear := None;
     LinkedInData.mainAddress := AddrDict (Some (lit "US"));
     LinkedInData.Headquarters := None;
     LinkedInData.website := None; LinkedInData.companyUrl := None |}.

Definition ann : Employee.t :=
  {| Employee.name := Some (Some (lit "Ann Lee"));
     Employee.title := Some (lit "CEO");
     Employee.linkedInUrl := None;
     Employee.location := None |}.

(** A world with two Shopify storefronts, [shop.de] and [shop.com], whose
    pages carry neither address markup nor a currency; the company is on
    LinkedIn with a United States address, and the employee search lists
    the same person twice. *)
Definition env_shop : Env.t :=
  {| Env.urlparse_netloc := simple_netloc;
     Env.urljoin := λ base path, Some (base ++ path);
     Env.py_int := λ _, None;
     Env.py_str_of_int := λ _, [];
     Env.http_get := λ url,
       if mem url [lit "https://shop.de"; lit "https://shop.com"]
       then page_ok "<html><script>window.Shopify = {};</script></html>"
       else FetchError (RequestError (lit "not found"));
     Env.schema_country_of_html := λ _, None;
     Env.re_shopify_currency := λ _, None;
     Env.re_currency_meta := λ _, None;
     Env.parse_store_page := λ _, no_store_page;
     Env.parse_contact_page := λ _, (None, None);
     Env.person_of_html := λ _, None;
     Env.team_of_html := λ _, [];
     Env.validate_eyewear_store := λ _,
       {| is_eyewear_store := true; rejection_reason := None |};
     Env.hunter_domain_search := λ _ _, Raise (OtherError (lit "401"));
     Env.hunter_email_finder := λ _ _ _, Ok None;
     Env.hunter_email_verifier := λ _, Ok None;
     Env.linkedin_find_company := λ _ _ _, Some linkedin_us;
     Env.linkedin_find_employees := λ _ _, [ann; ann];
     Env.generate_outreach := λ _, Raise (OtherError (lit "no key"));
     Env.mkdir_cache_dir := Ok ();
     Env.uuid4 := lit "0f8fad5b-d9cb-469f-a165-70867728950e";
     Env.utcnow := lit "2024-01-01T00:00:00" |}.

Definition st0 : state := {| cache := ∅; calls := [] |}.

Definition company_of (name : string) (platform : Platform) (country : option str)
    (employee_count : option Z) (linkedin_url : option str) : Company.t :=
  {| Company.name := lit name;
     Company.website := lit "shop.com";
     Company.shopify_url := None;
     Company.primary_domain := None;
     Company.platform := platform;
     Company.industry := None;
     Company.segment := None;
     Company.country := country;
     Company.employee_count := employee_count;
     Company.linkedin_url := linkedin_url;
     Company.description := None;
     Company.founded_year := None |}.

Definition lead_of (company : Company.t) (dm : option DecisionMaker.t) : Lead.t :=
  {| Lead.lead_id := lit "0f8fad5b";
     Lead.company := company;
     Lead.decision_maker := dm;
     Lead.qualification := Qualification.default;
     Lead.outreach := None;
     Lead.status := NEW;
     Lead.source := Some (lit "manual");
     Lead.created_at := lit "2024-01-01T00:00:00";
     Lead.updated_at := lit "2024-01-01T00:00:00";
     Lead.notes := None |}.

Definition pat : DecisionMaker.t :=
  {| DecisionMaker.name := lit "Pat Doe";
     DecisionMaker.title := Some (lit "Owner");
     DecisionMaker.linkedin_url := None;
     DecisionMaker.email := None;
     DecisionMaker.email_verified := false;
     DecisionMaker.phone := None;
     DecisionMaker.location := None |}.

(** A Shopify store of an excluded company, with every other signal
    positive. *)
Definition lead_excluded : Lead.t :=
  lead_of (company_of "Zenni Optical Outlet" SHOPIFY (Some (lit "US")) (Some 30) None)
          (Some (DecisionMaker.set_email_verified true pat)).

(** A lead that scores 15 + 15 + 10 + 10 = 50 points: target country, no
    prescription eyewear, 100 employees, a decision maker. *)
Definition lead_fifty : Lead.t :=
  lead_of (company_of "Acme Frames" CUSTOM (Some (lit "us")) (Some 100) None) (Some pat).

(** A company with a LinkedIn page. *)
Definition company_on_linkedin : Company.t :=
  company_of "Shop" SHOPIFY None None
    (Some (lit "https://www.linkedin.com/company/shop")).

(** A Hunter.io answer with one executive contact of confidence 95. *)
Definition hunter_ann : HunterResult.t :=
  {| HunterResult.company_name := None;
     HunterResult.country := None;
     HunterResult.industry := None;
     HunterResult.emails := [];
     HunterResult.decision_makers :=
       [ {| HunterContact.name := lit "Ann Lee";
            HunterContact.email := Some (lit "ann@shop.com");
            HunterContact.title := Some (lit "CEO");
            HunterContact.confidence := Some 95 |} ] |}.

Definition verification_shop : ShopifyVerifier.Verification :=
  {| ShopifyVerifier.is_shopify := true;
     ShopifyVerifier.platform := SHOPIFY;
     ShopifyVerifier.store_url := lit "https://shop.com";
     ShopifyVerifier.detection_method := Some (lit "products.json");
     ShopifyVerifier.error := None |}.

End Examples.

(** ** Notions used to state the further properties *)

(** *** The stages of [normalize_url] *)

Module NormalizeSpec.

(** A string of blanks only. *)
Definition blank (s : str) : bool := forallb is_space s.

(** The blanks a string starts with, and those it ends with. *)
Fixpoint leading (s : str) : str :=
  match s with
  | [] => []
  | c :: s' => if is_space c then c :: leading s' else []
  end.

Definition trailing (s : str) : str := rev (leading (rev s)).

(** The three removals of [normalize_url]. *)
Definition removals (y : str) : str :=
  remove_all (lit "www.") (remove_all (lit "http://") (remove_all (lit "https://") y)).

(** The three cuts of [normalize_url]. *)
Definition cut (y : str) : str :=
  StrProps.before "#" (StrProps.before "?" (StrProps.before "/" y)).

(** [normalize_url] after the lower-casing and the first trim. *)
Definition core (y : str) : str := strip (cut (removals y)).

End NormalizeSpec.

(** *** Runs of the pipeline *)

Module PipelineSpec.

(** The fields of a company that tell which store it is; the enrichment
    steps leave them alone. *)
Definition same_store (c c' : Company.t) : Prop :=
  Company.website c' = Company.website c
  ∧ Company.platform c' = Company.platform c
  ∧ Company.shopify_url c' = Company.shopify_url c
  ∧ Company.segment c' = Company.segment c.

(** The [TypeError] that [None > 80] raises. *)
Definition none_compared : exn :=
  TypeError (lit "'>' not supported between instances of 'NoneType' and 'int'").

(** What [process_url] has produced when it returns a lead. *)
Record delivered (env : Env.t) (url : str) (segment : option Segment)
    (st st' : state) (lead : Lead.t) : Prop := {
  delivered_cache :
    cache st' = DeduplicationCache.mark_processed (cache st) url (Lead.lead_id lead)
                  (Env.utcnow env);
  delivered_saved : ∃ cs, calls st' = cs ++ [SaveCache];
  delivered_id : Lead.lead_id lead = take 8 (Env.uuid4 env);
  delivered_website : Company.website (Lead.company lead) = url;
  delivered_platform : Company.platform (Lead.company lead) = SHOPIFY;
  delivered_shopify_url :
    Company.shopify_url (Lead.company lead) = Some (ensure_scheme url);
  delivered_segment : Company.segment (Lead.company lead) = segment;
  delivered_scored : LeadScorer.score LeadScorer.new lead = lead }.

(** What [process_url] leaves behind when the directory of the cache file
    cannot be made: the entry of the lead is in the dict, and the exception
    is the one of [mkdir]. *)
Definition unsaved (env : Env.t) (url : str) (st st' : state) (e : exn) : Prop :=
  Env.mkdir_cache_dir env = Raise e
  ∧ cache st' = DeduplicationCache.mark_processed (cache st) url
                  (take 8 (Env.uuid4 env)) (Env.utcnow env).

(** What [process_urls] keeps true of the leads collected and of the
    cache. *)
Definition batch_ok (urls : list str) (st st' : state) (found : list Lead.t) : Prop :=
  (length found ≤ length urls)%nat
  ∧ (∀ u, DeduplicationCache.is_processed (cache st) u = true →
          DeduplicationCache.is_processed (cache st') u = true)
  ∧ Forall (λ l, Company.website (Lead.company l) ∈ urls
                 ∧ Company.platform (Lead.company l) = SHOPIFY
                 ∧ DeduplicationCache.is_processed (cache st')
                     (Company.website (Lead.company l)) = true) found.

End PipelineSpec.

(** *** The calls of a run *)

Module CallSpec.

(** A computation all of whose calls satisfy [P]. *)
Definition logs_only (P : Call → Prop) {A} (m : M A) : Prop :=
  ∀ st r st', m st = (r, st') → ∃ cs, calls st' = calls st ++ cs ∧ Forall P cs.

(** The guards under which [process_url] calls the services: the product
    validation only for the eyewear and sunglasses segments and when it is
    not skipped; Hunter.io only for a non-empty domain without
    [myshopify.com], with the limit 10 for the domain search; the LinkedIn
    employee search with at most three results. *)
Definition call_allowed (segment : option Segment) (skip_validation : bool)
    (c : Call) : Prop :=
  match c with
  | ValidateEyewearStore _ =>
      skip_validation = false ∧ (segment = Some EYEWEAR ∨ segment = Some SUNGLASSES)
  | HunterDomainSearch domain limit =>
      nonempty domain = true ∧ contains (lit "myshopify.com") domain = false
      ∧ limit = 10
  | HunterEmailFinder domain _ _ =>
      nonempty domain = true ∧ contains (lit "myshopify.com") domain = false
  | LinkedInFindEmployees _ max_results => max_results = 3
  | _ => True
  end.

End CallSpec.

(** *** The breakdown of a score *)

Module BreakdownSpec.
Import LeadScorer ScorerSpec.

(** The entry of the breakdown written for an awarded criterion. *)
Definition breakdown_entry (c : criterion) : str * bval :=
  (lit (key c), BInt (weight (lit (key c)))).

(** The leads that [filter_qualified] keeps after scoring, told from the
    criteria: not excluded, and awarded weights that reach the threshold. *)
Definition qualifies (self : LeadScorer.t) (lead : Lead.t) : bool :=
  negb (_is_excluded self (Company.name (Lead.company lead)))
  && (threshold self <=? sum_weights (awarded self lead)).

End BreakdownSpec.

(** *** Results of the verifier *)

Module VerifierSpec.
Import ShopifyVerifier.

(** A step that sends at most [n] requests, all of them page fetches, and
    touches nothing else. *)
Definition fetches_at_most (n : nat) (st st' : state) : Prop :=
  cache st' = cache st
  ∧ ∃ urls, calls st' = calls st ++ map HttpGet urls ∧ (length urls ≤ n)%nat.

(** The two shapes of a result of [verify]. *)
Definition consistent (v : Verification) : Prop :=
  (platform v = SHOPIFY ∧ is_shopify v = true ∧ truthy (detection_method v) = true)
  ∨ (platform v = CUSTOM ∧ is_shopify v = false ∧ detection_method v = None).

End VerifierSpec.

(** *** Enrichment *)

Module EnrichSpec.

(** The fields of a decision maker that the e-mail step leaves alone. *)
Definition same_person (d d' : DecisionMaker.t) : Prop :=
  DecisionMaker.name d' = DecisionMaker.name d
  ∧ DecisionMaker.title d' = DecisionMaker.title d
  ∧ DecisionMaker.linkedin_url d' = DecisionMaker.linkedin_url d
  ∧ DecisionMaker.phone d' = DecisionMaker.phone d
  ∧ DecisionMaker.location d' = DecisionMaker.location d.

(** The employee count that [enrich_company] reads. *)
Definition employee_count_of (d : LinkedInData.t) : option JVal :=
  LinkedInFinder.jval_or (LinkedInData.numberOfEmployees d)
    (LinkedInFinder.jval_or (LinkedInData.employeeCount d)
       (LinkedInData.employee_count d)).

End EnrichSpec.

(** *** More worlds *)

Module MoreExamples.
Import Examples.



(** A LinkedIn record whose employee count is a range, as the site prints
    it. *)
Definition linkedin_range : LinkedInData.t :=
  {| LinkedInData.linkedInUrl := Some (lit "https://www.linkedin.com/company/shop");
     LinkedInData.numberOfEmployees := Some (VStr (lit "11-50"));
     LinkedInData.employeeCount := None;
     LinkedInData.employee_count := None;
     LinkedInData.Industry := Some (lit "Retail"); LinkedInData.industry := None;
     LinkedInData.description := None;
     LinkedInData.Founded := None; LinkedInData.foundedYear := None;
     LinkedInData.mainAddress := AddrDict (Some (lit "US"));
     LinkedInData.Headquarters := None;
     LinkedInData.website := Some (lit "https://www.shop.com");
     LinkedInData.companyUrl := None |}.

(** [env_down] with that record on LinkedIn. *)
Definition env_range : Env.t :=
  {| Env.urlparse_netloc := simple_netloc;
     Env.urljoin := λ base path, Some (base ++ path);
     Env.py_int := λ _, None;
     Env.py_str_of_int := λ _, [];
     Env.http_get := λ _, FetchError (RequestError (lit "connection refused"));
     Env.schema_country_of_html := λ _, None;
     Env.re_shopify_currency := λ _, None;
     Env.re_currency_meta := λ _, None;
     Env.parse_store_page := λ _, no_store_page;
     Env.parse_contact_page := λ _, (None, None);
     Env.person_of_html := λ _, None;
     Env.team_of_html := λ _, [];
     Env.validate_eyewear_store := λ _,
       {| is_eyewear_store := true; rejection_reason := None |};
     Env.hunter_domain_search := λ _ _, Raise (OtherError (lit "401"));
     Env.hunter_email_finder := λ _ _ _, Ok None;
     Env.hunter_email_verifier := λ _, Ok None;
     Env.linkedin_find_company := λ _ _ _, Some linkedin_range;
     Env.linkedin_find_employees := λ _ _, [];
     Env.generate_outreach := λ _, Raise (OtherError (lit "no key"));
     Env.mkdir_cache_dir := Ok ();
     Env.uuid4 := lit "0f8fad5b-d9cb-469f-a165-70867728950e";
     Env.utcnow := lit "2024-01-01T00:00:00" |}.

(** The answer of a products endpoint that lists no product. *)
Definition products_page : HttpResponse :=
  {| status_code := 200; text := lit "{}";
     json := Some (JObj [(lit "products", JArr [])]) |}.

(** A world in which only the products endpoint of [shop.com] answers. *)
Definition env_json : Env.t :=
  {| Env.urlparse_netloc := simple_netloc;
     Env.urljoin := λ base path, Some (base ++ path);
     Env.py_int := λ _, None;
     Env.py_str_of_int := λ _, [];
     Env.http_get := λ url,
       if str_eqb url (lit "https://shop.com/products.json")
       then Response products_page
       else FetchError (RequestError (lit "not found"));
     Env.schema_country_of_html := λ _, None;
     Env.re_shopify_currency := λ _, None;
     Env.re_currency_meta := λ _, None;
     Env.parse_store_page := λ _, no_store_page;
     Env.parse_contact_page := λ _, (None, None);
     Env.person_of_html := λ _, None;
     Env.team_of_html := λ _, [];
     Env.validate_eyewear_store := λ _,
       {| is_eyewear_store := true; rejection_reason := None |};
     Env.hunter_domain_search := λ _ _, Raise (OtherError (lit "401"));
     Env.hunter_email_finder := λ _ _ _, Ok None;
     Env.hunter_email_verifier := λ _, Ok None;
     Env.linkedin_find_company := λ _ _ _, None;
     Env.linkedin_find_employees := λ _ _, [];
     Env.generate_outreach := λ _, Raise (OtherError (lit "no key"));
     Env.mkdir_cache_dir := Ok ();
     Env.uuid4 := lit "0f8fad5b-d9cb-469f-a165-70867728950e";
     Env.utcnow := lit "2024-01-01T00:00:00" |}.

(** The storefronts of [env_shop], whose pages name [pat] in their
    schema.org markup. *)
Definition env_person : Env.t :=
  {| Env.urlparse_netloc := simple_netloc;
     Env.urljoin := λ base path, Some (base ++ path);
     Env.py_int := λ _, None;
     Env.py_str_of_int := λ _, [];
     Env.http_get := Env.http_get env_shop;
     Env.schema_country_of_html := λ _, None;
     Env.re_shopify_currency := λ _, None;
     Env.re_currency_meta := λ _, None;
     Env.parse_store_page := λ _, no_store_page;
     Env.parse_contact_page := λ _, (None, None);
     Env.person_of_html := λ _, Some pat;
     Env.team_of_html := λ _, [];
     Env.validate_eyewear_store := λ _,
       {| is_eyewear_store := true; rejection_reason := None |};
     Env.hunter_domain_search := λ _ _, Raise (OtherError (lit "401"));
     Env.hunter_email_finder := λ _ _ _, Ok None;
     Env.hunter_email_verifier := λ _, Ok None;
     Env.linkedin_find_company := λ _ _ _, None;
     Env.linkedin_find_employees := λ _ _, [];
     Env.generate_outreach := λ _, Raise (OtherError (lit "no key"));
     Env.mkdir_cache_dir := Ok ();
     Env.uuid4 := lit "0f8fad5b-d9cb-469f-a165-70867728950e";
     Env.utcnow := lit "2024-01-01T00:00:00" |}.


End MoreExamples.

(** * Lemmas *)

Module PyStrFacts.
Import StrProps.

Lemma to_lower_idem c : to_lower (to_lower c) = to_lower c.
Proof. destruct c as [[] [] [] [] [] [] [] []]; reflexivity. Qed.

Lemma lower_idem s : lower (lower s) = lower s.
Proof.
  unfold lower. rewrite map_map. apply map_ext. intros; apply to_lower_idem.
Qed.

Lemma lower_lowered s : lowered (lower s).
Proof.
  unfold lowered, lower. apply Forall_forall. intros c Hc.
  apply list_elem_of_fmap in Hc as (a & -> & _). apply to_lower_idem.
Qed.

Lemma lowered_fixed s : lowered s → lower s = s.
Proof.
  induction 1 as [|c s Hc _ IH]; [done|]. unfold lower in *; simpl. by rewrite Hc, IH.
Qed.

Section Preserve.
Context (P : ascii → Prop).

Lemma lstrip_Forall s : Forall P s → Forall P (lstrip s).
Proof.
  induction 1 as [|c s Hc Hs IH]; simpl; [constructor|].
  destruct (is_space c); [done | by constructor].
Qed.

Lemma rstrip_Forall s : Forall P s → Forall P (rstrip s).
Proof.
  intros H. unfold rstrip. apply Forall_rev, lstrip_Forall, Forall_rev, H.
Qed.

Lemma strip_Forall s : Forall P s → Forall P (strip s).
Proof. intros H. by apply rstrip_Forall, lstrip_Forall. Qed.

Lemma replace_go_Forall old s : ∀ k, Forall P s → Forall P (replace_go old k s).
Proof.
  induction s as [|c s IH]; intros k H; [done|].
  apply Forall_cons in H as [Hc Hs]. simpl.
  destruct k; [|by apply IH].
  destruct (startswith old (c :: s)); [by apply IH|].
  constructor; [done | by apply IH].
Qed.

Lemma remove_all_Forall old s : Forall P s → Forall P (remove_all old s).
Proof. apply replace_go_Forall. Qed.

End Preserve.

Lemma split_go_cons sep k s : ∃ p ps, split_go sep k s = p :: ps.
Proof.
  revert k. induction s as [|a s IH]; intros k; simpl; [eauto|].
  destruct k; [|apply IH].
  destruct (startswith sep (a :: s)); [eauto|].
  destruct (IH 0%nat) as (p & ps & ->). eauto.
Qed.

Lemma split_first_single c s : split_first [c] s = before c s.
Proof.
  unfold split_first, split.
  induction s as [|a s IH]; [done|]. simpl.
  destruct (Ascii.eqb c a); simpl; [done|].
  destruct (split_go_cons [c] 0 s) as (p & ps & E).
  rewrite E in *. simpl in *. by rewrite IH.
Qed.

Lemma before_Forall (P : ascii → Prop) c s : Forall P s → Forall P (before c s).
Proof.
  induction 1 as [|a s Ha Hs IH]; simpl; [constructor|].
  destruct (Ascii.eqb c a); by constructor.
Qed.

Lemma before_absent c s : c ∉ before c s.
Proof.
  induction s as [|a s IH]; simpl; [apply not_elem_of_nil|].
  destruct (Ascii.eqb c a) eqn:E; [apply not_elem_of_nil|].
  apply not_elem_of_cons. split; [|done].
  intros ->. by rewrite Ascii.eqb_refl in E.
Qed.

Lemma before_id c s : c ∉ s → before c s = s.
Proof.
  induction s as [|a s IH]; [done|]. intros H.
  apply not_elem_of_cons in H as [Hne Hs]. simpl.
  destruct (Ascii.eqb c a) eqn:E; [by apply Ascii.eqb_eq in E|].
  by rewrite IH.
Qed.

Lemma before_length c s : (length (before c s) ≤ length s)%nat.
Proof.
  induction s as [|a s IH]; simpl; [lia|].
  destruct (Ascii.eqb c a); simpl; lia.
Qed.

Lemma startswith_prefix p s : startswith p s = true → ∃ r, s = p ++ r.
Proof.
  revert s. induction p as [|a p IH]; intros s H; [by exists s|].
  destruct s as [|b s]; [done|]. simpl in H.
  apply andb_true_iff in H as [Hab Hps]. apply Ascii.eqb_eq in Hab as ->.
  destruct (IH _ Hps) as [r ->]. by exists r.
Qed.

Lemma prefix_startswith p r : startswith p (p ++ r) = true.
Proof.
  induction p as [|a p IH]; [done|]. simpl. by rewrite Ascii.eqb_refl, IH.
Qed.

(** [contains] is the search for an occurrence. *)
Lemma contains_occurs sub s :
  contains sub s = true ↔ ∃ l r, s = l ++ sub ++ r.
Proof.
  split.
  - induction s as [|a s IH]; simpl; intros H.
    + rewrite orb_false_r in H. apply startswith_prefix in H as [r ->].
      by exists [], r.
    + apply orb_true_iff in H as [H|H].
      * apply startswith_prefix in H as [r ->]. by exists [], r.
      * destruct (IH H) as (l & r & ->). by exists (a :: l), r.
  - intros (l & r & ->). induction l as [|a l IH]; simpl.
    + destruct (sub ++ r) eqn:E; simpl.
      * apply app_eq_nil in E as [-> ->]. done.
      * rewrite <- E, prefix_startswith. done.
    + rewrite IH. apply orb_true_r.
Qed.

Lemma contains_absent_char c sub s : c ∈ sub → c ∉ s → contains sub s = false.
Proof.
  intros Hc Hs. destruct (contains sub s) eqn:E; [|done].
  apply contains_occurs in E as (l & r & ->).
  exfalso. apply Hs. rewrite !elem_of_app. auto.
Qed.

Lemma remove_all_id old s : contains old s = false → remove_all old s = s.
Proof.
  unfold remove_all. induction s as [|a s IH]; [done|]. simpl.
  intros H. apply orb_false_iff in H as [H1 H2].
  rewrite H1. by rewrite IH.
Qed.

Lemma replace_go_length old s : ∀ k, (length (replace_go old k s) ≤ length s)%nat.
Proof.
  induction s as [|a s IH]; intros k; simpl; [lia|].
  destruct k; [|specialize (IH k); lia].
  destruct (startswith old (a :: s)); simpl.
  - specialize (IH (length old - 1)%nat); lia.
  - specialize (IH 0%nat); lia.
Qed.

Lemma remove_all_shrinks old s :
  old ≠ [] → contains old s = true →
  (length (remove_all old s) < length s)%nat.
Proof.
  intros Hold. unfold remove_all. induction s as [|a s IH]; simpl.
  - destruct old; [done|]. done.
  - intros H. destruct (startswith old (a :: s)) eqn:E.
    + pose proof (replace_go_length old s (length old - 1)). lia.
    + simpl in H. specialize (IH H). simpl. lia.
Qed.

Lemma lstrip_length s : (length (lstrip s) ≤ length s)%nat.
Proof.
  induction s as [|a s IH]; simpl; [lia|]. destruct (is_space a); simpl; lia.
Qed.

Lemma strip_length s : (length (strip s) ≤ length s)%nat.
Proof.
  unfold strip, rstrip. rewrite length_rev.
  etrans; [apply lstrip_length|]. rewrite length_rev. apply lstrip_length.
Qed.

Lemma lstrip_idem s : lstrip (lstrip s) = lstrip s.
Proof.
  induction s as [|a s IH]; [done|]. simpl.
  destruct (is_space a) eqn:E; [done|]. simpl. by rewrite E.
Qed.

Lemma lstrip_snoc s c : is_space c = false → lstrip (s ++ [c]) = lstrip s ++ [c].
Proof.
  intros Hc. induction s as [|a s IH]; simpl; [by rewrite Hc|].
  destruct (is_space a); done.
Qed.

Lemma lstrip_rstrip s : lstrip s = s → lstrip (rstrip s) = rstrip s.
Proof.
  unfold rstrip. destruct s as [|a s]; [done|]. simpl.
  destruct (is_space a) eqn:E.
  - intros H. pose proof (lstrip_length s) as L. rewrite H in L. simpl in L. lia.
  - intros _. rewrite lstrip_snoc by done. rewrite rev_app_distr. simpl. by rewrite E.
Qed.

Lemma strip_trimmed s : trimmed (strip s).
Proof.
  unfold trimmed, strip. split.
  - apply lstrip_rstrip, lstrip_idem.
  - unfold rstrip. rewrite rev_involutive. apply lstrip_idem.
Qed.

Lemma trimmed_strip s : trimmed s → strip s = s.
Proof.
  intros [H1 H2]. unfold strip, rstrip. rewrite H1, H2. apply rev_involutive.
Qed.

End PyStrFacts.

Module CacheFacts.
Import StrProps PyStrFacts DeduplicationCache.

Lemma absent_Forall (c : ascii) s : c ∉ s ↔ Forall (λ a, a ≠ c) s.
Proof.
  rewrite Forall_forall. split.
  - intros H a Ha ->. done.
  - intros H Hc. by apply (H c).
Qed.

Lemma normalize_url_normal url : normal (normalize_url url).
Proof.
  unfold normalize_url.
  change (lit "/") with ["/"%char]; change (lit "?") with ["?"%char];
  change (lit "#") with ["#"%char]. rewrite !split_first_single.
  set (u := remove_all _ (remove_all _ (remove_all _ _))).
  assert (lowered u) as Hu.
  { unfold u, lowered. do 3 apply remove_all_Forall.
    apply strip_Forall, lower_lowered. }
  split.
  - unfold lowered. apply strip_Forall. do 3 apply before_Forall. exact Hu.
  - apply strip_trimmed.
  - apply absent_Forall, strip_Forall. do 2 apply before_Forall.
    apply absent_Forall, before_absent.
  - apply absent_Forall, strip_Forall. apply before_Forall.
    apply absent_Forall, before_absent.
  - apply absent_Forall, strip_Forall.
    apply absent_Forall, before_absent.
Qed.

(** On a normal string only the deletion of ["www."] can still act. *)
Lemma normalize_url_of_normal d :
  normal d →
  normalize_url d = strip (before "#" (before "?" (before "/" (remove_all (lit "www.") d)))).
Proof.
  intros [Hl Ht Hs Hq Hh]. unfold normalize_url.
  change (lit "/") with ["/"%char]; change (lit "?") with ["?"%char];
  change (lit "#") with ["#"%char]. rewrite !split_first_single.
  rewrite (lowered_fixed _ Hl), (trimmed_strip _ Ht).
  rewrite (remove_all_id (lit "https://") d).
  2:{ apply (contains_absent_char "/"%char); [|done]. vm_compute. set_solver. }
  rewrite (remove_all_id (lit "http://") d).
  2:{ apply (contains_absent_char "/"%char); [|done]. vm_compute. set_solver. }
  done.
Qed.

Lemma normalize_url_fixed d :
  normal d → contains (lit "www.") d = false → normalize_url d = d.
Proof.
  intros Hd Hw. rewrite normalize_url_of_normal by done.
  destruct Hd as [Hl Ht Hs Hq Hh].
  rewrite remove_all_id by done.
  rewrite (before_id "/") by done. rewrite (before_id "?") by done.
  rewrite (before_id "#") by done. by apply trimmed_strip.
Qed.

Lemma normalize_url_shrinks d :
  normal d → contains (lit "www.") d = true →
  (length (normalize_url d) < length d)%nat.
Proof.
  intros Hd Hw. rewrite normalize_url_of_normal by done.
  eapply Nat.le_lt_trans; [apply strip_length|].
  eapply Nat.le_lt_trans; [apply before_length|].
  eapply Nat.le_lt_trans; [apply before_length|].
  eapply Nat.le_lt_trans; [apply before_length|].
  by apply remove_all_shrinks.
Qed.

End CacheFacts.


Module ScorerFacts.
Import PyStrFacts LeadScorer Constants ScorerSpec.

Lemma existsb_contains_lower (xs : list str) (s : str) (e : str) :
  e ∈ xs → (∃ l r, s = l ++ lower e ++ r) →
  existsb (λ excluded, contains excluded s) (map lower xs) = true.
Proof.
  intros He Hocc. apply existsb_exists. exists (lower e). split.
  - apply in_map_iff. exists e. split; [done|]. by apply list_elem_of_In.
  - by apply contains_occurs.
Qed.

(** The shape of the accumulation, with the keys and the tests left
    abstract: the nested tests of the source against one test per
    criterion. *)
Section Chain.
Context {A D : Type} (aw : string → A → A) (acc0 : A).
Context (k1 k2 k3 k4 k5 k6 k7 k8 : string).
Context (p1 : bool) (ec : option Z) (co : option str) (m : str → bool)
  (p4 p5 : bool) (dm : option D) (f6 f7 : D → bool).
Hypothesis m_nil : m [] = false.

Lemma chain :
  (let acc := acc0 in
   let acc := if p1 then aw k1 acc else acc in
   let acc :=
     match ec with
     | Some n =>
         if negb (n =? 0) then
           if (COMPANY_SIZE_SWEET_SPOT_MIN <=? n) && (n <=? COMPANY_SIZE_SWEET_SPOT_MAX)
           then aw k2 acc
           else if (COMPANY_SIZE_MIN <=? n) && (n <=? COMPANY_SIZE_MAX)
           then aw k3 acc
           else acc
         else acc
     | None => acc
     end in
   let acc :=
     match co with
     | Some (c :: cs) => if m (c :: cs) then aw k4 acc else acc
     | _ => acc
     end in
   let acc := if p4 then aw k5 acc else acc in
   let acc := if p5 then aw k6 acc else acc in
   let acc := match dm with
              | Some d => if f6 d then aw k7 acc else acc
              | None => acc
              end in
   match dm with
   | Some d => if f7 d then aw k8 acc else acc
   | None => acc
   end)
  =
  (let acc := acc0 in
   let acc := if p1 then aw k1 acc else acc in
   let acc := if in_range 20 50 ec then aw k2 acc else acc in
   let acc := if in_range 10 200 ec && negb (in_range 20 50 ec) then aw k3 acc
              else acc in
   let acc := if match co with Some code => m code | None => false end
              then aw k4 acc else acc in
   let acc := if p4 then aw k5 acc else acc in
   let acc := if p5 then aw k6 acc else acc in
   let acc := if match dm with Some d => f6 d | None => false end
              then aw k7 acc else acc in
   if match dm with Some d => f7 d | None => false end then aw k8 acc else acc).
Proof.
  unfold COMPANY_SIZE_SWEET_SPOT_MIN, COMPANY_SIZE_SWEET_SPOT_MAX,
    COMPANY_SIZE_MIN, COMPANY_SIZE_MAX, in_range.
  destruct ec as [n|];
    [ destruct (n =? 0) eqn:E0;
      [ apply Z.eqb_eq in E0; subst n
      | destruct ((20 <=? n) && (n <=? 50)); destruct ((10 <=? n) && (n <=? 200)) ]
    | ];
    destruct co as [[|c0 cs]|]; rewrite ?m_nil;
    destruct dm as [d|];
    reflexivity.
Qed.
End Chain.

Lemma score_unfold self lead :
  _is_excluded self (Company.name (Lead.company lead)) = false →
  score self lead =
    let acc := score_acc lead in
    let qualified := threshold self <=? acc.2 in
    Lead.set_qualification
      {| Qualification.score := acc.2;
         Qualification.qualified := qualified;
         Qualification.fit_notes := Some (_generate_fit_notes acc.1 acc.2 qualified);
         Qualification.scoring_breakdown := acc.1 |} lead.
Proof. intros H. unfold score. rewrite H. reflexivity. Qed.

Lemma score_acc_tally lead : score_acc lead = tally (satisfied lead).
Proof.
  exact (chain award ([], 0) "platform_shopify" "company_size_sweet_spot"
                "company_size_good" "target_geography" "ecommerce_presence"
                "no_rx_eyewear" "decision_maker_found" "email_verified"
                _ _ _ (λ code, mem (upper code) TARGET_COUNTRIES) _ _ _
                (λ d, nonempty (DecisionMaker.name d)) DecisionMaker.email_verified
                eq_refl).
Qed.

Lemma score_tally self lead :
  _is_excluded self (Company.name (Lead.company lead)) = false →
  score self lead =
    let acc := tally (satisfied lead) in
    let qualified := threshold self <=? acc.2 in
    Lead.set_qualification
      {| Qualification.score := acc.2;
         Qualification.qualified := qualified;
         Qualification.fit_notes := Some (_generate_fit_notes acc.1 acc.2 qualified);
         Qualification.scoring_breakdown := acc.1 |} lead.
Proof.
  intros H. rewrite (score_unfold _ _ H). rewrite score_acc_tally. reflexivity.
Qed.

Lemma score_excluded self lead :
  _is_excluded self (Company.name (Lead.company lead)) = true →
  score self lead =
    Lead.set_qualification
      {| Qualification.score := 0;
         Qualification.qualified := false;
         Qualification.fit_notes := Some (lit "Excluded: Company is in exclusion list");
         Qualification.scoring_breakdown := [(lit "excluded", BBool true)] |} lead.
Proof. intros H. unfold score. by rewrite H. Qed.

Lemma weight_nonneg c : 0 ≤ weight (lit (key c)).
Proof. destruct c; vm_compute; discriminate. Qed.

Lemma total_weight_sum : total_weight = sum_weights all_criteria.
Proof. reflexivity. Qed.

Lemma sum_weights_filter (f : criterion → bool) cs :
  0 ≤ sum_weights (List.filter f cs) ≤ sum_weights cs.
Proof.
  induction cs as [|c cs IH]; simpl; [lia|].
  pose proof (weight_nonneg c). destruct (f c); simpl; lia.
Qed.

Lemma tally_fold (f : criterion → bool) cs acc :
  (foldl (λ acc c, if f c then award (key c) acc else acc) acc cs).2
  = acc.2 + sum_weights (List.filter f cs).
Proof.
  revert acc. induction cs as [|c cs IH]; intros acc; simpl; [lia|].
  rewrite IH. destruct (f c); simpl; lia.
Qed.

Lemma tally_sum (f : criterion → bool) :
  (tally f).2 = sum_weights (List.filter f all_criteria).
Proof. unfold tally. by rewrite tally_fold. Qed.

Lemma sizes_exclusive lead :
  satisfied lead company_size_sweet_spot = true →
  satisfied lead company_size_good = false.
Proof. simpl. intros ->. apply andb_false_r. Qed.

End ScorerFacts.

Module EffFacts.
Import EffProps.

Lemma bind_Ok {A B} (m : M A) (k : A → M B) st b st' :
  bind m k st = (Ok b, st') ↔ ∃ a st1, m st = (Ok a, st1) ∧ k a st1 = (Ok b, st').
Proof.
  unfold bind. split.
  - destruct (m st) as [[a|e] st1]; [eauto | discriminate].
  - intros (a & st1 & -> & H). done.
Qed.

Lemma try_except_Ok {A} (m : M A) (h : exn → M A) st a st' :
  try_except m h st = (Ok a, st') ↔
  m st = (Ok a, st') ∨ ∃ e st1, m st = (Raise e, st1) ∧ h e st1 = (Ok a, st').
Proof.
  unfold try_except. split.
  - destruct (m st) as [[a'|e] st1]; [left | right; eauto]. done.
  - intros [-> | (e & st1 & -> & H)]; done.
Qed.

Lemma keeps_cache_ret {A} (a : A) : keeps_cache (ret a).
Proof. intros st r st' [= <- <-]. done. Qed.

Lemma keeps_cache_raise {A} e : keeps_cache (@raise A e).
Proof. intros st r st' [= <- <-]. done. Qed.

Lemma keeps_cache_call c : keeps_cache (call c).
Proof. intros st r st' [= <- <-]. done. Qed.

Lemma keeps_cache_bind {A B} (m : M A) (k : A → M B) :
  keeps_cache m → (∀ a, keeps_cache (k a)) → keeps_cache (bind m k).
Proof.
  intros Hm Hk st r st'. unfold bind.
  destruct (m st) as [[a|e] st1] eqn:E; intros H.
  - rewrite (Hk _ _ _ _ H). eapply Hm, E.
  - injection H as <- <-. eapply Hm, E.
Qed.

Lemma keeps_cache_try {A} (m : M A) (h : exn → M A) :
  keeps_cache m → (∀ e, keeps_cache (h e)) → keeps_cache (try_except m h).
Proof.
  intros Hm Hh st r st'. unfold try_except.
  destruct (m st) as [[a|e] st1] eqn:E; intros H.
  - injection H as <- <-. eapply Hm, E.
  - rewrite (Hh _ _ _ _ H). eapply Hm, E.
Qed.

Lemma returns_ret {A} (a : A) : returns (ret a).
Proof. intros st. by exists a, st. Qed.

Lemma returns_call c : returns (call c).
Proof. intros st. unfold call. eauto. Qed.

Lemma returns_bind {A B} (m : M A) (k : A → M B) :
  returns m → (∀ a, returns (k a)) → returns (bind m k).
Proof.
  intros Hm Hk st. destruct (Hm st) as (a & st1 & E).
  destruct (Hk a st1) as (b & st2 & E2). exists b, st2.
  unfold bind. by rewrite E.
Qed.

Lemma returns_try {A} (m : M A) (h : exn → M A) :
  (∀ e, returns (h e)) → returns (try_except m h).
Proof.
  intros Hh st. unfold try_except.
  destruct (m st) as [[a|e] st1]; [eauto|]. apply Hh.
Qed.

End EffFacts.

Create HintDb eff.
#[global] Hint Resolve EffFacts.keeps_cache_ret EffFacts.keeps_cache_raise
  EffFacts.keeps_cache_call EffFacts.returns_ret EffFacts.returns_call : eff.
#[global] Hint Extern 2 (EffProps.keeps_cache (bind _ _)) =>
  apply EffFacts.keeps_cache_bind; [|intros ?] : eff.
#[global] Hint Extern 2 (EffProps.keeps_cache (try_except _ _)) =>
  apply EffFacts.keeps_cache_try; [|intros ?] : eff.
#[global] Hint Extern 2 (EffProps.returns (bind _ _)) =>
  apply EffFacts.returns_bind; [|intros ?] : eff.
#[global] Hint Extern 2 (EffProps.returns (try_except _ _)) =>
  apply EffFacts.returns_try; intros ? : eff.
#[global] Hint Extern 4 (EffProps.keeps_cache (match ?x with _ => _ end)) =>
  destruct x : eff.
#[global] Hint Extern 4 (EffProps.returns (match ?x with _ => _ end)) =>
  destruct x : eff.

Module VerifierFacts.
Import EffProps EffFacts ShopifyVerifier.

Section WithEnv.
Context (env : Env.t).

Lemma client_get_keeps url : keeps_cache (client_get env url).
Proof. unfold client_get. auto with eff. Qed.

Lemma py_urljoin_keeps base path : keeps_cache (py_urljoin env base path).
Proof. unfold py_urljoin. auto with eff. Qed.

Hint Resolve client_get_keeps py_urljoin_keeps : eff.

Lemma check_products_json_keeps url : keeps_cache (_check_products_json env url).
Proof. unfold _check_products_json. auto 10 with eff. Qed.

Lemma check_products_json_returns url : returns (_check_products_json env url).
Proof. unfold _check_products_json. auto with eff. Qed.

Lemma check_page_source_keeps url : keeps_cache (_check_page_source env url).
Proof. unfold _check_page_source. auto 10 with eff. Qed.

Lemma check_page_source_returns url : returns (_check_page_source env url).
Proof. unfold _check_page_source. auto with eff. Qed.

Hint Resolve check_products_json_keeps check_products_json_returns
  check_page_source_keeps check_page_source_returns : eff.

Lemma verify_keeps url : keeps_cache (verify env url).
Proof. unfold verify. auto 10 with eff. Qed.

Lemma verify_returns url : returns (verify env url).
Proof. unfold verify. auto with eff. Qed.

End WithEnv.
End VerifierFacts.


Module CountryFacts.
Import PyStrFacts EffProps EffFacts ShopifyVerifier CountrySources.

Lemma ensure_scheme_idem url : ensure_scheme (ensure_scheme url) = ensure_scheme url.
Proof.
  unfold ensure_scheme.
  destruct (startswith _ url || startswith _ url) eqn:E.
  - by rewrite E.
  - by rewrite (prefix_startswith (lit "https://") url), orb_true_r.
Qed.

Lemma tld_ensure_scheme env url :
  detect_country_from_tld env (ensure_scheme url) = detect_country_from_tld env url.
Proof. unfold detect_country_from_tld. by rewrite ensure_scheme_idem. Qed.

Section WithEnv.
Context (env : Env.t).

Lemma client_get_run url st :
  client_get env url st =
    (match Env.http_get env url with
     | FetchError e => Raise e
     | Response r => Ok r
     end, logged st (HttpGet url)).
Proof.
  unfold client_get, bind, call. fold (logged st (HttpGet url)).
  by destruct (Env.http_get env url).
Qed.

Lemma schema_run url st :
  detect_country_from_schema env url st
  = (Ok (schema_source env url), logged st (HttpGet url)).
Proof.
  unfold detect_country_from_schema, try_except, bind, schema_source, page_text.
  rewrite client_get_run.
  destruct (Env.http_get env url) as [e|r]; [done|].
  by destruct (status_code r =? 200).
Qed.

Lemma currency_run url st :
  detect_country_from_currency env url st
  = (Ok (currency_source env url), logged st (HttpGet url)).
Proof.
  unfold detect_country_from_currency, try_except, bind, currency_source, page_text.
  rewrite client_get_run.
  destruct (Env.http_get env url) as [e|r]; [done|].
  destruct (status_code r =? 200); [|done]. simpl.
  by destruct (country_of_currency (Env.re_shopify_currency env (text r))).
Qed.

Lemma detect_country_run url st :
  ∃ st',
    detect_country env url st
    = (Ok (first_truthy [ schema_source env url; currency_source env url;
                           detect_country_from_tld env url ]), st')
    ∧ cache st' = cache st.
Proof.
  unfold detect_country, bind, first_truthy. rewrite schema_run. simpl.
  destruct (truthy (schema_source env url)) eqn:E1; [unfold ret; eauto|].
  rewrite currency_run.
  destruct (truthy (currency_source env url)) eqn:E2; [unfold ret; eauto|].
  destruct (truthy (detect_country_from_tld env url)) eqn:E3; unfold ret; eauto.
Qed.

Lemma extract_store_info_keeps url : keeps_cache (extract_store_info env url).
Proof.
  unfold extract_store_info.
  assert (∀ u, keeps_cache (detect_country env u)) as Hd.
  { intros u st r st' H. destruct (detect_country_run u st) as (s & E & Hc).
    rewrite E in H. by injection H as <- <-. }
  pose proof (VerifierFacts.client_get_keeps env).
  pose proof (VerifierFacts.py_urljoin_keeps env).
  auto 12 with eff.
Qed.

Lemma extract_store_info_returns url : returns (extract_store_info env url).
Proof. unfold extract_store_info. auto with eff. Qed.

Lemma extract_store_info_country url st info st' :
  extract_store_info env url st = (Ok info, st') →
  StoreInfo.country info = store_country env (ensure_scheme url).
Proof.
  unfold extract_store_info, store_country, page_text.
  intros H. apply try_except_Ok in H as [H | (e & s1 & H & Hh)].
  - apply bind_Ok in H as (r & s1 & Hget & H).
    rewrite client_get_run in Hget.
    destruct (Env.http_get env _) as [e|r']; [done|]. injection Hget as -> <-.
    destruct (status_code r =? 200); simpl in H.
    + apply bind_Ok in H as (contact & s2 & _ & H).
      apply bind_Ok in H as (country & s3 & Hc & H).
      destruct (detect_country_run (ensure_scheme url) s2) as (s & E & _).
      rewrite E in Hc. injection Hc as <- <-.
      by injection H as <- <-.
    + by injection H as <- <-.
  - injection Hh as <- <-. simpl.
    unfold bind in H. rewrite client_get_run in H.
    destruct (Env.http_get env _) as [e'|r]; [done|].
    exfalso. destruct (status_code r =? 200); simpl in H.
    + revert H. unfold bind.
      match goal with |- context [try_except ?m ?h ?s] =>
        destruct (returns_try m h (λ _, returns_ret _) s) as (a & s' & ->) end.
      destruct (detect_country_run (ensure_scheme url) s') as (s & -> & _). done.
    + done.
Qed.

End WithEnv.
End CountryFacts.

Module PipelineFacts.
Import PyStrFacts EffProps EffFacts ShopifyVerifier CountrySources CountryFacts
  CascadeSpec LeadGenerationPipeline.

Lemma first_truthy_cons x xs :
  first_truthy (x :: xs) = if truthy x then x else first_truthy xs.
Proof. unfold first_truthy. simpl. by destruct (truthy x). Qed.

Lemma first_truthy_Some xs x : first_truthy xs = Some x → truthy (Some x) = true.
Proof.
  unfold first_truthy. destruct (List.find truthy xs) as [o|] eqn:E; [|done].
  intros ->. by apply find_some in E as [_ E].
Qed.

Lemma first_truthy_None xs : first_truthy xs = None → Forall (λ x, truthy x = false) xs.
Proof.
  induction xs as [|x xs IH]; [constructor|].
  rewrite first_truthy_cons. destruct (truthy x) eqn:E.
  - intros ->. done.
  - intros H. constructor; auto.
Qed.

(** Step 5 on the country: the company's own value, else the Hunter.io one. *)
Lemma fill_from_hunter_country h c :
  Company.country (fill_from_hunter h c)
  = if truthy (Company.country c) then Company.country c
    else if truthy (HunterResult.country h) then HunterResult.country h
    else Company.country c.
Proof.
  unfold fill_from_hunter.
  destruct (HunterResult.company_name h) as [[|a n]|];
    [| destruct (negb (nonempty (Company.name c))) |];
    cbn [Company.country Company.set_name Company.industry];
    destruct (truthy (HunterResult.country h)), (truthy (Company.country c)) eqn:Ec;
    cbn [andb negb Company.country Company.set_country Company.set_name
         Company.industry];
    destruct (truthy (HunterResult.industry h) && _); reflexivity.
Qed.

Lemma aggregate_country_country env url c :
  Company.country (aggregate_country env url c)
  = if truthy (Company.country c) then Company.country c
    else if truthy (detect_country_from_tld env url)
         then detect_country_from_tld env url
         else Company.country c.
Proof.
  unfold aggregate_country.
  destruct (truthy (Company.country c)); simpl; [done|].
  by destruct (truthy (detect_country_from_tld env url)).
Qed.

Section LinkedIn.
Import LinkedInFinder.
Context (env : Env.t).

Lemma assign_country_country d c :
  Company.country (assign_country d c) = country_update d (Company.country c).
Proof.
  unfold assign_country, country_update.
  destruct (truthy (Company.country c)) eqn:Ec; [done|]. simpl.
  destruct (LinkedInData.mainAddress d) as [|a|]; simpl; rewrite ?Ec; simpl.
  - destruct (LinkedInData.Headquarters d) as [hq|]; [|done].
    destruct (nonempty hq && _); [|done]. by destruct (_ =? _)%nat.
  - destruct (truthy a); [done|]. simpl.
    destruct (LinkedInData.Headquarters d) as [hq|]; [|done].
    destruct (nonempty hq && _); [|done]. by destruct (_ =? _)%nat.
  - destruct (LinkedInData.Headquarters d) as [hq|]; [|done].
    destruct (nonempty hq && _); [|done]. by destruct (_ =? _)%nat.
Qed.

Lemma length2_truthy (s : str) : length s = 2%nat → truthy (Some (upper s)) = true.
Proof. by destruct s as [|x [|y [|z r]]]. Qed.

Lemma country_update_set d co : truthy co = true → country_update d co = co.
Proof. intros H. unfold country_update. by rewrite H. Qed.

Lemma country_update_empty d co :
  truthy co = false →
  if truthy (linkedin_country d)
  then country_update d co = linkedin_country d
  else truthy (country_update d co) = false.
Proof.
  intros H. unfold country_update, linkedin_country. rewrite H.
  destruct (LinkedInData.mainAddress d) as [|a|]; simpl; rewrite ?H.
  - destruct (LinkedInData.Headquarters d) as [hq|]; [|done].
    destruct (nonempty hq && _); [|done].
    destruct (_ =? _)%nat eqn:L; [|done].
    apply Nat.eqb_eq in L. apply length2_truthy in L. simpl in *. by rewrite L.
  - destruct (truthy a) eqn:Ea; [by rewrite Ea|].
    destruct (LinkedInData.Headquarters d) as [hq|]; simpl; rewrite ?Ea; [|done].
    destruct (nonempty hq && _); simpl; rewrite ?Ea; [|done].
    destruct (_ =? _)%nat eqn:L; simpl; rewrite ?Ea; [|done].
    apply Nat.eqb_eq in L. apply length2_truthy in L. simpl in *. by rewrite L.
  - destruct (LinkedInData.Headquarters d) as [hq|]; simpl; rewrite ?H; [|done].
    destruct (nonempty hq && _); simpl; rewrite ?H; [|done].
    destruct (_ =? _)%nat eqn:L; simpl; rewrite ?H; [|done].
    apply Nat.eqb_eq in L. apply length2_truthy in L. simpl in *. by rewrite L.
Qed.

Lemma assign_employee_count_country d c c' :
  assign_employee_count env d c = Ok c' → Company.country c' = Company.country c.
Proof.
  unfold assign_employee_count. destruct (jval_truthy _); [|by intros [= <-]].
  destruct (jval_or _ _) as [[s|z|r]|]; try (by intros [= <-]).
  destruct (Env.py_int env s); [by intros [= <-] | done].
Qed.

Lemma assign_founded_year_country d c :
  Company.country (assign_founded_year env d c) = Company.country c.
Proof.
  unfold assign_founded_year. destruct (jval_truthy _); [|done].
  destruct (jval_or _ _) as [v|]; [|done]. by destruct (Env.py_int env _).
Qed.

Lemma assign_primary_domain_country d c :
  Company.country (assign_primary_domain d c) = Company.country c.
Proof.
  unfold assign_primary_domain.
  destruct (py_or _ _) as [w|]; [destruct (nonempty w); [destruct (_ && _)|]|];
    cbn [Company.primary_domain Company.set_primary_domain Company.website];
    repeat match goal with |- context [if ?b then _ else _] => destruct b end;
    reflexivity.
Qed.

Lemma enrich_company_run c st :
  ∃ c' oe,
    enrich_company env c st
    = (Ok (c', oe),
       logged st (LinkedInFindCompany (Company.name c) (Company.website c)
                    (Company.primary_domain c)))
    ∧ Company.country c'
      = match country_lines_reached env c with
        | Some d => country_update d (Company.country c)
        | None => Company.country c
        end.
Proof.
  unfold enrich_company, find_company, bind, call, country_lines_reached.
  fold (logged st (LinkedInFindCompany (Company.name c) (Company.website c)
                    (Company.primary_domain c))).
  unfold ret at 1.
  destruct (Env.linkedin_find_company env _ _ _) as [d|]; [|unfold ret; eauto].
  destruct (assign_employee_count env d _) as [c1|e] eqn:E; unfold ret.
  - eexists _, _. split; [reflexivity|].
    rewrite assign_primary_domain_country, assign_country_country,
      assign_founded_year_country.
    apply assign_employee_count_country in E. cbn in E.
    cbn [Company.country Company.set_description Company.set_industry].
    by rewrite E.
  - eexists _, _. split; [reflexivity|]. done.
Qed.

End LinkedIn.

Lemma ensures_ret {A} (a : A) (Q : A → Prop) : Q a → ensures (ret a) Q.
Proof. intros H st a' st' [= <- <-]. done. Qed.

Lemma ensures_raise {A} e (Q : A → Prop) : ensures (raise e) Q.
Proof. intros st a st' [=]. Qed.

Lemma ensures_bind {A B} (m : M A) (k : A → M B) (P : A → Prop) (Q : B → Prop) :
  ensures m P → (∀ a, P a → ensures (k a) Q) → ensures (bind m k) Q.
Proof.
  intros Hm Hk st b st' H. apply bind_Ok in H as (a & st1 & H1 & H2).
  eapply Hk; [eapply Hm|]; eauto.
Qed.

Lemma ensures_bind_any {A B} (m : M A) (k : A → M B) (Q : B → Prop) :
  (∀ a, ensures (k a) Q) → ensures (bind m k) Q.
Proof. intros Hk. apply (ensures_bind m k (λ _, True)); [done | auto]. Qed.

Lemma ensures_try {A} (m : M A) (h : exn → M A) (Q : A → Prop) :
  ensures m Q → (∀ e, ensures (h e) Q) → ensures (try_except m h) Q.
Proof.
  intros Hm Hh st a st' H. apply try_except_Ok in H as [H | (e & s1 & _ & H)].
  - eapply Hm, H.
  - eapply Hh, H.
Qed.

Hint Resolve ensures_raise : eff.
Hint Extern 1 (ensures (ret _) _) => apply ensures_ret : eff.
Hint Extern 2 (ensures (bind _ _) _) => apply ensures_bind_any; intros ? : eff.
Hint Extern 2 (ensures (try_except _ _) _) => apply ensures_try; [|intros ?] : eff.
Hint Extern 4 (ensures (match ?x with _ => _ end) _) => destruct x : eff.

Section Steps.
Context (env : Env.t).

Lemma same_company_refl lead : same_company lead lead.
Proof. done. Qed.

Lemma same_company_dm lead dm : same_company lead (Lead.set_decision_maker dm lead).
Proof. done. Qed.

Lemma same_company_trans l1 l2 l3 :
  same_company l1 l2 → same_company l2 l3 → same_company l1 l3.
Proof. intros [? ?] [? ?]. split; congruence. Qed.

Hint Resolve same_company_refl same_company_dm : eff.

Lemma strategy1_same lead : ensures (strategy1_linkedin env lead) (same_company lead).
Proof. unfold strategy1_linkedin. auto with eff. Qed.

Lemma strategy2_same hunter lead :
  ensures (strategy2_hunter hunter lead) (same_company lead).
Proof. unfold strategy2_hunter. auto 8 with eff. Qed.

Lemma strategy3_same v lead :
  ensures (strategy3_website env v lead) (same_company lead).
Proof. unfold strategy3_website. auto 8 with eff. Qed.

Lemma strategy4_same info lead : same_company lead (strategy4_store_email info lead).
Proof. unfold strategy4_store_email. destruct (_ && _); auto with eff. Qed.

Lemma step7_same v info hunter lead :
  ensures (step7_decision_makers env v info hunter lead) (same_company lead).
Proof.
  unfold step7_decision_makers.
  eapply ensures_bind; [apply strategy1_same|]. intros l1 H1.
  eapply ensures_bind; [apply strategy2_same|]. intros l2 H2.
  eapply ensures_bind; [apply strategy3_same|]. intros l3 H3.
  apply ensures_ret.
  eauto using same_company_trans, strategy4_same.
Qed.

Lemma step8_same domain lead : ensures (step8_email env domain lead) (same_company lead).
Proof. unfold step8_email. auto 8 with eff. Qed.

Lemma step10_same lead : ensures (step10_outreach env lead) (same_company lead).
Proof.
  unfold step10_outreach.
  assert (∀ o, same_company lead (Lead.set_outreach o lead)) by done.
  auto 8 with eff.
Qed.

Lemma score_same self lead : same_company lead (LeadScorer.score self lead).
Proof.
  destruct (LeadScorer._is_excluded self (Company.name (Lead.company lead))) eqn:E.
  - by rewrite ScorerFacts.score_excluded.
  - by rewrite ScorerFacts.score_tally.
Qed.

Lemma verify_store_url url :
  ensures (verify env url) (λ v, store_url v = ensure_scheme url).
Proof. unfold verify. auto 8 with eff. Qed.

Lemma step5_country domain lead st l1 hunter st' :
  step5_hunter env domain lead st = (Ok (l1, hunter), st') →
  let c := Lead.company lead in
  Company.country (Lead.company l1)
  = if truthy (Company.country c) then Company.country c
    else if truthy (hunter_source env domain) then hunter_source env domain
    else Company.country c.
Proof.
  unfold step5_hunter, hunter_source.
  destruct (domain_usable domain).
  - intros H. apply try_except_Ok in H as [H | (e & s1 & H & _)].
    + apply bind_Ok in H as (h & s1 & Hs & H). injection H as <- <- <-.
      cbn [Lead.company Lead.set_company]. rewrite fill_from_hunter_country.
      revert Hs. unfold EmailFinder.domain_search, bind, call.
      destruct (Env.hunter_domain_search env domain 10); by intros [= <- <-].
    + exfalso. revert H. unfold bind, EmailFinder.domain_search, call.
      by destruct (Env.hunter_domain_search env domain 10).
  - intros [= <- <- <-]. simpl. by destruct (truthy _).
Qed.

Lemma step6_country lead st l2 st' :
  step6_linkedin env lead st = (Ok l2, st') →
  Company.country (Lead.company l2)
  = match country_lines_reached env (Lead.company lead) with
    | Some d => country_update d (Company.country (Lead.company lead))
    | None => Company.country (Lead.company lead)
    end.
Proof.
  unfold step6_linkedin. intros H. apply bind_Ok in H as ([c' oe] & s1 & He & H).
  injection H as <- <-.
  destruct (enrich_company_run env (Lead.company lead) st) as (c2 & oe2 & E & Hc).
  rewrite E in He. by injection He as <- <- <-.
Qed.

Lemma build_company_country url segment v info :
  Company.country (build_company url segment v info) = StoreInfo.country info.
Proof.
  unfold build_company. by destruct (PyDict.get _ _) as [[|a l]|].
Qed.

Lemma process_url_steps url segment skip force st lead st' :
  process_url env url segment skip force st = (Ok (Some lead), st') →
  ∃ c0 c1 c2 s,
    run_to_step6 env url segment skip force st c0 c1 c2 s
    ∧ Lead.company lead = aggregate_country env url c2.
Proof.
  unfold process_url. intros H.
  apply bind_Ok in H as (cache0 & s0 & Hc & H). injection Hc as <- <-.
  destruct (negb force && _) eqn:Ef; [done|].
  apply bind_Ok in H as (v & s1 & Hv & H).
  destruct (is_shopify_platform (platform v)) eqn:Ep; [|done]. cbn [negb] in H.
  apply bind_Ok in H as (valid & s2 & H2 & H).
  destruct valid; [|done]. cbn [negb] in H.
  apply bind_Ok in H as (info & s3 & Hinfo & H).
  apply bind_Ok in H as ([l1 hunter] & s4 & H5 & H).
  apply bind_Ok in H as (l2 & s5 & H6 & H).
  apply bind_Ok in H as (l3 & s6 & H7 & H).
  apply bind_Ok in H as (l4 & s7 & H8 & H).
  apply bind_Ok in H as (l5 & s8 & H10 & H).
  apply bind_Ok in H as (u & s9 & _ & H).
  injection H as <- <-.
  apply step7_same in H7 as [H7 _]. apply step8_same in H8 as [H8 _].
  apply step10_same in H10 as [H10 _].
  exists (build_company url segment v info), (Lead.company l1), (Lead.company l2), s5.
  split; [by econstructor|].
  rewrite H10. destruct (score_same LeadScorer.new l4) as [-> _].
  by rewrite H8, H7.
Qed.

(** The countries of the three companies of a run, by their sources. *)
Lemma run_to_step6_countries url segment skip force st c0 c1 c2 s :
  run_to_step6 env url segment skip force st c0 c1 c2 s →
  Company.country c0 = store_country env (ensure_scheme url)
  ∧ Company.country c1
    = (if truthy (Company.country c0) then Company.country c0
       else if truthy (hunter_source env (search_domain url c0))
            then hunter_source env (search_domain url c0)
            else Company.country c0)
  ∧ Company.country c2
    = match country_lines_reached env c1 with
      | Some d => country_update d (Company.country c1)
      | None => Company.country c1
      end.
Proof.
  intros [v s1 s2 info s3 l1 hunter s4 l2 s5 _ Hv _ _ Hinfo H5 H6].
  apply verify_store_url in Hv. rewrite Hv in Hinfo.
  apply extract_store_info_country in Hinfo. rewrite ensure_scheme_idem in Hinfo.
  apply step5_country in H5. apply step6_country in H6.
  split; [by rewrite build_company_country|]. by split.
Qed.

(** A country that one of the three companies has is the country after the
    fallback that follows step 6. *)
Lemma run_to_step6_kept url segment skip force st c0 c1 c2 s :
  run_to_step6 env url segment skip force st c0 c1 c2 s →
  (truthy (Company.country c0) = true →
   Company.country (aggregate_country env url c2) = Company.country c0)
  ∧ (truthy (Company.country c1) = true →
     Company.country (aggregate_country env url c2) = Company.country c1)
  ∧ (truthy (Company.country c2) = true →
     Company.country (aggregate_country env url c2) = Company.country c2).
Proof.
  intros H. apply run_to_step6_countries in H as (_ & Hh & Hl).
  assert (truthy (Company.country c2) = true →
          Company.country (aggregate_country env url c2) = Company.country c2) as H2.
  { intros E. by rewrite aggregate_country_country, E. }
  assert (truthy (Company.country c1) = true →
          Company.country (aggregate_country env url c2) = Company.country c1) as H1.
  { intros E.
    assert (Company.country c2 = Company.country c1) as E2.
    { rewrite Hl. destruct (country_lines_reached env c1); [|done].
      by apply country_update_set. }
    rewrite <- E2. apply H2. by rewrite E2. }
  split; [|done].
  intros E. assert (Company.country c1 = Company.country c0) as E1.
  { by rewrite Hh, E. }
  rewrite <- E1. apply H1. by rewrite E1.
Qed.

(** The suffix of the host settles the country of the store page that has
    neither markup nor a currency with a country. *)
Lemma store_country_tld url r t :
  Env.http_get env url = Response r →
  status_code r = 200 →
  truthy (Env.schema_country_of_html env (text r)) = false →
  country_of_currency (Env.re_shopify_currency env (text r)) = None →
  country_of_currency (Env.re_currency_meta env (text r)) = None →
  detect_country_from_tld env url = Some t →
  store_country env url = Some t ∧ truthy (Some t) = true.
Proof.
  intros Hg H200 Hs Hc1 Hc2 Ht.
  assert (truthy (Some t) = true) as Htt.
  { revert Ht. unfold detect_country_from_tld.
    destruct (Env.urlparse_netloc env _) as [netloc|]; [|done].
    destruct (List.find _ _) as [e|] eqn:Ef; [|done].
    apply find_some in Ef as [_ Ef]. apply andb_true_iff in Ef as [_ Ef].
    by intros <-. }
  split; [|done].
  unfold store_country, schema_source, currency_source, page_text.
  rewrite Hg, H200. cbn [Z.eqb Pos.eqb]. rewrite Hc1, Hc2.
  rewrite !first_truthy_cons, Hs. cbn [truthy]. by rewrite Ht, Htt.
Qed.

End Steps.
End PipelineFacts.

Module CascadeFacts.
Import EffProps EffFacts CascadeSpec LeadGenerationPipeline PipelineFacts.



Lemma collect_names employees : ∀ acc dms,
  LinkedInFinder.collect_decision_makers employees acc = Ok dms →
  DecisionMaker.name <$> dms
  = (DecisionMaker.name <$> acc) ++ (employee_name <$> employees).
Proof.
  induction employees as [|emp es IH]; intros acc dms; simpl.
  - intros [= <-]. by rewrite app_nil_r.
  - unfold LinkedInFinder.dm_of_employee, employee_name at 1.
    destruct (Employee.name emp) as [[s|]|]; [|done|];
      intros H; apply IH in H; rewrite H, fmap_app, <- app_assoc; done.
Qed.

Section WithEnv.
Context (env : Env.t).










End WithEnv.
End CascadeFacts.

(** * Checked properties *)

Import StrProps EffProps ScorerSpec CountrySources CascadeSpec.
Import ShopifyVerifier LeadGenerationPipeline.

(** C1, what the code does.  When the store page is fetched and carries
    neither a country in its markup nor a currency with a country, and the
    host of the URL ends in a suffix of the table, the lead gets the country
    of that suffix: [detect_country] consults the suffix inside the store
    detection of step 3, and the domain search, the LinkedIn enrichment
    and the fallback after them assign the country only to a company that has
    none.  The LinkedIn answer plays no part in the statement. *)
Theorem store_tld_comes_before_linkedin (env : Env.t) (url : str)
    (segment : option Segment) (skip_validation force : bool) (st st' : state)
    (lead : Lead.t) (r : HttpResponse) (t : str) :
  process_url env url segment skip_validation force st = (Ok (Some lead), st') →
  Env.http_get env (ensure_scheme url) = Response r →
  status_code r = 200 →
  truthy (Env.schema_country_of_html env (text r)) = false →
  country_of_currency (Env.re_shopify_currency env (text r)) = None →
  country_of_currency (Env.re_currency_meta env (text r)) = None →
  detect_country_from_tld env url = Some t →
  Company.country (Lead.company lead) = Some t.
Proof.
  intros H Hg H200 Hs Hc1 Hc2 Ht.
  apply PipelineFacts.process_url_steps in H as (c0 & c1 & c2 & s & Hr & ->).
  rewrite <- CountryFacts.tld_ensure_scheme in Ht.
  destruct (PipelineFacts.store_country_tld env _ _ _ Hg H200 Hs Hc1 Hc2 Ht)
    as [E Htt].
  destruct (PipelineFacts.run_to_step6_countries env _ _ _ _ _ _ _ _ _ Hr)
    as (E0 & _).
  destruct (PipelineFacts.run_to_step6_kept env _ _ _ _ _ _ _ _ _ Hr) as (K & _).
  rewrite K; rewrite E0, E; done.
Qed.

(** On [shop.de] the page carries neither markup nor a currency, LinkedIn
    finds the company and gives the United States, and the lead comes out
    with ["DE"]. *)
Lemma store_tld_comes_before_linkedin_witness :
  Env.linkedin_find_company Examples.env_shop (lit "Shop") (lit "shop.de")
    (Some (lit "shop.de")) = Some Examples.linkedin_us
  ∧ linkedin_country Examples.linkedin_us = Some (lit "US")
  ∧ match process_url Examples.env_shop (lit "shop.de") None false false
            Examples.st0 with
    | (Ok (Some lead), _) =>
        Company.country (Lead.company lead) = Some (lit "DE")
    | _ => False
    end.
Proof.
  split; [reflexivity|]. split; [reflexivity|].
  destruct (process_url Examples.env_shop (lit "shop.de") None false false
              Examples.st0) as [[[lead|]|e] st'] eqn:E;
    [| vm_compute in E; discriminate E..].
  eapply (store_tld_comes_before_linkedin _ _ _ _ _ _ _ _ _ _ E);
    reflexivity.
Defined.




(** C3, what the code does.  [normalize_url] deletes ["www."] wherever it
    stands in the URL, not the leading label alone, and in one pass from
    the left: on ["wwww.ww.example.com"] the pass leaves
    ["www.example.com"], which a second normalization turns into
    ["example.com"].  A second normalization changes nothing exactly when
    the first result holds no ["www."]; the example of the specification is
    of that kind, and equal to what ["example.com"] gives. *)
Theorem normalize_url_twice_differs_on_www :
  DeduplicationCache.normalize_url (lit "wwww.ww.example.com")
    = lit "www.example.com"
  ∧ DeduplicationCache.normalize_url
      (DeduplicationCache.normalize_url (lit "wwww.ww.example.com"))
    = lit "example.com"
  ∧ DeduplicationCache.normalize_url (lit "shop.www.example.com")
    = lit "shop.example.com"
  ∧ DeduplicationCache.normalize_url (lit "HTTPS://WWW.Example.com/a?b=1")
    = DeduplicationCache.normalize_url (lit "example.com")
  ∧ DeduplicationCache.normalize_url
      (DeduplicationCache.normalize_url (lit "HTTPS://WWW.Example.com/a?b=1"))
    = DeduplicationCache.normalize_url (lit "HTTPS://WWW.Example.com/a?b=1")
  ∧ ∀ x : str,
      DeduplicationCache.normalize_url (DeduplicationCache.normalize_url x)
        = DeduplicationCache.normalize_url x
      ↔ contains (lit "www.") (DeduplicationCache.normalize_url x) = false.
Proof.
  do 5 (split; [vm_compute; reflexivity|]).
  intros x. pose proof (CacheFacts.normalize_url_normal x) as Hn.
  split.
  - intros E. destruct (contains _ _) eqn:Hw; [|done].
    pose proof (CacheFacts.normalize_url_shrinks _ Hn Hw) as L.
    rewrite E in L. lia.
  - by apply CacheFacts.normalize_url_fixed.
Qed.

(** C4.  A company whose lower-cased name holds a lower-cased entry of the
    configured exclusion list gets score 0, not qualified, and a breakdown
    that holds the exclusion flag alone; the rest of the lead plays no
    part. *)
Theorem excluded_company_scores_zero (qualification_threshold : Z)
    (exclusion_list : option (list str)) (lead : Lead.t) (e : str) :
  e ∈ LeadScorer.configured_exclusions exclusion_list →
  (∃ l r, lower (Company.name (Lead.company lead)) = l ++ lower e ++ r) →
  LeadScorer.score (LeadScorer.init qualification_threshold exclusion_list) lead
  = Lead.set_qualification
      {| Qualification.score := 0;
         Qualification.qualified := false;
         Qualification.fit_notes :=
           Some (lit "Excluded: Company is in exclusion list");
         Qualification.scoring_breakdown := [(lit "excluded", BBool true)] |}
      lead.
Proof.
  intros He Hocc. apply ScorerFacts.score_excluded.
  unfold LeadScorer._is_excluded, LeadScorer.init. simpl.
  by eapply ScorerFacts.existsb_contains_lower.
Qed.

(** An excluded name on an otherwise perfect lead. *)
Lemma excluded_company_scores_zero_witness :
  Qualification.score (Lead.qualification
    (LeadScorer.score LeadScorer.new Examples.lead_excluded)) = 0
  ∧ Qualification.qualified (Lead.qualification
      (LeadScorer.score LeadScorer.new Examples.lead_excluded)) = false.
Proof.
  unfold LeadScorer.new.
  rewrite (excluded_company_scores_zero Constants.QUALIFICATION_THRESHOLD None
             Examples.lead_excluded (lit "zenni")).
  - split; reflexivity.
  - vm_compute. do 3 right. left.
  - exists [], (lit " optical outlet"). vm_compute. reflexivity.
Defined.

(** C5.  The score is a non-negative integer, the sum of the weights of the
    awarded criteria (none for an excluded company, the satisfied ones
    otherwise), at most the sum of all the configured weights; the two
    company-size criteria are never awarded together. *)
Theorem score_is_sum_of_awarded_weights (self : LeadScorer.t) (lead : Lead.t) :
  let score := Qualification.score (Lead.qualification (LeadScorer.score self lead)) in
  0 ≤ score
  ∧ score = sum_weights (awarded self lead)
  ∧ score ≤ total_weight
  ∧ ¬ (company_size_sweet_spot ∈ awarded self lead
       ∧ company_size_good ∈ awarded self lead).
Proof.
  cbv zeta.
  assert (Qualification.score (Lead.qualification (LeadScorer.score self lead))
          = sum_weights (awarded self lead)) as ->.
  { unfold awarded.
    destruct (LeadScorer._is_excluded self _) eqn:E.
    - by rewrite ScorerFacts.score_excluded.
    - rewrite ScorerFacts.score_tally by done. apply ScorerFacts.tally_sum. }
  unfold awarded. destruct (LeadScorer._is_excluded self _).
  - repeat split; [done | done | intros [H _]; by apply elem_of_nil in H].
  - pose proof (ScorerFacts.sum_weights_filter (satisfied lead) all_criteria) as [H0 H1].
    rewrite <- ScorerFacts.total_weight_sum in H1.
    repeat split; [done | done |].
    intros [Hs Hg]. apply list_elem_of_In, filter_In in Hs as [_ Hs].
    apply list_elem_of_In, filter_In in Hg as [_ Hg].
    apply ScorerFacts.sizes_exclusive in Hs. congruence.
Qed.

(** C6.  For a company that is not excluded, [qualified] holds exactly when
    the score reaches the threshold: it holds at the threshold and fails
    one point below. *)
Theorem qualified_iff_threshold_reached (self : LeadScorer.t) (lead : Lead.t) :
  LeadScorer._is_excluded self (Company.name (Lead.company lead)) = false →
  let q := Lead.qualification (LeadScorer.score self lead) in
  (Qualification.qualified q = true ↔ LeadScorer.threshold self ≤ Qualification.score q)
  ∧ (Qualification.score q = LeadScorer.threshold self →
     Qualification.qualified q = true)
  ∧ (Qualification.score q = LeadScorer.threshold self - 1 →
     Qualification.qualified q = false).
Proof.
  intros H. rewrite ScorerFacts.score_tally by done.
  cbn [Lead.qualification Lead.set_qualification Qualification.qualified
       Qualification.score].
  split; [apply Z.leb_le|]. split.
  - intros <-. apply Z.leb_refl.
  - intros E. apply Z.leb_gt. lia.
Qed.

(** A lead of 50 points against the thresholds 50 and 51. *)
Lemma qualified_iff_threshold_reached_witness :
  Qualification.score (Lead.qualification
    (LeadScorer.score LeadScorer.new Examples.lead_fifty)) = 50
  ∧ Qualification.qualified (Lead.qualification
      (LeadScorer.score LeadScorer.new Examples.lead_fifty)) = true
  ∧ Qualification.qualified (Lead.qualification
      (LeadScorer.score (LeadScorer.init 51 None) Examples.lead_fifty)) = false.
Proof.
  split; [vm_compute; reflexivity|]. split.
  - apply (qualified_iff_threshold_reached LeadScorer.new Examples.lead_fifty);
      vm_compute; reflexivity.
  - apply (qualified_iff_threshold_reached (LeadScorer.init 51 None)
             Examples.lead_fifty); vm_compute; reflexivity.
Defined.

(** C7.  When the verification of a URL gives another platform than
    Shopify, [process_url] returns no lead and ends in the state the
    verification left (or, on a cache hit, in the state it started in):
    nothing is called afterwards and the cache dict is the one it was. *)
Theorem non_shopify_url_is_dropped (env : Env.t) (url : str)
    (segment : option Segment) (skip_validation force : bool)
    (st st1 : state) (v : Verification) :
  verify env url st = (Ok v, st1) →
  platform v ≠ SHOPIFY →
  process_url env url segment skip_validation force st
    = (Ok None,
       if negb force && DeduplicationCache.is_processed (cache st) url
       then st else st1)
  ∧ cache st1 = cache st.
Proof.
  intros Hv Hp. split; [|by eapply VerifierFacts.verify_keeps].
  unfold process_url, bind at 1. unfold get_cache.
  destruct (negb force && _); [done|].
  unfold bind at 1. rewrite Hv.
  destruct (platform v); done.
Qed.

(** An unreachable host, asked for with a segment that would be validated:
    the two requests of the verification are the only calls. *)
Lemma non_shopify_url_is_dropped_witness :
  process_url Examples.env_down (lit "shop.example") (Some EYEWEAR) false false
    Examples.st0
  = (Ok None,
     {| cache := ∅;
        calls := [ HttpGet (lit "https://shop.example/products.json");
                   HttpGet (lit "https://shop.example") ] |}).
Proof.
  refine (proj1 (non_shopify_url_is_dropped Examples.env_down (lit "shop.example")
                   (Some EYEWEAR) false false Examples.st0 _
                   {| is_shopify := false; platform := CUSTOM;
                      store_url := lit "https://shop.example";
                      detection_method := None; error := None |} _ _)).
  - vm_compute. reflexivity.
  - discriminate.
Defined.

(** C8.  A run of [process_url] that returns a lead went through the
    company [c0] built in step 4 from the store page, the company [c1]
    that the domain search of step 5 made of it and the company [c2] that
    the LinkedIn enrichment of step 6 made of that; the lead that is scored
    and returned carries [c2] after the fallback on the suffix of the host.
    Whichever of the three has a country, the lead has that country: no later
    source replaces it. *)
Theorem country_kept_once_set (env : Env.t) (url : str) (segment : option Segment)
    (skip_validation force : bool) (st st' : state) (lead : Lead.t) :
  process_url env url segment skip_validation force st = (Ok (Some lead), st') →
  ∃ c0 c1 c2 s,
    run_to_step6 env url segment skip_validation force st c0 c1 c2 s
    ∧ Lead.company lead = aggregate_country env url c2
    ∧ (truthy (Company.country c0) = true →
       Company.country (Lead.company lead) = Company.country c0)
    ∧ (truthy (Company.country c1) = true →
       Company.country (Lead.company lead) = Company.country c1)
    ∧ (truthy (Company.country c2) = true →
       Company.country (Lead.company lead) = Company.country c2).
Proof.
  intros H. apply PipelineFacts.process_url_steps in H as (c0 & c1 & c2 & s & Hr & E).
  exists c0, c1, c2, s. split; [done|]. split; [done|]. rewrite E.
  by apply (PipelineFacts.run_to_step6_kept env _ _ _ _ _ _ _ _ _ Hr).
Qed.

(** On [shop.de] the company built from the store page has ["DE"], which
    the lead keeps although LinkedIn gives the United States. *)
Lemma country_kept_once_set_witness :
  linkedin_country Examples.linkedin_us = Some (lit "US")
  ∧ match process_url Examples.env_shop (lit "shop.de") None false false
            Examples.st0 with
    | (Ok (Some lead), _) =>
        ∃ c0 c1 c2 s,
          run_to_step6 Examples.env_shop (lit "shop.de") None false false
            Examples.st0 c0 c1 c2 s
          ∧ Company.country c0 = Some (lit "DE")
          ∧ Company.country (Lead.company lead) = Some (lit "DE")
    | _ => False
    end.
Proof.
  split; [reflexivity|].
  destruct (process_url Examples.env_shop (lit "shop.de") None false false
              Examples.st0) as [[[lead|]|e] st'] eqn:E;
    [| vm_compute in E; discriminate E..].
  destruct (country_kept_once_set _ _ _ _ _ _ _ _ E)
    as (c0 & c1 & c2 & s & Hr & _ & H0 & _).
  exists c0, c1, c2, s. split; [done|].
  assert (Company.country c0 = Some (lit "DE")) as E0.
  { destruct (PipelineFacts.run_to_step6_countries _ _ _ _ _ _ _ _ _ _ Hr)
      as (-> & _).
    vm_compute. reflexivity. }
  split; [done|]. rewrite H0; rewrite E0; done.
Defined.

(** C9, what the code does when no fetch succeeds: the two helpers of
    [verify] catch the exception themselves, so [verify] reports the
    platform as custom and leaves the error field empty. *)
Theorem verify_fetch_errors_yield_custom (env : Env.t) (url : str) (st : state) :
  (∀ u, ∃ e, Env.http_get env u = FetchError e) →
  ∃ st',
    verify env url st =
      (Ok {| is_shopify := false; platform := CUSTOM;
             store_url := ensure_scheme url;
             detection_method := None; error := None |}, st').
Proof.
  intros Hdown.
  assert (∀ u s, ∃ e s', client_get env u s = (Raise e, s')) as Hget.
  { intros u s. destruct (Hdown u) as [e He]. unfold client_get, bind, call.
    rewrite He. unfold raise. eauto. }
  assert (∀ s, ∃ s', _check_products_json env (ensure_scheme url) s = (Ok false, s'))
    as Hjson.
  { intros s. unfold _check_products_json, try_except, bind, py_urljoin.
    destruct (Env.urljoin env _ _) as [u|]; unfold ret, raise; [|eauto].
    destruct (Hget u s) as (e & s' & ->). eauto. }
  assert (∀ s, ∃ s', _check_page_source env (ensure_scheme url) s = (Ok None, s'))
    as Hsrc.
  { intros s. unfold _check_page_source, try_except, bind.
    destruct (Hget (ensure_scheme url) s) as (e & s' & ->). unfold ret. eauto. }
  unfold verify, try_except, bind.
  destruct (Hjson st) as (s1 & ->). destruct (Hsrc s1) as (s2 & ->).
  simpl. unfold ret. eauto.
Qed.

(** An unreachable host. *)
Lemma verify_fetch_errors_yield_custom_witness :
  ∃ st',
    verify Examples.env_down (lit "shop.example") Examples.st0 =
      (Ok {| is_shopify := false; platform := CUSTOM;
             store_url := lit "https://shop.example";
             detection_method := None; error := None |}, st').
Proof.
  apply (verify_fetch_errors_yield_custom Examples.env_down (lit "shop.example")
           Examples.st0).
  intros u. exists (RequestError (lit "connection refused")). reflexivity.
Defined.

(** C10.  The record built from the first Hunter.io contact has
    [email_verified] set exactly when the confidence is above 80, and
    building it calls nothing; a contact without a confidence raises and
    gives no record.  The stages after it leave the lead alone, and when
    the record has an e-mail and is verified, step 8 and
    [enrich_decision_maker] return it unchanged without a call. *)
Theorem hunter_contact_verified_by_confidence (env : Env.t) (v : Verification)
    (info : StoreInfo.t) (hunter : HunterResult.t) (dm_data : HunterContact.t)
    (rest : list HunterContact.t) (lead : Lead.t) (domain : str) (st : state) :
  Lead.decision_maker lead = None →
  HunterResult.decision_makers hunter = dm_data :: rest →
  match HunterContact.confidence dm_data with
  | None => ∃ e, strategy2_hunter (Some hunter) lead st = (Raise e, st)
  | Some confidence =>
      let dm :=
        {| DecisionMaker.name := HunterContact.name dm_data;
           DecisionMaker.title := HunterContact.title dm_data;
           DecisionMaker.linkedin_url := None;
           DecisionMaker.email := HunterContact.email dm_data;
           DecisionMaker.email_verified := 80 <? confidence;
           DecisionMaker.phone := None;
           DecisionMaker.location := None |} in
      let lead' := Lead.set_decision_maker (Some dm) lead in
      strategy2_hunter (Some hunter) lead st = (Ok lead', st)
      ∧ (DecisionMaker.email_verified dm = true ↔ 80 < confidence)
      ∧ strategy3_website env v lead' st = (Ok lead', st)
      ∧ strategy4_store_email info lead' = lead'
      ∧ (truthy (DecisionMaker.email dm) = true → 80 < confidence →
         step8_email env domain lead' st = (Ok lead', st)
         ∧ EmailFinder.enrich_decision_maker env dm domain st = (Ok dm, st))
  end.
Proof.
  intros Hnone Hdms.
  unfold strategy2_hunter, no_decision_maker, dm_of_hunter. rewrite Hnone, Hdms.
  destruct (HunterContact.confidence dm_data) as [k|]; [|unfold raise; eauto].
  cbv zeta. split; [done|]. split; [apply Z.ltb_lt|].
  split; [done|]. split; [done|].
  intros He Hk. apply Z.ltb_lt in Hk.
  unfold step8_email, EmailFinder.enrich_decision_maker.
  cbn [Lead.decision_maker Lead.set_decision_maker DecisionMaker.email
       DecisionMaker.email_verified] in *.
  by rewrite He, Hk.
Qed.

(** A contact of confidence 95 with an e-mail. *)
Lemma hunter_contact_verified_by_confidence_witness :
  let lead := Examples.lead_of Examples.company_on_linkedin None in
  ∃ dm,
    strategy2_hunter (Some Examples.hunter_ann) lead Examples.st0
      = (Ok (Lead.set_decision_maker (Some dm) lead), Examples.st0)
    ∧ DecisionMaker.email_verified dm = true
    ∧ step8_email Examples.env_shop (lit "shop.com")
        (Lead.set_decision_maker (Some dm) lead) Examples.st0
      = (Ok (Lead.set_decision_maker (Some dm) lead), Examples.st0).
Proof.
  intros lead.
  pose proof (hunter_contact_verified_by_confidence Examples.env_shop
                Examples.verification_shop StoreInfo.empty Examples.hunter_ann
                _ [] lead (lit "shop.com") Examples.st0 eq_refl eq_refl) as H.
  cbn [HunterContact.confidence] in H. cbv zeta in H.
  destruct H as (H2 & _ & _ & _ & H8).
  eexists. split; [exact H2|]. split; [reflexivity|].
  apply H8; [reflexivity | lia].
Defined.


(** * Further properties of the code *)

(** ** Lemmas *)

Module TrimFacts.
Import PyStrFacts NormalizeSpec.

Lemma lstrip_blank s : blank s = true → lstrip s = [].
Proof.
  induction s as [|c s IH]; [done|]. simpl.
  intros H. apply andb_true_iff in H as [-> H]. auto.
Qed.

Lemma lstrip_app s t :
  lstrip (s ++ t) = if blank s then lstrip t else lstrip s ++ t.
Proof.
  induction s as [|c s IH]; [done|]. simpl.
  destruct (is_space c); simpl; [apply IH | done].
Qed.

Lemma blank_rev s : blank (rev s) = blank s.
Proof.
  unfold blank. induction s as [|c s IH]; [done|]. simpl.
  rewrite forallb_app, IH. simpl. rewrite andb_true_r. apply andb_comm.
Qed.

Lemma leading_lstrip s : s = leading s ++ lstrip s.
Proof.
  induction s as [|c s IH]; [done|]. simpl.
  destruct (is_space c); simpl; [by rewrite <- IH | done].
Qed.

Lemma leading_blank s : blank (leading s) = true.
Proof.
  induction s as [|c s IH]; [done|]. simpl.
  destruct (is_space c) eqn:E; simpl; [by rewrite E | done].
Qed.

Lemma replace_go_blank old a w t :
  is_space a = false → blank w = true →
  replace_go (a :: old) 0 (w ++ t) = w ++ replace_go (a :: old) 0 t.
Proof.
  intros Ha. induction w as [|c w IH]; [done|]. simpl.
  intros B. apply andb_true_iff in B as [Hc B].
  destruct (Ascii.eqb a c) eqn:E.
  - apply Ascii.eqb_eq in E as ->. congruence.
  - simpl. by rewrite IH.
Qed.

Lemma before_blank c w t :
  is_space c = false → blank w = true → before c (w ++ t) = w ++ before c t.
Proof.
  intros Hc. induction w as [|a w IH]; [done|]. simpl.
  intros B. apply andb_true_iff in B as [Ha B].
  destruct (Ascii.eqb c a) eqn:E.
  - apply Ascii.eqb_eq in E as ->. congruence.
  - by rewrite IH.
Qed.

Lemma strip_blank_app w t : blank w = true → strip (w ++ t) = strip t.
Proof. intros B. unfold strip. by rewrite lstrip_app, B. Qed.

End TrimFacts.

Module NormalizeFacts.
Import PyStrFacts NormalizeSpec TrimFacts DeduplicationCache.

Lemma normalize_url_core url : normalize_url url = core (strip (lower url)).
Proof.
  unfold normalize_url, core, cut, removals.
  change (lit "/") with ["/"%char]; change (lit "?") with ["?"%char];
  change (lit "#") with ["#"%char]. by rewrite !split_first_single.
Qed.

Lemma core_blank w t : blank w = true → core (w ++ t) = core t.
Proof.
  intros B. unfold core, cut, removals, remove_all.
  change (lit "https://") with ("h"%char :: lit "ttps://").
  change (lit "http://") with ("h"%char :: lit "ttp://").
  change (lit "www.") with ("w"%char :: lit "ww.").
  rewrite !replace_go_blank, !before_blank by done.
  by apply strip_blank_app.
Qed.

Lemma core_lstrip y : core (lstrip y) = core y.
Proof.
  rewrite (leading_lstrip y) at 2. by rewrite core_blank by apply leading_blank.
Qed.

Lemma core_prefix q y :
  q ∈ [lit "https://"; lit "http://"; lit "www."] → core (q ++ y) = core y.
Proof.
  intros H. unfold core.
  repeat (apply elem_of_cons in H as [->|H]); [reflexivity..|].
  by apply elem_of_nil in H.
Qed.

End NormalizeFacts.

Module SeparatorFacts.
Import PyStrFacts NormalizeSpec TrimFacts NormalizeFacts DeduplicationCache.

Lemma startswith_length p s : startswith p s = true → (length p ≤ length s)%nat.
Proof.
  intros H. apply startswith_prefix in H as [r ->]. rewrite length_app. lia.
Qed.

Lemma startswith_sep pat c s t :
  c ∉ pat → startswith pat (s ++ c :: t) = startswith pat s.
Proof.
  revert s. induction pat as [|a pat IH]; intros s Hc; [by destruct s|].
  apply not_elem_of_cons in Hc as [Hne Hc].
  destruct s as [|b s]; simpl.
  - destruct (Ascii.eqb a c) eqn:E; [|done]. apply Ascii.eqb_eq in E. congruence.
  - by rewrite IH.
Qed.

(** A character that does not occur in the pattern cuts the search in
    two. *)
Lemma replace_go_sep pat c t : pat ≠ [] → c ∉ pat → ∀ s n,
  (n ≤ length s)%nat →
  replace_go pat n (s ++ c :: t) = replace_go pat n s ++ c :: replace_go pat 0 t.
Proof.
  intros Hp Hc. induction s as [|x s IH]; intros n Hn.
  - assert (n = 0%nat) as -> by (simpl in Hn; lia). simpl.
    destruct pat as [|a pat]; [done|]. apply not_elem_of_cons in Hc as [Hne _].
    simpl. destruct (Ascii.eqb a c) eqn:E; [|done].
    apply Ascii.eqb_eq in E. congruence.
  - destruct n as [|n]; simpl in *.
    + change (x :: s ++ c :: t) with ((x :: s) ++ c :: t).
      rewrite (startswith_sep pat c (x :: s) t Hc).
      destruct (startswith pat (x :: s)) eqn:E.
      * apply IH. apply startswith_length in E. simpl in E. lia.
      * by rewrite IH by lia.
    + apply IH. lia.
Qed.

Lemma remove_all_sep pat c s t :
  pat ≠ [] → c ∉ pat →
  remove_all pat (s ++ c :: t) = remove_all pat s ++ c :: remove_all pat t.
Proof. intros Hp Hc. unfold remove_all. apply replace_go_sep; [done..|lia]. Qed.

(** Where no occurrence starts, nothing is removed. *)
Lemma replace_go_no_match pat t s :
  (∀ l r, s = l ++ r → r ≠ [] → startswith pat (r ++ t) = false) →
  replace_go pat 0 (s ++ t) = s ++ replace_go pat 0 t.
Proof.
  induction s as [|x s IH]; intros H; [done|]. simpl.
  change (x :: s ++ t) with ((x :: s) ++ t). rewrite (H [] (x :: s)) by done.
  rewrite IH; [done|]. intros l r -> Hr. by apply (H (x :: l) r).
Qed.

Lemma no_scheme_before_slash pat r t :
  pat ∈ [lit "https://"; lit "http://"] → ":"%char ∉ r →
  startswith pat (r ++ "/"%char :: t) = false.
Proof.
  intros Hpat Hr. destruct (startswith pat _) eqn:E; [|done]. exfalso.
  apply startswith_prefix in E as [q E].
  apply elem_of_cons in Hpat as [->|Hpat];
    [|apply elem_of_cons in Hpat as [->|Hpat]; [|by apply elem_of_nil in Hpat]].
  - destruct r as [|x1 [|x2 [|x3 [|x4 [|x5 [|x6 r]]]]]]; try discriminate E.
    injection E as -> -> -> -> -> -> _. apply Hr.
    do 5 apply list_elem_of_further. apply list_elem_of_here.
  - destruct r as [|x1 [|x2 [|x3 [|x4 [|x5 r]]]]]; try discriminate E.
    injection E as -> -> -> -> -> _. apply Hr.
    do 4 apply list_elem_of_further. apply list_elem_of_here.
Qed.

Lemma remove_scheme_before_slash pat a b :
  pat ∈ [lit "https://"; lit "http://"] → ":"%char ∉ a →
  remove_all pat (a ++ "/"%char :: b) = a ++ "/"%char :: remove_all pat b
  ∧ remove_all pat a = a.
Proof.
  intros Hpat Ha. split.
  - unfold remove_all.
    rewrite (replace_go_no_match pat ("/"%char :: b) a).
    + f_equal. assert (startswith pat ("/"%char :: b) = false) as E.
      { apply (no_scheme_before_slash pat [] b Hpat). apply not_elem_of_nil. }
      simpl. simpl in E. by rewrite E.
    + intros l r -> _. apply no_scheme_before_slash; [done|].
      intros H. apply Ha, elem_of_app. by right.
  - apply remove_all_id, (contains_absent_char ":"%char); [|done].
    repeat (apply elem_of_cons in Hpat as [->|Hpat]);
      [| |by apply elem_of_nil in Hpat].
    + do 5 apply list_elem_of_further. apply list_elem_of_here.
    + do 4 apply list_elem_of_further. apply list_elem_of_here.
Qed.

Lemma core_unfold y : core y = strip (cut (removals y)).
Proof. reflexivity. Qed.

Lemma removals_sep c a b :
  c ∈ ["/"; "?"; "#"]%char → (c = "/"%char → ":"%char ∉ a) →
  ∃ b', removals (a ++ c :: b) = removals a ++ c :: b'.
Proof.
  intros Hc Ha. unfold removals.
  assert (c ∉ lit "www.") as Hw.
  { intros H. repeat (apply elem_of_cons in Hc as [->|Hc]);
      [| | |by apply elem_of_nil in Hc];
      repeat (apply elem_of_cons in H as [H|H]; [discriminate H|]);
      by apply elem_of_nil in H. }
  destruct (decide (c = "/"%char)) as [->|Hne].
  - specialize (Ha eq_refl).
    destruct (remove_scheme_before_slash (lit "https://") a b) as [-> ->];
      [apply list_elem_of_here | done |].
    destruct (remove_scheme_before_slash (lit "http://") a
                (remove_all (lit "https://") b)) as [-> ->];
      [apply list_elem_of_further, list_elem_of_here | done |].
    rewrite remove_all_sep by done. eauto.
  - assert ((c ∉ lit "https://") ∧ (c ∉ lit "http://")) as [H1 H2].
    { split; intros H;
        repeat (apply elem_of_cons in Hc as [->|Hc]);
        try (by apply elem_of_nil in Hc); try done;
        repeat (apply elem_of_cons in H as [H|H]; [discriminate H|]);
        by apply elem_of_nil in H. }
    rewrite !remove_all_sep by done. eauto.
Qed.

Lemma before_app_sep c u v : before c (u ++ c :: v) = before c u.
Proof.
  induction u as [|a u IH]; simpl; [by rewrite Ascii.eqb_refl|].
  destruct (Ascii.eqb c a); [done|]. by rewrite IH.
Qed.

Lemma before_app c u v :
  before c (u ++ v) = if bool_decide (c ∈ u) then before c u else u ++ before c v.
Proof.
  induction u as [|a u IH]; cbn [before app].
  - rewrite bool_decide_eq_false_2; [done|]. apply not_elem_of_nil.
  - destruct (Ascii.eqb c a) eqn:E.
    + apply Ascii.eqb_eq in E as ->.
      rewrite bool_decide_eq_true_2; [done|]. apply list_elem_of_here.
    + rewrite IH. assert (c ≠ a) as Hne by (intros ->; by rewrite Ascii.eqb_refl in E).
      destruct (decide (c ∈ u)) as [Hin|Hin].
      * rewrite !bool_decide_eq_true_2; [done| |done]. by apply list_elem_of_further.
      * rewrite !bool_decide_eq_false_2; [done| |done].
        intros H. apply elem_of_cons in H as [H|H]; done.
Qed.

Lemma before_before_sep c d u v :
  before d (before c (u ++ d :: v)) = before d (before c u).
Proof.
  rewrite before_app. case_bool_decide as Hin; [done|].
  rewrite (before_id c u Hin). simpl.
  destruct (Ascii.eqb c d); [by rewrite app_nil_r|].
  apply before_app_sep.
Qed.

Lemma cut_sep c u v : c ∈ ["/"; "?"; "#"]%char → cut (u ++ c :: v) = cut u.
Proof.
  intros Hc. unfold cut.
  apply elem_of_cons in Hc as [->|Hc];
    [|apply elem_of_cons in Hc as [->|Hc];
      [|apply elem_of_cons in Hc as [->|Hc]; [|by apply elem_of_nil in Hc]]].
  - by rewrite before_app_sep.
  - by rewrite before_before_sep.
  - rewrite before_app. case_bool_decide as Hin; [done|].
    rewrite (before_id _ u Hin). simpl.
    apply (before_before_sep "?"%char "#"%char).
Qed.

Lemma core_sep c a b :
  c ∈ ["/"; "?"; "#"]%char → (c = "/"%char → ":"%char ∉ a) →
  core (a ++ c :: b) = core a.
Proof.
  intros Hc Ha. rewrite !core_unfold.
  destruct (removals_sep c a b Hc Ha) as [b' ->]. by rewrite cut_sep.
Qed.

Lemma rstrip_trailing s : s = rstrip s ++ trailing s.
Proof.
  unfold rstrip, trailing. rewrite <- rev_app_distr, <- leading_lstrip.
  by rewrite rev_involutive.
Qed.

Lemma trailing_blank s : blank (trailing s) = true.
Proof. unfold trailing. rewrite blank_rev. apply leading_blank. Qed.

Lemma replace_go_of_blank a old w :
  is_space a = false → blank w = true → replace_go (a :: old) 0 w = w.
Proof.
  intros Ha B. pose proof (replace_go_blank old a w [] Ha B) as H.
  by rewrite !app_nil_r in H.
Qed.

Lemma blank_absent c w : is_space c = false → blank w = true → c ∉ w.
Proof.
  intros Hc B Hin. unfold blank in B. rewrite forallb_forall in B.
  apply list_elem_of_In in Hin. apply B in Hin. congruence.
Qed.

Lemma remove_all_blank_r a old s w :
  is_space a = false → Forall (λ c, is_space c = false) old → blank w = true →
  remove_all (a :: old) (s ++ w) = remove_all (a :: old) s ++ w.
Proof.
  intros Ha Hold B. destruct w as [|c w]; [by rewrite !app_nil_r|].
  simpl in B. apply andb_true_iff in B as [Hc B].
  rewrite remove_all_sep; [|done|].
  - unfold remove_all. by rewrite (replace_go_of_blank a old w).
  - intros H. apply elem_of_cons in H as [->|H]; [congruence|].
    rewrite Forall_forall in Hold. apply Hold in H. congruence.
Qed.

Lemma removals_blank_r s w : blank w = true → removals (s ++ w) = removals s ++ w.
Proof.
  intros B. unfold removals.
  change (lit "https://") with ("h"%char :: lit "ttps://").
  change (lit "http://") with ("h"%char :: lit "ttp://").
  change (lit "www.") with ("w"%char :: lit "ww.").
  rewrite !remove_all_blank_r; try done; by repeat constructor.
Qed.

Lemma before_blank_r c s w :
  is_space c = false → blank w = true →
  ∃ w', blank w' = true ∧ before c (s ++ w) = before c s ++ w'.
Proof.
  intros Hc B. rewrite before_app. case_bool_decide as Hin.
  - exists []. by rewrite app_nil_r.
  - exists w. split; [done|]. rewrite (before_id c s Hin).
    by rewrite (before_id c w (blank_absent c w Hc B)).
Qed.

Lemma cut_blank_r s w :
  blank w = true → ∃ w', blank w' = true ∧ cut (s ++ w) = cut s ++ w'.
Proof.
  intros B. unfold cut.
  destruct (before_blank_r "/"%char s w eq_refl B) as (w1 & B1 & ->).
  destruct (before_blank_r "?"%char (before "/" s) w1 eq_refl B1) as (w2 & B2 & ->).
  destruct (before_blank_r "#"%char (before "?" (before "/" s)) w2 eq_refl B2)
    as (w3 & B3 & ->).
  eauto.
Qed.

Lemma rstrip_blank_r s w : blank w = true → rstrip (s ++ w) = rstrip s.
Proof.
  intros B. unfold rstrip. rewrite rev_app_distr, lstrip_app, blank_rev, B. done.
Qed.

Lemma strip_blank_r s w : blank w = true → strip (s ++ w) = strip s.
Proof.
  intros B. unfold strip. rewrite lstrip_app.
  destruct (blank s) eqn:Bs.
  - by rewrite (lstrip_blank _ B), (lstrip_blank _ Bs).
  - by apply rstrip_blank_r.
Qed.

Lemma core_blank_r s w : blank w = true → core (s ++ w) = core s.
Proof.
  intros B. rewrite !core_unfold, (removals_blank_r _ _ B).
  destruct (cut_blank_r (removals s) w B) as (w' & B' & ->).
  by apply strip_blank_r.
Qed.

Lemma core_rstrip s : core (rstrip s) = core s.
Proof.
  rewrite (rstrip_trailing s) at 2. by rewrite core_blank_r by apply trailing_blank.
Qed.

(** The first [strip] of [normalize_url] changes nothing of the result. *)
Lemma normalize_url_lower url : normalize_url url = core (lower url).
Proof.
  rewrite normalize_url_core. unfold strip. by rewrite core_rstrip, core_lstrip.
Qed.

Lemma to_lower_colon a : to_lower a = ":"%char → a = ":"%char.
Proof. destruct a as [[] [] [] [] [] [] [] []]; by intros [=]. Qed.

Lemma to_lower_fixes c : c ∈ ["/"; "?"; "#"]%char → to_lower c = c.
Proof.
  intros H. repeat (apply elem_of_cons in H as [->|H]); [done..|].
  by apply elem_of_nil in H.
Qed.

Lemma lower_no_colon s : ":"%char ∉ s → ":"%char ∉ lower s.
Proof.
  intros H Hin. apply H. unfold lower in Hin.
  apply list_elem_of_fmap in Hin as (a & Ha & Hin).
  symmetry in Ha. apply to_lower_colon in Ha. by subst.
Qed.

End SeparatorFacts.

Module CacheRoundTrip.
Import DeduplicationCache.

Lemma is_processed_lookup (cache : gmap str entry) url :
  is_processed cache url = true ↔ is_Some (cache !! normalize_url url).
Proof. unfold is_processed. apply bool_decide_eq_true. Qed.

Lemma is_processed_false (cache : gmap str entry) url :
  is_processed cache url = false ↔ cache !! normalize_url url = None.
Proof.
  unfold is_processed. rewrite bool_decide_eq_false, eq_None_not_Some. done.
Qed.

End CacheRoundTrip.

Module BreakdownFacts.
Import LeadScorer ScorerSpec BreakdownSpec ScorerFacts.

Lemma tally_breakdown (f : criterion → bool) :
  (tally f).1 = map breakdown_entry (List.filter f all_criteria).
Proof.
  unfold tally, all_criteria. cbn [foldl List.filter].
  destruct (f platform_shopify), (f company_size_sweet_spot), (f company_size_good),
    (f target_geography), (f ecommerce_presence), (f no_rx_eyewear),
    (f decision_maker_found), (f email_verified); vm_compute; reflexivity.
Qed.

Lemma score_qualified self lead :
  Qualification.qualified (Lead.qualification (score self lead)) = qualifies self lead.
Proof.
  unfold qualifies, awarded.
  destruct (_is_excluded self _) eqn:E.
  - by rewrite score_excluded.
  - rewrite score_tally by done. simpl. by rewrite tally_sum.
Qed.

Lemma satisfied_ext l l' c :
  Lead.company l' = Lead.company l → Lead.decision_maker l' = Lead.decision_maker l →
  satisfied l' c = satisfied l c.
Proof. intros E1 E2. destruct c; simpl; by rewrite ?E1, ?E2. Qed.

Lemma tally_ext f g : (∀ c, f c = g c) → tally f = tally g.
Proof.
  intros H. unfold tally, all_criteria. simpl.
  by rewrite !H.
Qed.

(** The qualification computed by [score] depends on the company and the
    decision maker only. *)
Lemma score_reads self l l' :
  Lead.company l' = Lead.company l → Lead.decision_maker l' = Lead.decision_maker l →
  Lead.qualification (score self l')
  = Lead.qualification (score self l).
Proof.
  intros E1 E2.
  destruct (_is_excluded self (Company.name (Lead.company l))) eqn:E.
  - rewrite !score_excluded by (by rewrite ?E1). done.
  - rewrite !score_tally by (by rewrite ?E1).
    rewrite (tally_ext _ _ (λ c, satisfied_ext l l' c E1 E2)). done.
Qed.

Lemma score_writes self l :
  score self l
  = Lead.set_qualification (Lead.qualification (score self l)) l.
Proof.
  destruct (_is_excluded self (Company.name (Lead.company l))) eqn:E.
  - by rewrite !score_excluded.
  - by rewrite !score_tally.
Qed.

Lemma score_fixed self l o :
  score self (Lead.set_outreach o (score self l))
  = Lead.set_outreach o (score self l).
Proof.
  rewrite (score_writes self (Lead.set_outreach o _)).
  rewrite (score_reads self l (Lead.set_outreach o (score self l))).
  - rewrite (score_writes self l) at 2 3. done.
  - rewrite (score_writes self l). done.
  - rewrite (score_writes self l). done.
Qed.

End BreakdownFacts.

Module RunFacts.
Import PipelineSpec BreakdownFacts.
Import ShopifyVerifier LeadGenerationPipeline VerifierFacts CountryFacts PipelineFacts.

Lemma bind_Raise {A B} (m : M A) (k : A → M B) st e st' :
  bind m k st = (Raise e, st') ↔
  m st = (Raise e, st') ∨ ∃ a st1, m st = (Ok a, st1) ∧ k a st1 = (Raise e, st').
Proof.
  unfold bind. split.
  - destruct (m st) as [[a|e'] st1]; intros H; [right; eauto | left; by injection H as -> ->].
  - intros [-> | (a & st1 & -> & H)]; done.
Qed.

Lemma returns_Raise {A} (m : M A) st e st' : returns m → m st ≠ (Raise e, st').
Proof. intros H E. destruct (H st) as (a & s & E'). congruence. Qed.

Section WithEnv.
Context (env : Env.t).

Lemma step2_keeps segment skip v : keeps_cache (step2_validate env segment skip v).
Proof. unfold step2_validate. auto 8 with eff. Qed.

Lemma step2_returns segment skip v : returns (step2_validate env segment skip v).
Proof. unfold step2_validate. auto 8 with eff. Qed.

Lemma domain_search_keeps domain limit :
  keeps_cache (EmailFinder.domain_search env domain limit).
Proof. unfold EmailFinder.domain_search. auto 8 with eff. Qed.

Lemma step5_keeps domain lead : keeps_cache (step5_hunter env domain lead).
Proof.
  unfold step5_hunter. pose proof domain_search_keeps. auto 8 with eff.
Qed.

Lemma step5_returns domain lead : returns (step5_hunter env domain lead).
Proof. unfold step5_hunter. auto 8 with eff. Qed.

Lemma enrich_company_keeps c : keeps_cache (LinkedInFinder.enrich_company env c).
Proof.
  unfold LinkedInFinder.enrich_company, LinkedInFinder.find_company.
  auto 10 with eff.
Qed.

Lemma enrich_company_returns c : returns (LinkedInFinder.enrich_company env c).
Proof.
  unfold LinkedInFinder.enrich_company, LinkedInFinder.find_company.
  auto 10 with eff.
Qed.

Lemma step6_keeps lead : keeps_cache (step6_linkedin env lead).
Proof. unfold step6_linkedin. pose proof enrich_company_keeps. auto with eff. Qed.

Lemma step6_returns lead : returns (step6_linkedin env lead).
Proof. unfold step6_linkedin. pose proof enrich_company_returns. auto with eff. Qed.

Lemma linkedin_dms_keeps c n :
  keeps_cache (LinkedInFinder.find_decision_makers env c n).
Proof.
  unfold LinkedInFinder.find_decision_makers, LinkedInFinder.find_employees.
  auto 10 with eff.
Qed.

Lemma strategy1_keeps lead : keeps_cache (strategy1_linkedin env lead).
Proof. unfold strategy1_linkedin. pose proof linkedin_dms_keeps. auto 8 with eff. Qed.

Lemma strategy1_returns lead : returns (strategy1_linkedin env lead).
Proof. unfold strategy1_linkedin. auto with eff. Qed.

Lemma strategy2_keeps hunter lead : keeps_cache (strategy2_hunter hunter lead).
Proof. unfold strategy2_hunter. auto 10 with eff. Qed.

Lemma scan_team_pages_keeps url paths : ∀ dms,
  keeps_cache (AlternativeSourceFinder.scan_team_pages env url paths dms).
Proof.
  induction paths as [|p paths IH]; intros dms; simpl; [auto with eff|].
  pose proof (client_get_keeps env). pose proof (py_urljoin_keeps env).
  unfold AlternativeSourceFinder._scrape_team_page. auto 10 with eff.
Qed.

Lemma website_keeps url :
  keeps_cache (AlternativeSourceFinder.find_decision_makers_from_website env url).
Proof.
  unfold AlternativeSourceFinder.find_decision_makers_from_website,
    AlternativeSourceFinder._find_from_schema.
  pose proof (client_get_keeps env). pose proof scan_team_pages_keeps.
  auto 10 with eff.
Qed.

Lemma strategy3_keeps v lead : keeps_cache (strategy3_website env v lead).
Proof. unfold strategy3_website. pose proof website_keeps. auto 8 with eff. Qed.

Lemma strategy3_returns v lead : returns (strategy3_website env v lead).
Proof. unfold strategy3_website. auto with eff. Qed.

Lemma step7_keeps v info hunter lead :
  keeps_cache (step7_decision_makers env v info hunter lead).
Proof.
  unfold step7_decision_makers.
  pose proof strategy1_keeps. pose proof strategy2_keeps. pose proof strategy3_keeps.
  auto 8 with eff.
Qed.

Lemma find_email_keeps domain name : keeps_cache (EmailFinder.find_email env domain name).
Proof. unfold EmailFinder.find_email. auto 12 with eff. Qed.

Lemma verify_email_keeps email : keeps_cache (EmailFinder.verify_email env email).
Proof. unfold EmailFinder.verify_email. auto 12 with eff. Qed.

Lemma enrich_dm_keeps dm domain :
  keeps_cache (EmailFinder.enrich_decision_maker env dm domain).
Proof.
  unfold EmailFinder.enrich_decision_maker.
  pose proof find_email_keeps. pose proof verify_email_keeps. auto 10 with eff.
Qed.

Lemma step8_keeps domain lead : keeps_cache (step8_email env domain lead).
Proof. unfold step8_email. pose proof enrich_dm_keeps. auto 10 with eff. Qed.

Lemma step8_returns domain lead : returns (step8_email env domain lead).
Proof. unfold step8_email. auto 10 with eff. Qed.

Lemma step10_keeps lead : keeps_cache (step10_outreach env lead).
Proof. unfold step10_outreach. auto 10 with eff. Qed.

Lemma step10_returns lead : returns (step10_outreach env lead).
Proof. unfold step10_outreach. auto 10 with eff. Qed.

Lemma mark_processed_run url id st :
  mark_processed env url id st
  = let marked :=
      DeduplicationCache.mark_processed (cache st) url id (Env.utcnow env) in
    match Env.mkdir_cache_dir env with
    | Ok _ => (Ok (), {| cache := marked; calls := calls st ++ [SaveCache] |})
    | Raise e => (Raise e, {| cache := marked; calls := calls st |})
    end.
Proof.
  unfold mark_processed, _save_cache, bind, get_cache, put_cache.
  by destruct (Env.mkdir_cache_dir env) as [[]|e].
Qed.

Lemma bind_run {A B} (m : M A) (k : A → M B) st r st' :
  bind m k st = (r, st') →
  (∃ e, m st = (Raise e, st') ∧ r = Raise e)
  ∨ ∃ a s1, m st = (Ok a, s1) ∧ k a s1 = (r, st').
Proof.
  unfold bind. destruct (m st) as [[a|e] s1]; intros H; [right; eauto|].
  left. exists e. by injection H as <- <-.
Qed.

Lemma same_store_refl c : same_store c c.
Proof. done. Qed.

Lemma same_store_trans c1 c2 c3 :
  same_store c1 c2 → same_store c2 c3 → same_store c1 c3.
Proof. intros (?&?&?&?) (?&?&?&?). repeat split; congruence. Qed.

Lemma fill_from_hunter_store h c : same_store c (fill_from_hunter h c).
Proof.
  unfold fill_from_hunter.
  destruct (HunterResult.company_name h) as [[|a n]|];
    [| destruct (negb (nonempty (Company.name c))) |];
    (destruct (truthy (HunterResult.country h) && _);
     destruct (truthy (HunterResult.industry h) && _); done).
Qed.

Lemma aggregate_country_store url c : same_store c (aggregate_country env url c).
Proof.
  unfold aggregate_country. destruct (negb _); [|done]. by destruct (truthy _).
Qed.

Lemma assign_employee_count_store d c c' :
  LinkedInFinder.assign_employee_count env d c = Ok c' → same_store c c'.
Proof.
  unfold LinkedInFinder.assign_employee_count.
  destruct (jval_truthy _); [|by intros [= <-]].
  destruct (LinkedInFinder.jval_or _ _) as [[s|z|r]|]; try (by intros [= <-]).
  destruct (Env.py_int env s); [by intros [= <-] | done].
Qed.

Lemma assign_founded_year_store d c :
  same_store c (LinkedInFinder.assign_founded_year env d c).
Proof.
  unfold LinkedInFinder.assign_founded_year. destruct (jval_truthy _); [|done].
  destruct (LinkedInFinder.jval_or _ _) as [v|]; [|done].
  by destruct (Env.py_int env _).
Qed.

Lemma assign_country_store d c : same_store c (LinkedInFinder.assign_country d c).
Proof.
  unfold LinkedInFinder.assign_country.
  destruct (negb (truthy (Company.country c))); [|done].
  destruct (LinkedInData.mainAddress d) as [|a|];
    (destruct (negb (truthy _)); [|done]);
    (destruct (LinkedInData.Headquarters d) as [hq|]; [|done]);
    (destruct (nonempty hq && _); [|done]); by destruct (_ =? _)%nat.
Qed.

Lemma assign_primary_domain_store d c :
  same_store c (LinkedInFinder.assign_primary_domain d c).
Proof.
  unfold LinkedInFinder.assign_primary_domain.
  destruct (py_or _ _) as [w|]; [destruct (nonempty w); [destruct (_ && _)|]|];
    cbn [Company.primary_domain Company.set_primary_domain Company.website];
    repeat match goal with |- context [if ?b then _ else _] => destruct b end;
    done.
Qed.

Lemma enrich_company_store c :
  ensures (LinkedInFinder.enrich_company env c) (λ r, same_store c r.1).
Proof.
  unfold LinkedInFinder.enrich_company. apply ensures_bind_any. intros [d|].
  - destruct (LinkedInFinder.assign_employee_count env d _) as [c1|e] eqn:E;
      apply ensures_ret; [|done]. simpl.
    apply assign_employee_count_store in E.
    eapply same_store_trans; [|apply assign_primary_domain_store].
    eapply same_store_trans; [|apply assign_country_store].
    eapply same_store_trans; [|apply assign_founded_year_store].
    destruct E as (?&?&?&?). done.
  - by apply ensures_ret.
Qed.

Lemma step5_same domain lead :
  ensures (step5_hunter env domain lead)
    (λ r, same_store (Lead.company lead) (Lead.company r.1)
          ∧ Lead.lead_id r.1 = Lead.lead_id lead).
Proof.
  unfold step5_hunter. pose proof fill_from_hunter_store.
  destruct (domain_usable domain); [|by apply ensures_ret].
  apply ensures_try; [|intros ?; by apply ensures_ret].
  apply ensures_bind_any. intros h. apply ensures_ret. simpl.
  split; [apply fill_from_hunter_store | done].
Qed.

Lemma step6_same lead :
  ensures (step6_linkedin env lead)
    (λ l, same_store (Lead.company lead) (Lead.company l)
          ∧ Lead.lead_id l = Lead.lead_id lead).
Proof.
  unfold step6_linkedin.
  eapply ensures_bind; [apply enrich_company_store|].
  intros r Hr. by apply ensures_ret.
Qed.

Lemma verify_shopify url :
  ensures (verify env url)
    (λ v, store_url v = ensure_scheme url
          ∧ (is_shopify_platform (platform v) = true → is_shopify v = true)).
Proof. unfold verify. auto 8 with eff. Qed.

Lemma build_company_store url segment v info :
  let c := build_company url segment v info in
  Company.website c = url ∧ Company.platform c = platform v
  ∧ Company.shopify_url c = (if is_shopify v then Some (store_url v) else None)
  ∧ Company.segment c = segment.
Proof.
  unfold build_company. by destruct (PyDict.get _ _) as [[|a l]|].
Qed.

Lemma step10_shape lead :
  ensures (step10_outreach env lead) (λ l, ∃ o, l = Lead.set_outreach o lead).
Proof.
  unfold step10_outreach.
  assert (∃ o, lead = Lead.set_outreach o lead)
    by (exists (Lead.outreach lead); by destruct lead).
  assert (∀ c, ∃ o, Lead.set_outreach (Some c) lead = Lead.set_outreach o lead) by eauto.
  auto 8 with eff.
Qed.

Lemma step7_raise v info hunter lead st e st' :
  step7_decision_makers env v info hunter lead st = (Raise e, st') →
  e = none_compared.
Proof.
  unfold step7_decision_makers. intros H.
  apply bind_Raise in H as [H | (l1 & s1 & _ & H)];
    [by apply returns_Raise in H; [|apply strategy1_returns] |].
  apply bind_Raise in H as [H | (l2 & s2 & _ & H)].
  - revert H. unfold strategy2_hunter.
    destruct (no_decision_maker l1); [|done].
    destruct hunter as [h|]; [|done].
    destruct (HunterResult.decision_makers h) as [|dm_data rest]; [done|].
    unfold dm_of_hunter. destruct (HunterContact.confidence dm_data); [done|].
    by intros [= <- <-].
  - apply bind_Raise in H as [H | (l3 & s3 & _ & H)]; [|done].
    by apply returns_Raise in H; [|apply strategy3_returns].
Qed.

(** The ways [process_url] can end: with a lead, without one, with the
    [TypeError] of strategy 2, or with the error of [mkdir] when the entry
    is already in the dict. *)
Lemma process_url_outcome url segment skip force st r st' :
  process_url env url segment skip force st = (r, st') →
  match r with
  | Ok (Some lead) => delivered env url segment st st' lead
  | Ok None => cache st' = cache st
  | Raise e =>
      (cache st' = cache st ∧ e = none_compared) ∨ unsaved env url st st' e
  end.
Proof.
  unfold process_url. intros H.
  apply bind_run in H as [(e & E & ->) | (c0 & s0 & E0 & H)]; [done|].
  injection E0 as <- <-.
  destruct (negb force && _); [by injection H as <- <-|].
  apply bind_run in H as [(e & E & ->) | (v & s1 & E1 & H)];
    [by apply returns_Raise in E; [|apply verify_returns] |].
  pose proof (verify_keeps env _ _ _ _ E1) as C1.
  destruct (negb (is_shopify_platform _)) eqn:Hp;
    [by injection H as <- <-|].
  apply bind_run in H as [(e & E & ->) | (valid & s2 & E2 & H)];
    [by apply returns_Raise in E; [|apply step2_returns] |].
  pose proof (step2_keeps _ _ _ _ _ _ E2) as C2.
  destruct (negb valid); [injection H as <- <-; congruence|].
  apply bind_run in H as [(e & E & ->) | (info & s3 & E3 & H)];
    [by apply returns_Raise in E; [|apply extract_store_info_returns] |].
  pose proof (extract_store_info_keeps env _ _ _ _ E3) as C3.
  apply bind_run in H as [(e & E & ->) | ([l1 hunter] & s4 & E4 & H)];
    [by apply returns_Raise in E; [|apply step5_returns] |].
  pose proof (step5_keeps _ _ _ _ _ E4) as C4.
  apply bind_run in H as [(e & E & ->) | (l2 & s5 & E5 & H)];
    [by apply returns_Raise in E; [|apply step6_returns] |].
  pose proof (step6_keeps _ _ _ _ E5) as C5.
  apply bind_run in H as [(e & E & ->) | (l3 & s6 & E6 & H)].
  { left. split; [|by eapply step7_raise].
    rewrite (step7_keeps _ _ _ _ _ _ _ E). congruence. }
  pose proof (step7_keeps _ _ _ _ _ _ _ E6) as C6.
  apply bind_run in H as [(e & E & ->) | (l4 & s7 & E7 & H)];
    [by apply returns_Raise in E; [|apply step8_returns] |].
  pose proof (step8_keeps _ _ _ _ _ E7) as C7.
  apply bind_run in H as [(e & E & ->) | (l5 & s8 & E8 & H)];
    [by apply returns_Raise in E; [|apply step10_returns] |].
  pose proof (step10_keeps _ _ _ _ E8) as C8.
  unfold bind in H. rewrite mark_processed_run in H. cbv zeta in H.
  apply verify_shopify in E1 as [Hurl Hshop].
  apply negb_false_iff in Hp. specialize (Hshop Hp).
  pose proof (build_company_store url segment v info) as (Bw & Bp & Bs & Bg).
  rewrite Hshop, Hurl in Bs.
  apply step5_same in E4 as [(W4 & P4 & S4 & G4) I4].
  apply step6_same in E5 as [(W5 & P5 & S5 & G5) I5].
  cbn [fst Lead.company Lead.lead_id new_lead] in *.
  pose proof (aggregate_country_store url (Lead.company l2)) as (W6 & P6 & S6 & G6).
  apply step7_same in E6 as [K7 I7]. apply step8_same in E7 as [K8 I8].
  pose proof (step10_shape _ _ _ _ E8) as [o Ho].
  apply step10_same in E8 as [K10 I10].
  destruct (score_same LeadScorer.new l4) as [K9 I9].
  cbn [Lead.company Lead.set_company Lead.lead_id] in *.
  assert (Lead.company l5 = aggregate_country env url (Lead.company l2)) as Kc
    by congruence.
  destruct (Env.mkdir_cache_dir env) as [[]|e] eqn:M; injection H as <- <-;
    [|right; split; [done|]; cbn [cache]; congruence].
  split.
  - cbn [cache]. congruence.
  - cbn [calls]. eauto.
  - congruence.
  - rewrite Kc. congruence.
  - rewrite Kc. destruct (platform v); try done. congruence.
  - rewrite Kc. congruence.
  - rewrite Kc. congruence.
  - rewrite Ho. apply score_fixed.
Qed.

Lemma mark_processed_keeps_entries (c : gmap str DeduplicationCache.entry) url id now u :
  DeduplicationCache.is_processed c u = true →
  DeduplicationCache.is_processed (DeduplicationCache.mark_processed c url id now) u
  = true.
Proof.
  unfold DeduplicationCache.is_processed, DeduplicationCache.mark_processed.
  rewrite !bool_decide_eq_true. intros H.
  destruct (decide (DeduplicationCache.normalize_url url
                    = DeduplicationCache.normalize_url u)) as [->|N].
  - rewrite lookup_insert_eq. eauto.
  - by rewrite lookup_insert_ne.
Qed.

Lemma process_urls_from_cons leads url urls force st :
  process_urls_from env leads (url :: urls) force st
  = let run := process_url env url None false force st in
    process_urls_from env
      (match run.1 with Ok (Some l) => leads ++ [l] | _ => leads end) urls force run.2.
Proof.
  cbn [process_urls_from]. unfold bind at 1, try_except, bind at 1.
  by destruct (process_url env url None false force st) as [[[lead|]|e] s1].
Qed.

Lemma process_urls_from_run urls force : ∀ leads st,
  ∃ found st',
    process_urls_from env leads urls force st = (Ok (leads ++ found), st')
    ∧ batch_ok urls st st' found.
Proof.
  induction urls as [|url urls IH]; intros leads st.
  - exists [], st. simpl. rewrite app_nil_r. repeat split; auto.
  - rewrite process_urls_from_cons.
    destruct (process_url env url None false force st) as [[[lead|]|e] s1] eqn:E;
      apply process_url_outcome in E; cbn [fst snd].
    + destruct (IH (leads ++ [lead]) s1) as (found & st' & -> & Hl & Hc & Hf).
      exists (lead :: found), st'. rewrite <- app_assoc. split; [done|].
      destruct E as [Ec _ _ Ew Ep _ _ _].
      assert (∀ u, DeduplicationCache.is_processed (cache st) u = true →
                   DeduplicationCache.is_processed (cache s1) u = true) as Hc1.
      { intros u Hu. rewrite Ec. by apply mark_processed_keeps_entries. }
      split; [simpl; lia|]. split; [intros u Hu; by apply Hc, Hc1|].
      constructor.
      * rewrite Ew. split; [left|]. split; [done|].
        apply Hc. rewrite Ec.
        unfold DeduplicationCache.is_processed, DeduplicationCache.mark_processed.
        rewrite lookup_insert_eq. apply bool_decide_eq_true. eauto.
      * eapply Forall_impl; [exact Hf|]. intros l (? & ? & ?).
        split; [by right | done].
    + destruct (IH leads s1) as (found & st' & -> & Hl & Hc & Hf).
      exists found, st'. split; [done|].
      split; [simpl; lia|]. split; [intros u Hu; apply Hc; by rewrite E|].
      eapply Forall_impl; [exact Hf|]. intros l (? & ? & ?). split; [by right | done].
    + destruct (IH leads s1) as (found & st' & -> & Hl & Hc & Hf).
      exists found, st'. split; [done|].
      split; [simpl; lia|]. split.
      * intros u Hu. apply Hc. destruct E as [[E _] | [_ E]]; rewrite E; [done|].
        by apply mark_processed_keeps_entries.
      * eapply Forall_impl; [exact Hf|]. intros l (? & ? & ?).
        split; [by right | done].
Qed.

End WithEnv.
End RunFacts.

Module VerifyRunFacts.
Import ShopifyVerifier VerifierSpec CountryFacts.

Lemma fetches_refl n st : fetches_at_most n st st.
Proof. split; [done|]. exists []. simpl. by rewrite app_nil_r; split; [|lia]. Qed.

Lemma fetches_logged st url : fetches_at_most 1 st (logged st (HttpGet url)).
Proof. split; [done|]. by exists [url]. Qed.

Lemma fetches_trans n m s1 s2 s3 :
  fetches_at_most n s1 s2 → fetches_at_most m s2 s3 → fetches_at_most (n + m) s1 s3.
Proof.
  intros [C1 (u1 & E1 & L1)] [C2 (u2 & E2 & L2)]. split; [congruence|].
  exists (u1 ++ u2). rewrite E2, E1, map_app, app_assoc, length_app. split; [done|lia].
Qed.

Section WithEnv.
Context (env : Env.t).

Lemma check_products_json_run url st :
  ∃ b st', _check_products_json env url st = (Ok b, st') ∧ fetches_at_most 1 st st'.
Proof.
  unfold _check_products_json, try_except, bind, py_urljoin.
  destruct (Env.urljoin env url _) as [u|]; simpl;
    [|unfold ret; eauto using fetches_refl].
  rewrite client_get_run.
  destruct (Env.http_get env u) as [e|r]; [unfold ret; eauto using fetches_logged|].
  destruct (status_code r =? 200); [|unfold ret; eauto using fetches_logged].
  destruct (json r) as [d|]; [destruct (products_in d)|];
    unfold ret, raise; eauto using fetches_logged.
Qed.

Lemma check_page_source_run url st :
  ∃ m st', _check_page_source env url st = (Ok m, st') ∧ fetches_at_most 1 st st'
           ∧ (m = None ∨ truthy m = true).
Proof.
  unfold _check_page_source, try_except, bind.
  rewrite client_get_run.
  destruct (Env.http_get env url) as [e|r]; [unfold ret; eauto 8 using fetches_logged|].
  destruct (negb (status_code r =? 200)); [unfold ret; eauto 8 using fetches_logged|].
  destruct (List.find _ _) as [i|]; [|destruct (contains _ _)];
    unfold ret; eauto 8 using fetches_logged.
Qed.

Lemma verify_run url st :
  ∃ v st', verify env url st = (Ok v, st')
    ∧ fetches_at_most 2 st st'
    ∧ store_url v = ensure_scheme url ∧ error v = None ∧ consistent v.
Proof.
  unfold verify, try_except. unfold bind at 1.
  destruct (check_products_json_run (ensure_scheme url) st) as (b & s1 & -> & F1).
  destruct b.
  - eexists _, _. split; [reflexivity|]. split; [|split; [done|split; [done|by left]]].
    apply (fetches_trans 1 1 st s1 s1 F1), fetches_refl.
  - unfold bind.
    destruct (check_page_source_run (ensure_scheme url) s1) as (m & s2 & -> & F2 & Hm).
    pose proof (fetches_trans 1 1 _ _ _ F1 F2) as F.
    destruct Hm as [-> | Hm].
    + eexists _, _. split; [reflexivity|]. split; [exact F|].
      split; [done|]. split; [done|]. by right.
    + rewrite Hm. eexists _, _. split; [reflexivity|]. split; [exact F|].
      split; [done|]. split; [done|]. by left.
Qed.

Lemma verify_batch_run urls : ∀ st,
  ∃ vs st', verify_batch env urls st = (Ok vs, st')
    ∧ cache st' = cache st
    ∧ map store_url vs = map ensure_scheme urls
    ∧ Forall (λ v, error v = None ∧ consistent v) vs.
Proof.
  induction urls as [|url urls IH]; intros st.
  - exists [], st. by repeat split.
  - cbn [verify_batch]. unfold bind at 1.
    destruct (verify_run url st) as (v & s1 & -> & [C1 _] & Hu & He & Hc).
    unfold bind at 1.
    destruct (IH s1) as (vs & s2 & -> & C2 & Hm & Hf).
    exists (v :: vs), s2. split; [done|]. split; [congruence|]. split.
    + simpl. by rewrite Hu, Hm.
    + by constructor.
Qed.

End WithEnv.
End VerifyRunFacts.

Module EnrichFacts.
Import NormalizeSpec EnrichSpec TrimFacts.

Lemma strip_of_blank s : blank s = true → strip s = [].
Proof. intros B. unfold strip. by rewrite (lstrip_blank _ B). Qed.

Lemma str_eqb_eq a b : str_eqb a b = true ↔ a = b.
Proof. unfold str_eqb. apply bool_decide_eq_true. Qed.

Lemma no_title_in_empty :
  existsb (λ title, contains title []) EmailFinder.executive_titles = false.
Proof. reflexivity. Qed.

Lemma assign_primary_domain_valid d c dom :
  Company.primary_domain (LinkedInFinder.assign_primary_domain d c) = Some dom →
  Company.primary_domain c = Some dom
  ∨ (nonempty dom = true ∧ contains (lit "myshopify.com") dom = false).
Proof.
  unfold LinkedInFinder.assign_primary_domain.
  set (c1 := match py_or _ _ with Some w => _ | None => c end).
  assert (Company.website c1 = Company.website c
          ∧ (Company.primary_domain c1 = Company.primary_domain c
             ∨ ∃ x, Company.primary_domain c1 = Some x ∧ nonempty x = true
                    ∧ contains (lit "myshopify.com") x = false)) as [Hw H1].
  { unfold c1. destruct (py_or _ _) as [w|]; [|by split; [|left]].
    destruct (nonempty w); [|by split; [|left]].
    destruct (nonempty (_extract_domain w) && _) eqn:E; [|by split; [|left]].
    split; [done|]. right. exists (_extract_domain w).
    apply andb_true_iff in E as [E1 E2]. split; [done|]. split; [done|].
    apply negb_true_iff in E2. unfold LinkedInFinder.invalid_domains in E2.
    cbn [map existsb] in E2. by apply orb_false_iff in E2 as [E2 _]. }
  clearbody c1.
  destruct (negb (truthy (Company.primary_domain c1)) && _) eqn:E.
  - destruct (nonempty (_extract_domain _) && _) eqn:E2.
    + cbn [Company.primary_domain Company.set_primary_domain]. intros [= <-].
      apply andb_true_iff in E2 as [E21 E22]. apply negb_true_iff in E22.
      right. by rewrite Hw in *.
    + intros Hd. destruct H1 as [H1 | (x & Hx & Hn & Hm)]; [left; congruence|].
      right. rewrite Hx in Hd. by injection Hd as <-.
  - intros Hd. destruct H1 as [H1 | (x & Hx & Hn & Hm)]; [left; congruence|].
    right. rewrite Hx in Hd. by injection Hd as <-.
Qed.

Section WithEnv.
Context (env : Env.t).

Lemma assign_employee_count_domain d c c' :
  LinkedInFinder.assign_employee_count env d c = Ok c' →
  Company.primary_domain c' = Company.primary_domain c.
Proof.
  unfold LinkedInFinder.assign_employee_count.
  destruct (jval_truthy _); [|by intros [= <-]].
  destruct (LinkedInFinder.jval_or _ _) as [[s|z|r]|]; try (by intros [= <-]).
  destruct (Env.py_int env s); [by intros [= <-] | done].
Qed.

Lemma assign_founded_year_domain d c :
  Company.primary_domain (LinkedInFinder.assign_founded_year env d c)
  = Company.primary_domain c.
Proof.
  unfold LinkedInFinder.assign_founded_year. destruct (jval_truthy _); [|done].
  destruct (LinkedInFinder.jval_or _ _) as [v|]; [|done].
  by destruct (Env.py_int env _).
Qed.

Lemma assign_country_domain d c :
  Company.primary_domain (LinkedInFinder.assign_country d c)
  = Company.primary_domain c.
Proof.
  unfold LinkedInFinder.assign_country.
  destruct (negb (truthy (Company.country c))); [|done].
  destruct (LinkedInData.mainAddress d) as [|a|];
    (destruct (negb (truthy _)); [|done]);
    (destruct (LinkedInData.Headquarters d) as [hq|]; [|done]);
    (destruct (nonempty hq && _); [|done]); by destruct (_ =? _)%nat.
Qed.

End WithEnv.
End EnrichFacts.

Module EmailFacts.
Import NormalizeSpec EnrichSpec TrimFacts EnrichFacts EmailFinder.

Section WithEnv.
Context (env : Env.t).

Lemma find_email_run domain name st :
  ∃ r st', find_email env domain name st = (Ok r, st') ∧ cache st' = cache st.
Proof.
  unfold find_email.
  destruct (if nonempty name then _ else None) as [[f l]|];
    [|unfold ret; eauto].
  destruct (nonempty f); [|unfold ret; eauto].
  unfold bind, call.
  destruct (Env.hunter_email_finder env domain f l) as [[e|]|]; simpl;
    try destruct (nonempty e); unfold ret; eauto.
Qed.

Lemma verify_email_run email st :
  ∃ b, verify_email env email st = (Ok b, logged st (HunterEmailVerifier email))
       ∧ (b = true → Env.hunter_email_verifier env email = Ok (Some (lit "valid"))).
Proof.
  unfold verify_email, bind, call. fold (logged st (HunterEmailVerifier email)).
  destruct (Env.hunter_email_verifier env email) as [[s|]|]; unfold ret.
  - eexists. split; [reflexivity|]. intros H. apply str_eqb_eq in H. by subst.
  - by exists false.
  - by exists false.
Qed.

End WithEnv.

Lemma contact_of_email_Some e c :
  contact_of_email e = Some c →
  ∃ t kw, HunterEmail.position e = Some t ∧ HunterContact.title c = Some t
          ∧ kw ∈ executive_titles ∧ contains kw (lower t) = true
          ∧ HunterContact.email c = HunterEmail.value e
          ∧ HunterContact.confidence c = HunterEmail.confidence e.
Proof.
  unfold contact_of_email.
  destruct (existsb _ _) eqn:E; [|done]. intros [= <-].
  apply existsb_exists in E as (kw & Hin & Hkw). apply list_elem_of_In in Hin.
  destruct (HunterEmail.position e) as [[|a p]|] eqn:P.
  - exfalso. revert Hkw Hin. unfold executive_titles. cbn [map].
    intros Hkw Hin. repeat (apply elem_of_cons in Hin as [->|Hin]; [done|]).
    by apply elem_of_nil in Hin.
  - exists (a :: p), kw. done.
  - exfalso. revert Hkw Hin. unfold executive_titles. cbn [map].
    intros Hkw Hin. repeat (apply elem_of_cons in Hin as [->|Hin]; [done|]).
    by apply elem_of_nil in Hin.
Qed.

Lemma words_go_blank s : blank s = true → words_go [] s = [].
Proof.
  induction s as [|c s IH]; [done|]. simpl. intros H.
  apply andb_true_iff in H as [-> H]. simpl. auto.
Qed.

End EmailFacts.

Module WebsiteFacts.
Import AlternativeSourceFinder CascadeSpec PipelineFacts.

Lemma unique_by_name_sublist dms : ∀ seen, sublist (unique_by_name seen dms) dms.
Proof.
  induction dms as [|dm dms IH]; intros seen; simpl; [constructor|].
  case_bool_decide; [apply sublist_cons | apply sublist_skip]; apply IH.
Qed.

Lemma unique_by_name_names dms : ∀ seen dm,
  dm ∈ dms →
  normalized_name dm ∈ seen
  ∨ ∃ dm', dm' ∈ unique_by_name seen dms ∧ normalized_name dm' = normalized_name dm.
Proof.
  induction dms as [|d dms IH]; intros seen dm Hin; [by apply elem_of_nil in Hin|].
  simpl. apply elem_of_cons in Hin as [->|Hin].
  - case_bool_decide as Hs; [by left|]. right. exists d. split; [left|done].
  - case_bool_decide as Hs; [by apply IH|].
    destruct (IH ({[lower (DecisionMaker.name d)]} ∪ seen) dm Hin)
      as [H | (dm' & H1 & H2)].
    + apply elem_of_union in H as [H|H]; [|by left].
      apply elem_of_singleton in H. right. exists d. split; [left|done].
    + right. exists dm'. split; [by right | done].
Qed.

Lemma unique_by_name_head dm dms :
  unique_by_name ∅ (dm :: dms)
  = dm :: unique_by_name {[lower (DecisionMaker.name dm)]} dms.
Proof.
  simpl. rewrite bool_decide_eq_false_2 by apply not_elem_of_empty.
  by rewrite (right_id_L ∅ (∪)).
Qed.

Section WithEnv.
Context (env : Env.t).

Lemma scan_team_pages_extends url paths : ∀ dms,
  ensures (scan_team_pages env url paths dms) (λ r, ∃ more, r = dms ++ more).
Proof.
  induction paths as [|p paths IH]; intros dms; cbn [scan_team_pages].
  - apply ensures_ret. exists []. by rewrite app_nil_r.
  - apply ensures_bind_any. intros page_url. apply ensures_bind_any. intros found.
    destruct (3 <=? length (dms ++ found))%nat.
    + apply ensures_ret. eauto.
    + intros st r st' H. apply IH in H as [more ->].
      exists (found ++ more). by rewrite app_assoc.
Qed.

End WithEnv.
End WebsiteFacts.

Module CallFacts.
Import CallSpec ShopifyVerifier LeadGenerationPipeline.

Section Combinators.
Context (P : Call → Prop).

Lemma logs_ret {A} (a : A) : logs_only P (ret a).
Proof. intros st r st' [= <- <-]. exists []. by rewrite app_nil_r. Qed.

Lemma logs_raise {A} e : logs_only P (@raise A e).
Proof. intros st r st' [= <- <-]. exists []. by rewrite app_nil_r. Qed.

Lemma logs_get_cache : logs_only P get_cache.
Proof. intros st r st' [= <- <-]. exists []. by rewrite app_nil_r. Qed.

Lemma logs_put_cache c : logs_only P (put_cache c).
Proof. intros st r st' [= <- <-]. exists []. by rewrite app_nil_r. Qed.

Lemma logs_call c : P c → logs_only P (call c).
Proof. intros H st r st' [= <- <-]. exists [c]. split; [done|]. by constructor. Qed.

Lemma logs_bind {A B} (m : M A) (k : A → M B) :
  logs_only P m → (∀ a, logs_only P (k a)) → logs_only P (bind m k).
Proof.
  intros Hm Hk st r st'. unfold bind.
  destruct (m st) as [[a|e] s1] eqn:E; intros H.
  - destruct (Hm _ _ _ E) as (c1 & E1 & F1). destruct (Hk _ _ _ _ H) as (c2 & E2 & F2).
    exists (c1 ++ c2). rewrite E2, E1, app_assoc. split; [done|].
    by apply Forall_app.
  - injection H as <- <-. eapply Hm, E.
Qed.

Lemma logs_try {A} (m : M A) (h : exn → M A) :
  logs_only P m → (∀ e, logs_only P (h e)) → logs_only P (try_except m h).
Proof.
  intros Hm Hh st r st'. unfold try_except.
  destruct (m st) as [[a|e] s1] eqn:E; intros H.
  - injection H as <- <-. eapply Hm, E.
  - destruct (Hm _ _ _ E) as (c1 & E1 & F1). destruct (Hh _ _ _ _ H) as (c2 & E2 & F2).
    exists (c1 ++ c2). rewrite E2, E1, app_assoc. split; [done|].
    by apply Forall_app.
Qed.

End Combinators.

Create HintDb logs.
#[local] Hint Resolve logs_ret logs_raise logs_get_cache logs_put_cache : logs.
#[local] Hint Extern 2 (logs_only _ (bind _ _)) =>
  apply logs_bind; [|intros ?] : logs.
#[local] Hint Extern 2 (logs_only _ (try_except _ _)) =>
  apply logs_try; [|intros ?] : logs.
#[local] Hint Extern 3 (logs_only _ (call _)) => apply logs_call; done : logs.
#[local] Hint Extern 4 (logs_only _ (match ?x with _ => _ end)) =>
  destruct x : logs.

Section WithEnv.
Context (env : Env.t) (segment : option Segment) (skip : bool).
Lemma client_get_logs url : logs_only (call_allowed segment skip) (client_get env url).
Proof. unfold client_get. auto with logs. Qed.

Lemma py_urljoin_logs base path : logs_only (call_allowed segment skip) (py_urljoin env base path).
Proof. unfold py_urljoin. auto with logs. Qed.

Hint Resolve client_get_logs py_urljoin_logs : logs.

Lemma verify_logs url : logs_only (call_allowed segment skip) (verify env url).
Proof.
  unfold verify, _check_products_json, _check_page_source. auto 12 with logs.
Qed.

Lemma detect_country_logs url : logs_only (call_allowed segment skip) (detect_country env url).
Proof.
  unfold detect_country, detect_country_from_schema, detect_country_from_currency.
  auto 12 with logs.
Qed.

Hint Resolve detect_country_logs : logs.

Lemma extract_store_info_logs url :
  logs_only (call_allowed segment skip) (extract_store_info env url).
Proof. unfold extract_store_info. auto 14 with logs. Qed.

Lemma step2_logs v : logs_only (call_allowed segment skip) (step2_validate env segment skip v).
Proof.
  unfold step2_validate.
  destruct (negb skip && _) eqn:E; [|auto with logs].
  apply andb_true_iff in E as [E1 E2]. apply negb_true_iff in E1.
  apply logs_bind; [|auto with logs]. apply logs_call. split; [done|].
  destruct segment as [[| |]|]; try done; auto.
Qed.

Lemma domain_usable_guard domain :
  domain_usable domain = true →
  nonempty domain = true ∧ contains (lit "myshopify.com") domain = false.
Proof.
  unfold domain_usable, is_myshopify. intros H.
  apply andb_true_iff in H as [H1 H2]. by apply negb_true_iff in H2.
Qed.

Lemma step5_logs domain lead : logs_only (call_allowed segment skip) (step5_hunter env domain lead).
Proof.
  unfold step5_hunter. destruct (domain_usable domain) eqn:E; [|auto with logs].
  apply domain_usable_guard in E as [E1 E2].
  unfold EmailFinder.domain_search.
  apply logs_try; [|auto with logs]. apply logs_bind; [|auto with logs].
  apply logs_bind; [by apply logs_call | auto with logs].
Qed.

Lemma step6_logs lead : logs_only (call_allowed segment skip) (step6_linkedin env lead).
Proof.
  unfold step6_linkedin, LinkedInFinder.enrich_company, LinkedInFinder.find_company.
  auto 12 with logs.
Qed.

Lemma step7_logs v info hunter lead :
  logs_only (call_allowed segment skip)
    (step7_decision_makers env v info hunter lead).
Proof.
  unfold step7_decision_makers.
  assert (∀ l, logs_only (call_allowed segment skip) (strategy1_linkedin env l)) as H1.
  { intros l. unfold strategy1_linkedin, LinkedInFinder.find_decision_makers,
      LinkedInFinder.find_employees. auto 12 with logs. }
  assert (∀ l, logs_only (call_allowed segment skip) (strategy2_hunter hunter l)) as H2.
  { intros l. unfold strategy2_hunter. auto 12 with logs. }
  assert (∀ url paths dms,
            logs_only (call_allowed segment skip)
              (AlternativeSourceFinder.scan_team_pages env url paths dms)) as Hs.
  { intros url paths. induction paths as [|p paths IH]; intros dms;
      cbn [AlternativeSourceFinder.scan_team_pages]; [auto with logs|].
    unfold AlternativeSourceFinder._scrape_team_page. auto 12 with logs. }
  assert (∀ l, logs_only (call_allowed segment skip) (strategy3_website env v l)) as H3.
  { intros l. unfold strategy3_website,
      AlternativeSourceFinder.find_decision_makers_from_website,
      AlternativeSourceFinder._find_from_schema. auto 14 with logs. }
  auto 8 with logs.
Qed.

Lemma step8_logs domain lead : logs_only (call_allowed segment skip) (step8_email env domain lead).
Proof.
  unfold step8_email. destruct (Lead.decision_maker lead) as [dm|]; [|auto with logs].
  destruct (truthy _ && _); [auto with logs|].
  destruct (domain_usable domain) eqn:E; [|auto with logs].
  apply domain_usable_guard in E as [E1 E2].
  unfold EmailFinder.enrich_decision_maker, EmailFinder.find_email,
    EmailFinder.verify_email.
  auto 16 with logs.
Qed.

Lemma step10_logs lead : logs_only (call_allowed segment skip) (step10_outreach env lead).
Proof. unfold step10_outreach. auto 8 with logs. Qed.

Lemma process_url_logs url force :
  logs_only (call_allowed segment skip) (process_url env url segment skip force).
Proof.
  unfold process_url, mark_processed, _save_cache.
  pose proof verify_logs. pose proof extract_store_info_logs. pose proof step2_logs.
  pose proof step5_logs. pose proof step6_logs. pose proof step7_logs.
  pose proof step8_logs. pose proof step10_logs.
  apply logs_bind; [auto with logs|]. intros c.
  destruct (negb force && _); [auto with logs|].
  apply logs_bind; [auto with logs|]. intros v.
  destruct (negb _); [auto with logs|].
  apply logs_bind; [auto with logs|]. intros valid.
  destruct (negb _); [auto with logs|].
  apply logs_bind; [auto with logs|]. intros info.
  apply logs_bind; [auto with logs|]. intros [l1 h].
  apply logs_bind; [auto with logs|]. intros l2.
  apply logs_bind; [auto with logs|]. intros l3.
  apply logs_bind; [auto with logs|]. intros l4.
  apply logs_bind; [auto with logs|]. intros l5.
  auto 8 with logs.
Qed.

End WithEnv.
End CallFacts.

Module MethodFacts.
Import DeduplicationCache.

Lemma remove_not_processed (cache : gmap str entry) url url' :
  normalize_url url' = normalize_url url →
  is_processed (remove cache url) url' = false.
Proof.
  intros E. unfold remove.
  destruct (is_processed cache url) eqn:H.
  - unfold is_processed. rewrite E, lookup_delete_eq.
    apply bool_decide_eq_false. by intros [? ?].
  - unfold is_processed in *. by rewrite E.
Qed.

Lemma unprocessed_as_forced env url segment skip st :
  is_processed (cache st) url = false →
  LeadGenerationPipeline.process_url env url segment skip false st
  = LeadGenerationPipeline.process_url env url segment skip true st.
Proof.
  intros H. unfold LeadGenerationPipeline.process_url, bind at 1 3, get_cache.
  by rewrite H.
Qed.

Lemma collect_unverified employees : ∀ acc dms,
  LinkedInFinder.collect_decision_makers employees acc = Ok dms →
  Forall (λ dm, DecisionMaker.email dm = None
                ∧ DecisionMaker.email_verified dm = false) acc →
  Forall (λ dm, DecisionMaker.email dm = None
                ∧ DecisionMaker.email_verified dm = false) dms.
Proof.
  induction employees as [|emp es IH]; intros acc dms; simpl.
  - by intros [= <-].
  - unfold LinkedInFinder.dm_of_employee.
    destruct (Employee.name emp) as [[s|]|]; [|done|];
      intros H Hacc; apply (IH _ _ H); apply Forall_app; split; try done;
      by repeat constructor.
Qed.

Lemma collect_raises employees : ∀ acc e,
  LinkedInFinder.collect_decision_makers employees acc = Raise e →
  e = ValidationError (lit "name: Input should be a valid string")
  ∧ ∃ emp, emp ∈ employees ∧ Employee.name emp = Some None.
Proof.
  induction employees as [|emp es IH]; intros acc e; simpl; [done|].
  unfold LinkedInFinder.dm_of_employee.
  destruct (Employee.name emp) as [[s|]|] eqn:N.
  - intros H. apply IH in H as [-> (x & Hx & Hn)]. split; [done|].
    exists x. split; [by right | done].
  - intros [= <-]. split; [done|]. exists emp. split; [left | done].
  - intros H. apply IH in H as [-> (x & Hx & Hn)]. split; [done|].
    exists x. split; [by right | done].
Qed.

End MethodFacts.

(** ** The deduplication cache *)

(** X1.  Looking a URL up after [mark_processed]: the URLs of the domain
    marked are processed and give the new lead id; every other URL is
    answered as before. *)
Theorem lookup_after_mark_processed (cache : gmap str DeduplicationCache.entry)
    (url url' id now : str) :
  let same := bool_decide (DeduplicationCache.normalize_url url'
                           = DeduplicationCache.normalize_url url) in
  let cache' := DeduplicationCache.mark_processed cache url id now in
  DeduplicationCache.is_processed cache' url'
  = same || DeduplicationCache.is_processed cache url'
  ∧ DeduplicationCache.get_lead_id cache' url'
    = if same then Some id else DeduplicationCache.get_lead_id cache url'.
Proof.
  cbv zeta.
  unfold DeduplicationCache.is_processed, DeduplicationCache.get_lead_id,
    DeduplicationCache.mark_processed.
  destruct (decide (DeduplicationCache.normalize_url url'
                    = DeduplicationCache.normalize_url url)) as [E|E].
  - rewrite (bool_decide_eq_true_2 _ E), E, lookup_insert_eq. split; [|done].
    apply bool_decide_eq_true. eauto.
  - rewrite (bool_decide_eq_false_2 _ E), lookup_insert_ne by done. done.
Qed.

(** X2.  The cache holds one entry per normalized domain: marking a URL of
    a domain that is in the cache replaces the entry, marking another adds
    one. *)
Theorem mark_processed_count (cache : gmap str DeduplicationCache.entry)
    (url id now : str) :
  DeduplicationCache.total_domains
    (DeduplicationCache.mark_processed cache url id now)
  = if DeduplicationCache.is_processed cache url
    then DeduplicationCache.total_domains cache
    else S (DeduplicationCache.total_domains cache).
Proof.
  unfold DeduplicationCache.total_domains, DeduplicationCache.mark_processed.
  destruct (DeduplicationCache.is_processed cache url) eqn:E.
  - apply CacheRoundTrip.is_processed_lookup in E as [e He].
    by eapply map_size_insert_Some.
  - apply CacheRoundTrip.is_processed_false in E.
    by apply map_size_insert_None.
Qed.

(** X3.  After [remove] the URLs of the domain removed are not processed,
    and every other URL is answered as before. *)
Theorem remove_deletes_that_domain (cache : gmap str DeduplicationCache.entry)
    (url url' : str) :
  DeduplicationCache.is_processed (DeduplicationCache.remove cache url) url'
  = DeduplicationCache.is_processed cache url'
    && negb (bool_decide (DeduplicationCache.normalize_url url'
                          = DeduplicationCache.normalize_url url))
  ∧ (DeduplicationCache.normalize_url url' ≠ DeduplicationCache.normalize_url url →
     DeduplicationCache.get_lead_id (DeduplicationCache.remove cache url) url'
     = DeduplicationCache.get_lead_id cache url').
Proof.
  unfold DeduplicationCache.remove.
  destruct (decide (DeduplicationCache.normalize_url url'
                    = DeduplicationCache.normalize_url url)) as [Hd|Hd].
  - rewrite (bool_decide_eq_true_2 _ Hd), andb_false_r. split; [|done].
    destruct (DeduplicationCache.is_processed cache url) eqn:E.
    + unfold DeduplicationCache.is_processed. rewrite Hd, lookup_delete_eq.
      apply bool_decide_eq_false. by intros [? ?].
    + unfold DeduplicationCache.is_processed in *. by rewrite Hd.
  - rewrite (bool_decide_eq_false_2 _ Hd), andb_true_r.
    destruct (DeduplicationCache.is_processed cache url); [|done].
    unfold DeduplicationCache.is_processed, DeduplicationCache.get_lead_id.
    by rewrite lookup_delete_ne.
Qed.

(** X4.  [remove] undoes [mark_processed]: marking a URL whose domain was
    not in the cache and then removing any URL of that domain gives the
    cache back. *)
Theorem remove_undoes_mark_processed (cache : gmap str DeduplicationCache.entry)
    (url url' id now : str) :
  DeduplicationCache.is_processed cache url = false →
  DeduplicationCache.normalize_url url' = DeduplicationCache.normalize_url url →
  DeduplicationCache.remove (DeduplicationCache.mark_processed cache url id now) url'
  = cache.
Proof.
  intros Hn E. apply CacheRoundTrip.is_processed_false in Hn.
  unfold DeduplicationCache.remove, DeduplicationCache.is_processed,
    DeduplicationCache.mark_processed.
  rewrite E, lookup_insert_eq, bool_decide_eq_true_2 by eauto.
  by apply delete_insert_id.
Qed.

Lemma remove_undoes_mark_processed_witness :
  DeduplicationCache.remove
    (DeduplicationCache.mark_processed ∅ (lit "https://www.Example.com/shop")
       (lit "0f8fad5b") (lit "2024-01-01T00:00:00"))
    (lit "example.com")
  = ∅.
Proof.
  apply (remove_undoes_mark_processed ∅ (lit "https://www.Example.com/shop")
           (lit "example.com")).
  - reflexivity.
  - vm_compute. reflexivity.
Defined.

(** X5.  For ASCII URLs, a scheme or a [www.] put in front of a URL, in
    any case, does not change its normalized form. *)
Theorem normalize_url_ignores_scheme_and_www (p x : str) :
  ascii_only (p ++ x) →
  lower p ∈ [lit "https://"; lit "http://"; lit "www."] →
  DeduplicationCache.normalize_url (p ++ x) = DeduplicationCache.normalize_url x.
Proof.
  intros _ Hp. rewrite !SeparatorFacts.normalize_url_lower.
  unfold lower. rewrite map_app. fold (lower p) (lower x).
  by apply NormalizeFacts.core_prefix.
Qed.

Lemma normalize_url_ignores_scheme_and_www_witness :
  DeduplicationCache.normalize_url (lit "HTTPS://" ++ lit "Shop.com/x")
  = DeduplicationCache.normalize_url (lit "Shop.com/x").
Proof.
  apply (normalize_url_ignores_scheme_and_www (lit "HTTPS://") (lit "Shop.com/x")).
  - repeat constructor.
  - apply list_elem_of_here.
Defined.

(** X6.  What follows the host does not count: a path, a query or a
    fragment appended to a URL leaves its normalized form as it is.  For a
    path the URL must be free of colons, since a slash after [http:/] would
    complete a scheme. *)
Theorem normalize_url_ignores_what_follows (x p : str) (c : ascii) :
  c ∈ ["/"; "?"; "#"]%char →
  (c = "/"%char → ":"%char ∉ x) →
  DeduplicationCache.normalize_url (x ++ c :: p) = DeduplicationCache.normalize_url x.
Proof.
  intros Hc Hx. rewrite !SeparatorFacts.normalize_url_lower.
  unfold lower. rewrite map_app. cbn [map]. fold (lower x) (lower p).
  rewrite (SeparatorFacts.to_lower_fixes c Hc).
  apply SeparatorFacts.core_sep; [done|].
  intros E. by apply SeparatorFacts.lower_no_colon, Hx.
Qed.

Lemma normalize_url_ignores_what_follows_witness :
  DeduplicationCache.normalize_url
    (lit "Shop.com" ++ "/"%char :: lit "products?page=2")
  = DeduplicationCache.normalize_url (lit "Shop.com").
Proof.
  apply (normalize_url_ignores_what_follows (lit "Shop.com") (lit "products?page=2")
           "/"%char).
  - apply list_elem_of_here.
  - intros _ H.
    repeat (apply elem_of_cons in H as [H|H]; [discriminate H|]).
    by apply elem_of_nil in H.
Defined.

(** X7.  The key of the cache and the domain of the pipeline agree: the
    normalized form of a URL is the domain that [_extract_domain] gives for
    it, cut at the first [?] and [#] and trimmed. *)
Theorem cache_key_of_extracted_domain (url : str) :
  DeduplicationCache.normalize_url url
  = strip (before "#" (before "?" (_extract_domain url))).
Proof.
  rewrite SeparatorFacts.normalize_url_lower.
  unfold NormalizeSpec.core, NormalizeSpec.cut, NormalizeSpec.removals,
    _extract_domain.
  change (lit "/") with ["/"%char]. by rewrite PyStrFacts.split_first_single.
Qed.

(** ** The pipeline *)



(** X9.  Once a URL has given a lead, any URL of the same normalized domain
    is skipped by a later run that is not forced: no request is sent,
    nothing is returned, and the cache names the lead. *)
Theorem processed_url_is_skipped_afterwards (env : Env.t) (url url' : str)
    (segment segment' : option Segment) (skip_validation skip_validation' force : bool)
    (st st' : state) (lead : Lead.t) :
  process_url env url segment skip_validation force st = (Ok (Some lead), st') →
  DeduplicationCache.normalize_url url' = DeduplicationCache.normalize_url url →
  process_url env url' segment' skip_validation' false st' = (Ok None, st')
  ∧ DeduplicationCache.get_lead_id (cache st') url' = Some (Lead.lead_id lead).
Proof.
  intros H E. apply RunFacts.process_url_outcome in H. destruct H as [Hc _].
  assert (DeduplicationCache.is_processed (cache st') url' = true
          ∧ DeduplicationCache.get_lead_id (cache st') url'
            = Some (Lead.lead_id lead)) as [Hp Hid].
  { rewrite Hc.
    unfold DeduplicationCache.is_processed, DeduplicationCache.get_lead_id,
      DeduplicationCache.mark_processed.
    rewrite E, lookup_insert_eq. split; [|done]. apply bool_decide_eq_true. eauto. }
  split; [|done].
  unfold process_url, bind at 1, get_cache. by rewrite Hp.
Qed.

Lemma processed_url_is_skipped_afterwards_witness :
  match process_url Examples.env_shop (lit "shop.de") None false false Examples.st0 with
  | (Ok (Some lead), st') =>
      process_url Examples.env_shop (lit "HTTPS://www.Shop.de/products?page=2")
        (Some EYEWEAR) false false st' = (Ok None, st')
  | _ => False
  end.
Proof.
  destruct (process_url Examples.env_shop (lit "shop.de") None false false
              Examples.st0) as [[[lead|]|e] st'] eqn:E;
    [| vm_compute in E; discriminate E..].
  refine (proj1 (processed_url_is_skipped_afterwards _ _ _ _ _ _ _ _ _ _ _ E _)).
  vm_compute. reflexivity.
Defined.

(** X10.  A lead returned by [process_url] is that of a verified Shopify
    store: its company has the URL given as website, the platform Shopify,
    the URL with its scheme as Shopify URL and the segment given; its id is
    the first eight characters of the UUID drawn; and its qualification is
    the one the default scorer gives to the lead as returned. *)
Theorem returned_lead_describes_the_store (env : Env.t) (url : str)
    (segment : option Segment) (skip_validation force : bool) (st st' : state)
    (lead : Lead.t) :
  process_url env url segment skip_validation force st = (Ok (Some lead), st') →
  Company.website (Lead.company lead) = url
  ∧ Company.platform (Lead.company lead) = SHOPIFY
  ∧ Company.shopify_url (Lead.company lead) = Some (ensure_scheme url)
  ∧ Company.segment (Lead.company lead) = segment
  ∧ Lead.lead_id lead = take 8 (Env.uuid4 env)
  ∧ LeadScorer.score LeadScorer.new lead = lead.
Proof.
  intros H. apply RunFacts.process_url_outcome in H. by destruct H.
Qed.

Lemma returned_lead_describes_the_store_witness :
  match process_url Examples.env_shop (lit "shop.de") None false false Examples.st0 with
  | (Ok (Some lead), st') =>
      Company.shopify_url (Lead.company lead) = Some (lit "https://shop.de")
      ∧ Lead.lead_id lead = lit "0f8fad5b"
  | _ => False
  end.
Proof.
  destruct (process_url Examples.env_shop (lit "shop.de") None false false
              Examples.st0) as [[[lead|]|e] st'] eqn:E;
    [| vm_compute in E; discriminate E..].
  destruct (returned_lead_describes_the_store _ _ _ _ _ _ _ _ E)
    as (_ & _ & Hs & _ & Hi & _).
  split; [exact Hs | exact Hi].
Defined.



(** X12.  The calls of a run of [process_url] are guarded, whatever its
    outcome: the product validation is asked only for the eyewear and
    sunglasses segments and when it is not skipped; Hunter.io is queried
    only for a non-empty domain without [myshopify.com]; the LinkedIn
    employee search is limited to three results. *)
Theorem process_url_calls_are_guarded (env : Env.t) (url : str)
    (segment : option Segment) (skip_validation force : bool) (st st' : state)
    (r : res (option Lead.t)) :
  process_url env url segment skip_validation force st = (r, st') →
  ∃ cs, calls st' = calls st ++ cs
        ∧ Forall (CallSpec.call_allowed segment skip_validation) cs.
Proof. apply CallFacts.process_url_logs. Qed.

Lemma process_url_calls_are_guarded_witness :
  ∃ cs,
    calls (process_url Examples.env_shop (lit "shop.com") None false false
             Examples.st0).2 = [] ++ cs
    ∧ Forall (CallSpec.call_allowed None false) cs.
Proof.
  destruct (process_url Examples.env_shop (lit "shop.com") None false false
              Examples.st0) as [r st'] eqn:E.
  exact (process_url_calls_are_guarded _ _ _ _ _ _ _ _ E).
Defined.

(** X13.  [process_urls] never raises.  It returns at most one lead per
    URL, each for a URL of the list, on the Shopify platform and recorded in
    the cache; and no domain that was in the cache has left it. *)
Theorem process_urls_never_raises (env : Env.t) (urls : list str) (force : bool)
    (st : state) :
  ∃ leads st',
    process_urls env urls force st = (Ok leads, st')
    ∧ (length leads ≤ length urls)%nat
    ∧ (∀ u, DeduplicationCache.is_processed (cache st) u = true →
            DeduplicationCache.is_processed (cache st') u = true)
    ∧ Forall (λ l, Company.website (Lead.company l) ∈ urls
                   ∧ Company.platform (Lead.company l) = SHOPIFY
                   ∧ DeduplicationCache.is_processed (cache st')
                       (Company.website (Lead.company l)) = true)
        leads.
Proof.
  destruct (RunFacts.process_urls_from_run env urls force [] st)
    as (found & st' & E & H).
  exists found, st'. split; [exact E | exact H].
Qed.

(** ** The scorer *)

(** X14.  The breakdown of a scored lead lists exactly the awarded
    criteria, in the order of the scorer, each with its configured weight;
    an excluded company has the single entry [excluded]. *)
Theorem breakdown_lists_awarded_criteria (self : LeadScorer.t) (lead : Lead.t) :
  Qualification.scoring_breakdown (Lead.qualification (LeadScorer.score self lead))
  = if LeadScorer._is_excluded self (Company.name (Lead.company lead))
    then [(lit "excluded", BBool true)]
    else map BreakdownSpec.breakdown_entry (awarded self lead).
Proof.
  unfold awarded. destruct (LeadScorer._is_excluded self _) eqn:E.
  - by rewrite ScorerFacts.score_excluded.
  - rewrite ScorerFacts.score_tally by done. apply BreakdownFacts.tally_breakdown.
Qed.

(** X15.  Scoring a lead again changes nothing, and scoring touches the
    qualification only. *)
Theorem score_idempotent (self : LeadScorer.t) (lead : Lead.t) :
  LeadScorer.score self (LeadScorer.score self lead) = LeadScorer.score self lead
  ∧ LeadScorer.score self lead
    = Lead.set_qualification
        (Lead.qualification (LeadScorer.score self lead)) lead.
Proof.
  split; [|apply BreakdownFacts.score_writes].
  pose proof (BreakdownFacts.score_fixed self lead
                (Lead.outreach (LeadScorer.score self lead))) as H.
  assert (∀ l, Lead.set_outreach (Lead.outreach l) l = l) as Hid by (by intros []).
  by rewrite Hid in H.
Qed.

(** X16.  [filter_qualified] after [score_batch] keeps, in their order, the
    scored leads of the companies that are not excluded and whose awarded
    weights reach the threshold. *)
Theorem filter_qualified_after_score_batch (self : LeadScorer.t)
    (leads : list Lead.t) :
  LeadScorer.filter_qualified (LeadScorer.score_batch self leads)
  = map (LeadScorer.score self) (List.filter (BreakdownSpec.qualifies self) leads).
Proof.
  unfold LeadScorer.filter_qualified, LeadScorer.score_batch.
  induction leads as [|l leads IH]; [done|].
  cbn [map List.filter]. rewrite BreakdownFacts.score_qualified, IH.
  by destruct (BreakdownSpec.qualifies self l).
Qed.

(** ** The verifier *)

(** X17.  [verify] never raises and never reports an error.  It sends at
    most two requests and leaves the cache alone; the store URL of its
    result is the URL with its scheme; and the result is either a Shopify
    store, flagged and with a detection method, or a custom platform with
    neither. *)
Theorem verify_result_is_consistent (env : Env.t) (url : str) (st : state) :
  ∃ v st',
    verify env url st = (Ok v, st')
    ∧ cache st' = cache st
    ∧ (∃ urls, calls st' = calls st ++ map HttpGet urls ∧ (length urls ≤ 2)%nat)
    ∧ store_url v = ensure_scheme url
    ∧ error v = None
    ∧ ((platform v = SHOPIFY ∧ is_shopify v = true
        ∧ truthy (detection_method v) = true)
       ∨ (platform v = CUSTOM ∧ is_shopify v = false ∧ detection_method v = None)).
Proof.
  destruct (VerifyRunFacts.verify_run env url st) as (v & st' & E & [C F] & H).
  exists v, st'. done.
Qed.

(** X18.  [verify_batch] never raises and returns one result per URL, in
    order: the store URLs of the results are the URLs with their schemes,
    and each result has one of the two shapes of a result of [verify]. *)
Theorem verify_batch_one_result_per_url (env : Env.t) (urls : list str) (st : state) :
  ∃ vs st',
    verify_batch env urls st = (Ok vs, st')
    ∧ cache st' = cache st
    ∧ map store_url vs = map ensure_scheme urls
    ∧ Forall (λ v, error v = None ∧ VerifierSpec.consistent v) vs.
Proof. apply VerifyRunFacts.verify_batch_run. Qed.

(** X19.  When the products endpoint of a store answers 200 with a JSON
    object that has the key [products], [verify] reports a Shopify store
    detected by [products.json] after that one request. *)
Theorem products_json_settles_verification (env : Env.t) (url u : str)
    (r : HttpResponse) (fields : list (str * Json)) (st : state) :
  Env.urljoin env (ensure_scheme url) (lit "/products.json") = Some u →
  Env.http_get env u = Response r →
  status_code r = 200 →
  json r = Some (JObj fields) →
  PyDict.has_key (lit "products") fields = true →
  verify env url st
  = (Ok {| is_shopify := true; platform := SHOPIFY;
           store_url := ensure_scheme url;
           detection_method := Some (lit "products.json"); error := None |},
     logged st (HttpGet u)).
Proof.
  intros Hj Hg Hs Hd Hp.
  unfold verify, try_except, bind at 1.
  unfold _check_products_json, try_except, bind, py_urljoin. rewrite Hj. simpl.
  rewrite CountryFacts.client_get_run, Hg, Hs. simpl. rewrite Hd.
  cbn [products_in]. by rewrite Hp.
Qed.

Lemma products_json_settles_verification_witness :
  verify MoreExamples.env_json (lit "shop.com") Examples.st0
  = (Ok {| is_shopify := true; platform := SHOPIFY;
           store_url := lit "https://shop.com";
           detection_method := Some (lit "products.json"); error := None |},
     {| cache := ∅; calls := [HttpGet (lit "https://shop.com/products.json")] |}).
Proof.
  apply (products_json_settles_verification MoreExamples.env_json (lit "shop.com")
           (lit "https://shop.com/products.json") MoreExamples.products_page
           [(lit "products", JArr [])] Examples.st0);
    reflexivity.
Defined.

(** X20.  When the main page of a store cannot be fetched, or answers with
    a status other than 200, [extract_store_info] returns the empty record
    after that one request. *)
Theorem unreachable_store_gives_empty_info (env : Env.t) (url : str) (st : state) :
  match Env.http_get env (ensure_scheme url) with
  | FetchError _ => True
  | Response r => status_code r ≠ 200
  end →
  extract_store_info env url st
  = (Ok StoreInfo.empty, logged st (HttpGet (ensure_scheme url))).
Proof.
  intros H. unfold extract_store_info, try_except, bind.
  rewrite CountryFacts.client_get_run.
  destruct (Env.http_get env _) as [e|r]; [done|].
  apply Z.eqb_neq in H. by rewrite H.
Qed.

Lemma unreachable_store_gives_empty_info_witness :
  extract_store_info Examples.env_down (lit "shop.example") Examples.st0
  = (Ok StoreInfo.empty,
     {| cache := ∅; calls := [HttpGet (lit "https://shop.example")] |}).
Proof.
  apply (unreachable_store_gives_empty_info Examples.env_down (lit "shop.example")
           Examples.st0).
  exact I.
Defined.

(** X21.  A country found by [detect_country_from_tld] is the two-letter,
    upper-case code that the table gives for a suffix of the lower-cased
    host; the suffix [.com] decides nothing. *)
Theorem tld_country_comes_from_table (env : Env.t) (url c : str) :
  detect_country_from_tld env url = Some c →
  ∃ netloc tld,
    Env.urlparse_netloc env (ensure_scheme url) = Some netloc
    ∧ (tld, Some c) ∈ TLD_COUNTRY_MAP
    ∧ endswith tld (lower netloc) = true
    ∧ tld ≠ lit ".com"
    ∧ length c = 2%nat ∧ upper c = c.
Proof.
  unfold detect_country_from_tld.
  destruct (Env.urlparse_netloc env _) as [netloc|]; [|done].
  destruct (List.find _ _) as [[tld o]|] eqn:F; [|done].
  simpl. intros ->. apply find_some in F as [Hin Hp]. simpl in Hp.
  apply andb_true_iff in Hp as [He _].
  exists netloc, tld. split; [done|].
  apply list_elem_of_In in Hin. split; [done|]. split; [done|].
  assert (Forall (λ e : str * option str,
            match e.2 with
            | Some c => e.1 ≠ lit ".com" ∧ length c = 2%nat ∧ upper c = c
            | None => True
            end) TLD_COUNTRY_MAP) as Hall.
  { unfold TLD_COUNTRY_MAP. cbn [map fst snd].
    repeat constructor; try discriminate. }
  rewrite Forall_forall in Hall. exact (Hall _ Hin).
Qed.

Lemma tld_country_comes_from_table_witness :
  ∃ netloc tld,
    Env.urlparse_netloc Examples.env_shop (ensure_scheme (lit "Shop.DE"))
    = Some netloc
    ∧ (tld, Some (lit "DE")) ∈ TLD_COUNTRY_MAP
    ∧ endswith tld (lower netloc) = true
    ∧ tld ≠ lit ".com"
    ∧ length (lit "DE") = 2%nat ∧ upper (lit "DE") = lit "DE".
Proof.
  apply (tld_country_comes_from_table Examples.env_shop (lit "Shop.DE")).
  vm_compute. reflexivity.
Defined.

(** ** The enrichment steps *)

(** X22.  The primary domain of a company that [enrich_company] has gone
    through is the one it had, or a non-empty domain without
    [myshopify.com]: the enrichment never introduces a Shopify host name as
    the domain used for the e-mail search. *)
Theorem enrichment_keeps_primary_domain_real (env : Env.t)
    (company company' : Company.t) (oe : option exn) (dom : str) (st st' : state) :
  LinkedInFinder.enrich_company env company st = (Ok (company', oe), st') →
  Company.primary_domain company' = Some dom →
  Company.primary_domain company = Some dom
  ∨ (nonempty dom = true ∧ contains (lit "myshopify.com") dom = false).
Proof.
  unfold LinkedInFinder.enrich_company, LinkedInFinder.find_company, bind, call.
  unfold ret at 1.
  destruct (Env.linkedin_find_company env _ _ _) as [d|];
    [|intros [= <- <- <-]; by left].
  destruct (LinkedInFinder.assign_employee_count env d _) as [c1|e] eqn:E.
  - intros [= <- <- <-] H. apply EnrichFacts.assign_primary_domain_valid in H.
    destruct H as [H | H]; [left | by right].
    rewrite EnrichFacts.assign_country_domain, EnrichFacts.assign_founded_year_domain
      in H.
    apply EnrichFacts.assign_employee_count_domain in E.
    cbn [Company.primary_domain Company.set_description Company.set_industry
         Company.set_linkedin_url] in *.
    congruence.
  - intros [= <- <- <-]. by left.
Qed.

Lemma enrichment_keeps_primary_domain_real_witness :
  match LinkedInFinder.enrich_company Examples.env_shop
          (Examples.company_of "Shop" SHOPIFY None None None) Examples.st0 with
  | (Ok (company', _), _) =>
      Company.primary_domain company' = Some (lit "shop.com")
      ∧ contains (lit "myshopify.com") (lit "shop.com") = false
  | _ => False
  end.
Proof.
  destruct (LinkedInFinder.enrich_company Examples.env_shop
              (Examples.company_of "Shop" SHOPIFY None None None) Examples.st0)
    as [[[company' oe]|e] st'] eqn:E; [|vm_compute in E; discriminate E].
  assert (Company.primary_domain company' = Some (lit "shop.com")) as H.
  { vm_compute in E. by injection E as <- _ _. }
  split; [exact H|].
  destruct (enrichment_keeps_primary_domain_real _ _ _ _ _ _ _ E H) as [H0 | [_ H1]].
  - discriminate H0.
  - exact H1.
Defined.

(** X23.  An employee count that is a string and no number stops
    [enrich_company] right after the LinkedIn URL is assigned: the industry,
    the description, the founding year, the country and the primary domain
    keep the values they had, and the exception is the [ValueError] of
    [int()]. *)
Theorem text_employee_count_stops_enrichment (env : Env.t) (company : Company.t)
    (d : LinkedInData.t) (s : str) (st : state) :
  Env.linkedin_find_company env (Company.name company) (Company.website company)
    (Company.primary_domain company) = Some d →
  EnrichSpec.employee_count_of d = Some (VStr s) →
  nonempty s = true →
  Env.py_int env s = None →
  LinkedInFinder.enrich_company env company st
  = (Ok (Company.set_linkedin_url (LinkedInData.linkedInUrl d) company,
         Some (ValueError (lit "invalid literal for int()"))),
     logged st (LinkedInFindCompany (Company.name company) (Company.website company)
                  (Company.primary_domain company))).
Proof.
  intros Hf Hc Hn Hi.
  unfold LinkedInFinder.enrich_company, LinkedInFinder.find_company, bind, call.
  unfold ret at 1. rewrite Hf.
  unfold LinkedInFinder.assign_employee_count.
  fold (EnrichSpec.employee_count_of d). rewrite Hc. cbn [jval_truthy].
  rewrite Hn, Hi. reflexivity.
Qed.

Lemma text_employee_count_stops_enrichment_witness :
  let company := Examples.company_of "Shop" SHOPIFY None None None in
  LinkedInFinder.enrich_company MoreExamples.env_range company Examples.st0
  = (Ok (Company.set_linkedin_url (Some (lit "https://www.linkedin.com/company/shop"))
           company,
         Some (ValueError (lit "invalid literal for int()"))),
     {| cache := ∅;
        calls := [LinkedInFindCompany (lit "Shop") (lit "shop.com") None] |}).
Proof.
  apply (text_employee_count_stops_enrichment MoreExamples.env_range
           (Examples.company_of "Shop" SHOPIFY None None None)
           MoreExamples.linkedin_range (lit "11-50") Examples.st0);
    reflexivity.
Defined.

(** X24.  [enrich_decision_maker] never raises and leaves the cache, the
    name, the title, the LinkedIn URL, the phone and the location alone.  A
    contact whose e-mail was verified is returned as it is, with no request;
    otherwise the e-mail is marked verified only when Hunter.io answered
    [valid] for the address that the result carries. *)
Theorem enrich_decision_maker_is_safe (env : Env.t) (dm : DecisionMaker.t)
    (domain : str) (st : state) :
  ∃ dm' st',
    EmailFinder.enrich_decision_maker env dm domain st = (Ok dm', st')
    ∧ cache st' = cache st
    ∧ EnrichSpec.same_person dm dm'
    ∧ (truthy (DecisionMaker.email dm) && DecisionMaker.email_verified dm = true →
       dm' = dm ∧ st' = st)
    ∧ (DecisionMaker.email_verified dm' = true →
       DecisionMaker.email_verified dm = true
       ∨ ∃ e, DecisionMaker.email dm' = Some e
              ∧ Env.hunter_email_verifier env e = Ok (Some (lit "valid"))).
Proof.
  unfold EmailFinder.enrich_decision_maker.
  destruct (truthy (DecisionMaker.email dm) && DecisionMaker.email_verified dm) eqn:V.
  - exists dm, st. unfold ret. repeat split; try done. intros H. by left.
  - unfold bind.
    destruct (EmailFacts.find_email_run env domain (DecisionMaker.name dm) st)
      as (r & s1 & -> & C1).
    destruct r as [email|].
    + destruct (EmailFacts.verify_email_run env email s1) as (b & -> & Hb).
      eexists _, _. unfold ret. split; [reflexivity|].
      split; [done|]. split; [done|]. split; [done|].
      cbn [DecisionMaker.email_verified DecisionMaker.set_email_verified
           DecisionMaker.email DecisionMaker.set_email].
      intros ->. right. exists email. split; [done|]. by apply Hb.
    + exists dm, s1. unfold ret. split; [done|]. split; [done|]. split; [done|].
      split; [done|]. intros H. by left.
Qed.

(** X25.  For a name that is empty or made of blanks, [find_email] sends no
    request and finds nothing. *)
Theorem find_email_skips_blank_name (env : Env.t) (domain full_name : str)
    (st : state) :
  NormalizeSpec.blank full_name = true →
  EmailFinder.find_email env domain full_name st = (Ok None, st).
Proof.
  intros B. unfold EmailFinder.find_email.
  rewrite (EnrichFacts.strip_of_blank _ B). by destruct (nonempty full_name).
Qed.

Lemma find_email_skips_blank_name_witness :
  EmailFinder.find_email Examples.env_shop (lit "shop.com") (lit "   ") Examples.st0
  = (Ok None, Examples.st0).
Proof.
  apply (find_email_skips_blank_name Examples.env_shop (lit "shop.com") (lit "   ")).
  reflexivity.
Defined.

(** X26.  [domain_search] sends one request and never raises.  When the
    request fails its result is the empty one; otherwise each decision
    maker it lists comes from one of the e-mail entries, carries its
    address, position and confidence, and has a position in which one of the
    executive titles occurs, whatever the case. *)
Theorem domain_search_lists_executives (env : Env.t) (domain : str) (limit : Z)
    (st : state) :
  ∃ r,
    EmailFinder.domain_search env domain limit st
    = (Ok r, logged st (HunterDomainSearch domain limit))
    ∧ (length (HunterResult.decision_makers r) ≤ length (HunterResult.emails r))%nat
    ∧ Forall (λ c, ∃ e t kw,
                e ∈ HunterResult.emails r
                ∧ HunterEmail.position e = Some t
                ∧ HunterContact.title c = Some t
                ∧ kw ∈ EmailFinder.executive_titles ∧ contains kw (lower t) = true
                ∧ HunterContact.email c = HunterEmail.value e
                ∧ HunterContact.confidence c = HunterEmail.confidence e)
        (HunterResult.decision_makers r)
    ∧ (∀ e, Env.hunter_domain_search env domain limit = Raise e →
            r = HunterResult.empty).
Proof.
  unfold EmailFinder.domain_search, bind, call.
  fold (logged st (HunterDomainSearch domain limit)).
  destruct (Env.hunter_domain_search env domain limit) as [data|e]; unfold ret.
  - eexists. split; [reflexivity|].
    cbn [HunterResult.decision_makers HunterResult.emails].
    split; [|split; [|done]].
    + induction (HunterDomain.emails data) as [|x xs IH]; [done|].
      cbn [omap list_omap]. destruct (EmailFinder.contact_of_email x); simpl; lia.
    + apply Forall_forall. intros c Hc.
      apply list_elem_of_omap in Hc as (x & Hx & Hc).
      apply EmailFacts.contact_of_email_Some in Hc as (t & kw & ?).
      exists x, t, kw. done.
  - exists HunterResult.empty. split; [done|]. split; [done|].
    split; [constructor|done].
Qed.

(** ** The website stage *)

(** X27.  The deduplication of the website stage drops no name: the
    candidates kept are some of the candidates found, in their order, and
    every candidate found has its lower-cased name among those kept. *)
Theorem unique_by_name_keeps_every_name (dms : list DecisionMaker.t) :
  sublist (AlternativeSourceFinder.unique_by_name ∅ dms) dms
  ∧ ∀ dm, dm ∈ dms →
      ∃ dm', dm' ∈ AlternativeSourceFinder.unique_by_name ∅ dms
             ∧ normalized_name dm' = normalized_name dm.
Proof.
  split; [apply WebsiteFacts.unique_by_name_sublist|].
  intros dm Hin.
  destruct (WebsiteFacts.unique_by_name_names dms ∅ dm Hin) as [H|H]; [|done].
  by apply not_elem_of_empty in H.
Qed.

(** X28.  A person read from the schema.org markup of the main page is the
    first result of the website stage, and so the one the pipeline takes. *)
Theorem schema_person_comes_first (env : Env.t) (url : str) (d : DecisionMaker.t)
    (r : list DecisionMaker.t) (st s1 st' : state) :
  AlternativeSourceFinder._find_from_schema env (ensure_scheme url) st
  = (Ok (Some d), s1) →
  AlternativeSourceFinder.find_decision_makers_from_website env url st = (Ok r, st') →
  ∃ rest, r = d :: rest.
Proof.
  intros Hs H. unfold AlternativeSourceFinder.find_decision_makers_from_website in H.
  apply EffFacts.bind_Ok in H as (dm & s2 & Hs' & H). rewrite Hs in Hs'.
  injection Hs' as <- <-.
  apply EffFacts.bind_Ok in H as (dms & s3 & Hscan & H). injection H as <- <-.
  apply WebsiteFacts.scan_team_pages_extends in Hscan as [more ->].
  cbn [app]. rewrite WebsiteFacts.unique_by_name_head. cbn [take]. eauto.
Qed.

Lemma schema_person_comes_first_witness :
  match AlternativeSourceFinder.find_decision_makers_from_website
          MoreExamples.env_person (lit "shop.com") Examples.st0 with
  | (Ok r, _) => ∃ rest, r = Examples.pat :: rest
  | _ => False
  end.
Proof.
  destruct (AlternativeSourceFinder.find_decision_makers_from_website
              MoreExamples.env_person (lit "shop.com") Examples.st0)
    as [[r|e] st'] eqn:E; [|vm_compute in E; discriminate E].
  destruct (AlternativeSourceFinder._find_from_schema MoreExamples.env_person
              (ensure_scheme (lit "shop.com")) Examples.st0)
    as [[[d|]|e] s1] eqn:Es; [| vm_compute in Es; discriminate Es..].
  assert (d = Examples.pat) as -> by (vm_compute in Es; by injection Es as <- _).
  exact (schema_person_comes_first _ _ _ _ _ _ _ Es E).
Defined.

(** ** The methods of the cache and of the LinkedIn finder *)

(** X29.  [remove] and [clear] make URLs processable again, also when
    they fail.  [remove] deletes the entry of the domain, if there is one,
    and then saves the cache; [clear] empties the dict and then saves the
    cache.  Saving makes the directory first: when that raises, the method
    raises the same error with the dict already changed and no write
    attempted.  In every case a later run that is not forced, on any URL of
    the domain removed (on any URL after [clear]), goes as a forced one. *)
Theorem removed_url_is_processed_again (env : Env.t) (url : str) (st : state) :
  (∃ st1,
     CacheMethods.remove env url st
     = ((if DeduplicationCache.is_processed (cache st) url
         then Env.mkdir_cache_dir env else Ok ()), st1)
     ∧ cache st1 = DeduplicationCache.remove (cache st) url
     ∧ calls st1
       = calls st ++ (if DeduplicationCache.is_processed (cache st) url
                      then match Env.mkdir_cache_dir env with
                           | Ok _ => [SaveCache]
                           | Raise _ => []
                           end
                      else [])
     ∧ ∀ url' segment skip_validation,
         DeduplicationCache.normalize_url url' = DeduplicationCache.normalize_url url →
         process_url env url' segment skip_validation false st1
         = process_url env url' segment skip_validation true st1)
  ∧ (∃ st2,
       CacheMethods.clear env st = (Env.mkdir_cache_dir env, st2)
       ∧ cache st2 = ∅
       ∧ calls st2
         = calls st ++ match Env.mkdir_cache_dir env with
                       | Ok _ => [SaveCache]
                       | Raise _ => []
                       end
       ∧ ∀ url' segment skip_validation,
           process_url env url' segment skip_validation false st2
           = process_url env url' segment skip_validation true st2).
Proof.
  split.
  - unfold CacheMethods.remove, _save_cache, bind, get_cache, put_cache, call, ret,
      raise.
    pose proof (MethodFacts.remove_not_processed (cache st) url) as Hr.
    unfold DeduplicationCache.remove in *.
    destruct (DeduplicationCache.is_processed (cache st) url) eqn:E.
    + destruct (Env.mkdir_cache_dir env) as [[]|e];
        (eexists; split; [reflexivity|]; split; [done|]; split;
         [by rewrite ?app_nil_r|];
         intros url' segment skip H; apply MethodFacts.unprocessed_as_forced;
         by apply Hr).
    + exists st. split; [done|]. split; [done|]. split; [by rewrite app_nil_r|].
      intros url' segment skip H. apply MethodFacts.unprocessed_as_forced.
      by apply Hr.
  - unfold CacheMethods.clear, _save_cache, bind, put_cache, call, raise.
    destruct (Env.mkdir_cache_dir env) as [[]|e];
      (eexists; split; [reflexivity|]; split; [done|]; split;
       [by rewrite ?app_nil_r|];
       intros url' segment skip; apply MethodFacts.unprocessed_as_forced;
       unfold DeduplicationCache.is_processed; cbn [cache];
       rewrite lookup_empty; apply bool_decide_eq_false; by intros [? ?]).
Qed.

(** X30.  [find_decision_makers] of the LinkedIn finder: without a LinkedIn
    URL it returns the empty list and calls nothing; with one it sends one
    employee search.  The records it returns are those of the employees
    found, in order, by name, and none has an e-mail or a verified flag; it
    raises only the validation error of a null name. *)
Theorem linkedin_decision_makers_come_unverified (env : Env.t) (company : Company.t)
    (max_results : Z) (st : state) :
  match Company.linkedin_url company with
  | Some (c :: u) =>
      let employees := Env.linkedin_find_employees env (c :: u) max_results in
      ∃ r,
        LinkedInFinder.find_decision_makers env company max_results st
        = (r, logged st (LinkedInFindEmployees (c :: u) max_results))
        ∧ match r with
          | Ok dms =>
              DecisionMaker.name <$> dms = employee_name <$> employees
              ∧ Forall (λ dm, DecisionMaker.email dm = None
                              ∧ DecisionMaker.email_verified dm = false) dms
          | Raise e =>
              e = ValidationError (lit "name: Input should be a valid string")
              ∧ ∃ emp, emp ∈ employees ∧ Employee.name emp = Some None
          end
  | _ => LinkedInFinder.find_decision_makers env company max_results st = (Ok [], st)
  end.
Proof.
  unfold LinkedInFinder.find_decision_makers.
  destruct (Company.linkedin_url company) as [[|c u]|]; [done| |done].
  cbv zeta. unfold LinkedInFinder.find_employees, bind, call.
  fold (logged st (LinkedInFindEmployees (c :: u) max_results)). unfold ret at 1.
  destruct (LinkedInFinder.collect_decision_makers _ []) as [dms|e] eqn:E.
  - exists (Ok dms). split; [done|]. split.
    + by apply CascadeFacts.collect_names in E.
    + by apply (MethodFacts.collect_unverified _ _ _ E).
  - exists (Raise e). split; [done|]. by apply MethodFacts.collect_raises in E.
Qed.
